(** * rmcloud2pdf: a shallow embedding of [src/rmcloud2pdf/main.py]

    The development follows the source file function by function:
    the string and path helpers of the Python library that the program
    calls, the listing parser [parse_rmapi_find], the tree mirror
    [ensure_directories_exist], the merger [merge_pdfs] and the archive
    pipeline [process_rmdoc_file].

    Python text is modelled by [string]; a character is a code point
    below 256.  External programs and library calls with an effect on the
    outside world (rmc, zipfile, PyPDF2, the file system) are events of a
    trace, and their outcome is read from an environment of oracles. *)

From Stdlib Require Import Ascii String.
From stdpp Require Import base strings list gmap.

Local Open Scope string_scope.
Local Open Scope list_scope.
Local Set Warnings "-register-all,-clear-no-such-hyp,-notation-overridden".

(** ** Python [str] methods *)

Module PyStr.

(** [s.startswith(p)] *)
Fixpoint startswith (s p : string) : bool :=
  match p, s with
  | EmptyString, _ => true
  | String _ _, EmptyString => false
  | String a p', String b s' => Ascii.eqb b a && startswith s' p'
  end.

(** [s[n:]] *)
Fixpoint slice_from (n : nat) (s : string) : string :=
  match n, s with
  | O, _ => s
  | S _, EmptyString => EmptyString
  | S k, String _ r => slice_from k r
  end.

(** [s[:n]] *)
Fixpoint slice_to (n : nat) (s : string) : string :=
  match n, s with
  | O, _ => EmptyString
  | S _, EmptyString => EmptyString
  | S k, String c r => String c (slice_to k r)
  end.

(** [s.endswith(p)] *)
Definition endswith (s p : string) : bool :=
  let n := String.length s in
  let m := String.length p in
  if Nat.leb m n then String.eqb (slice_from (n - m) s) p else false.

(** [c.isspace()] on the code points below 256: TAB, LF, VT, FF, CR,
    FS, GS, RS, US, SPACE, NEL and NBSP. *)
Definition isspace (c : ascii) : bool :=
  let n := nat_of_ascii c in
  (Nat.leb 9 n && Nat.leb n 13) || (Nat.leb 28 n && Nat.leb n 32)
  || Nat.eqb n 133 || Nat.eqb n 160.

Definition is_empty (s : string) : bool :=
  match s with EmptyString => true | _ => false end.

(** [s.lstrip()] and [s.lstrip(c)] for one character [c] *)
Fixpoint lstrip_by (p : ascii -> bool) (s : string) : string :=
  match s with
  | EmptyString => EmptyString
  | String c r => if p c then lstrip_by p r else s
  end.

(** [s.rstrip()] and [s.rstrip(c)] *)
Fixpoint rstrip_by (p : ascii -> bool) (s : string) : string :=
  match s with
  | EmptyString => EmptyString
  | String c r =>
      let r' := rstrip_by p r in
      if is_empty r' && p c then EmptyString else String c r'
  end.

(** [s.strip()] *)
Definition strip (s : string) : string :=
  rstrip_by isspace (lstrip_by isspace s).

Definition is_char (a : ascii) (c : ascii) : bool := Ascii.eqb c a.

(** [s.lstrip('/')] *)
Definition lstrip_slash (s : string) : string := lstrip_by (is_char "/") s.

(** [s.split(sep)] for a one-character separator: never the empty list,
    [''.split(sep) == ['']]. *)
Fixpoint split (sep : ascii) (s : string) : list string :=
  match s with
  | EmptyString => [EmptyString]
  | String c r =>
      if Ascii.eqb c sep then EmptyString :: split sep r
      else match split sep r with
           | h :: t => String c h :: t
           | [] => [String c EmptyString]
           end
  end.

(** [s.replace(old, new)] for a non-empty [old]: occurrences are taken
    from the left and do not overlap.  [skip] counts the characters of
    an occurrence already replaced that are still to be passed over. *)
Fixpoint replace_from (old new : string) (skip : nat) (s : string) : string :=
  match s with
  | EmptyString => EmptyString
  | String c r =>
      match skip with
      | S k => replace_from old new k r
      | O =>
          if startswith s old
          then new ++ replace_from old new (String.length old - 1) r
          else String c (replace_from old new 0 r)
      end
  end.

Definition replace (s old new : string) : string := replace_from old new 0 s.

(** [s.rfind(c)] for one character, as [None] for Python's [-1]. *)
Fixpoint rfind (c : ascii) (s : string) : option nat :=
  match s with
  | EmptyString => None
  | String a r =>
      match rfind c r with
      | Some i => Some (S i)
      | None => if Ascii.eqb a c then Some 0 else None
      end
  end.

End PyStr.

(** ** [os.path] (posixpath) and [pathlib] *)

Module OsPath.
Import PyStr.

Definition sep : ascii := "/"%char.

(** [os.path.join(a, b)] *)
Definition join (a b : string) : string :=
  if startswith b "/" then b
  else if is_empty a || endswith a "/" then a ++ b
  else a ++ "/" ++ b.

(** [os.path.split(p)] before the head is trimmed: the text up to and
    including the last separator, and the text after it. *)
Definition cut (p : string) : string * string :=
  match rfind sep p with
  | Some i => (slice_to (S i) p, slice_from (S i) p)
  | None => (EmptyString, p)
  end.

(** [os.path.basename(p)] *)
Definition basename (p : string) : string := snd (cut p).

(** [os.path.dirname(p)]: trailing separators of the head are removed
    unless the head consists of separators only. *)
Definition dirname (p : string) : string :=
  let head := fst (cut p) in
  if is_empty (lstrip_by (is_char sep) head) then head
  else rstrip_by (is_char sep) head.

(** [Path(p).stem], for a path whose last component is a file name:
    the name up to its last dot, when that dot is neither the first
    nor the last character. *)
Definition stem (p : string) : string :=
  let name := basename p in
  match rfind "." name with
  | Some (S i) =>
      if Nat.ltb (S i) (String.length name - 1) then slice_to (S i) name else name
  | _ => name
  end.

End OsPath.

(** ** Values, trees and the outside world *)

(** What [json.load] returns: [None], booleans, numbers (kept as their
    literal), text, lists and dictionaries (in insertion order, keys
    distinct). *)
Inductive pyval : Type :=
| PyNone
| PyBool (b : bool)
| PyNum (lit : string)
| PyStr (s : string)
| PyList (items : list pyval)
| PyDict (kv : list (string * pyval)).

(** Exceptions that the modelled code can meet. [ValueError] is what
    [json.load] raises on text that is not JSON ([JSONDecodeError] is a
    subclass); [OSError] covers [FileNotFoundError], [IsADirectoryError],
    [FileExistsError] and [BadZipFile] is kept apart. *)
Inductive exn : Type :=
| KeyError
| TypeError
| ValueError
| OSError
| BadZipFile
| CalledProcessError.

Definition exn_eqb (a b : exn) : bool :=
  match a, b with
  | KeyError, KeyError | TypeError, TypeError | ValueError, ValueError
  | OSError, OSError | BadZipFile, BadZipFile
  | CalledProcessError, CalledProcessError => true
  | _, _ => false
  end.

Inductive result (A : Type) : Type :=
| Ok (a : A)
| Raise (e : exn).
Arguments Ok {A} a.
Arguments Raise {A} e.

(** A directory tree as found on disk.  The order of [entries] is the
    order in which the file system enumerates the directory. *)
Inductive node : Type :=
| File (content : string)
| Dir (entries : list (string * node)).

(** One constructor per [print] of the modelled functions; the text of a
    caught exception is left out. *)
Inductive message : Type :=
| MsgCheckingDirs (output_path : string)
| MsgErrBasePath (output_path : string)
| MsgDirOk (full_path : string)
| MsgErrDir (full_path : string)
| MsgMergeOk
| MsgMergeError
| MsgStart (rmdoc_file_path : string)
| MsgUnzipped (temp_extract_dir : string)
| MsgNoContent
| MsgFoundPdf (pdf_file_path : string)
| MsgCopied (src dst : string)
| MsgPageIds (page_ids : list pyval)
| MsgConverting (rm_file_path pdf_page_path : string)
| MsgConvOk
| MsgConvError
| MsgWarnMissing (page_id : pyval)
| MsgNoPages
| MsgJoining (n : nat) (final_pdf_path : string)
| MsgSkipNotNotebook (rmdoc_file_path : string)
| MsgNoOriginal (temp_extract_dir : string)
| MsgCleaning (temp_extract_dir : string)
| MsgCleanupDone
| MsgFinal (final_pdf_path : string).

(** Calls that reach outside the program, in the order they are made. *)
Inductive event : Type :=
| Print (m : message)
| Makedirs (name : string) (exist_ok : bool)
| ZipExtractall (archive dest : string)
| Copyfile (src dst : string)
| SubprocessRun (argv : list string)
| MergerNew
| MergerAppend (pdf_file : string)
| MergerWrite (output_path : string) (pages : list string)
| Rmtree (path : string).

(** How [subprocess.run(..., check=True)] ends. *)
Inductive run_result : Type :=
| Completed
| NonZeroExit
| LaunchFailed.

(** The collaborators, as oracles.  Every theorem below holds for all of
    them. *)
Record env : Type := {
  (** [str(uuid.uuid4())] *)
  uuid4 : string;
  (** what [extractall] leaves at its destination (nothing, when the
      directory was never created) and the exception it raised, if any *)
  zip_extractall : string -> option node * option exn;
  (** [json.load] on the text of a file; [None] when it raises *)
  json_load : string -> option pyval;
  (** [subprocess.run] on an argument vector *)
  subprocess_run : list string -> run_result;
  (** does [shutil.copyfile src dst] of a regular file succeed *)
  copyfile_ok : string -> string -> bool;
  (** can [PdfMerger.append] read this file *)
  merger_append_ok : string -> bool;
  (** can the merged document be written to this path *)
  merger_write_ok : string -> bool;
  (** can [os.makedirs] create this directory, which is not known to exist *)
  mkdir_ok : string -> bool
}.

(** The part of the outside world that the program reads back: the
    content of the extraction directory of the archive in hand, the
    names under which [os.makedirs] is known to find a directory, and
    the trace.  [dirs] is a set of names as the program wrote them, not
    a file system: the ancestors that [os.makedirs] creates on the way
    to a leaf are not entered in it, and two spellings of one directory
    are two names. *)
Record world : Type := {
  extracted : option node;
  dirs : gset string;
  trace : list event
}.

Definition initial_world : world :=
  {| extracted := None; dirs := ∅; trace := [] |}.

(** ** A state and exception monad *)

Definition M (A : Type) : Type := world -> result A * world.

(** The world after some more events, after a change of the extraction
    directory, and with one more directory. *)
Definition log (evs : list event) (w : world) : world :=
  {| extracted := extracted w; dirs := dirs w; trace := trace w ++ evs |}.

Definition set_extracted (t : option node) (w : world) : world :=
  {| extracted := t; dirs := dirs w; trace := trace w |}.

Definition add_dir (name : string) (w : world) : world :=
  {| extracted := extracted w; dirs := {[name]} ∪ dirs w; trace := trace w |}.

Definition emit (ev : event) : M unit := fun w => (Ok tt, log [ev] w).

Definition ret {A} (a : A) : M A := fun w => (Ok a, w).

Definition bind {A B} (c : M A) (k : A -> M B) : M B :=
  fun w => match c w with
           | (Ok a, w') => k a w'
           | (Raise e, w') => (Raise e, w')
           end.

Definition raise {A} (e : exn) : M A := fun w => (Raise e, w).

Notation "x <- c1 ;; c2" := (bind c1 (fun x => c2))
  (at level 100, c1 at next level, right associativity).
Notation "c1 ;; c2" := (bind c1 (fun _ => c2))
  (at level 100, right associativity).


Definition print (m : message) : M unit := emit (Print m).

Definition get_world : M world := fun w => (Ok w, w).

(** The outcome of a computation as a value: the state reached when an
    exception was raised is kept. *)
Definition attempt {A} (c : M A) : M (result A) :=
  fun w => let '(r, w') := c w in (Ok r, w').

(** [try: c except <caught>: handler] *)
Definition try_except {A} (c : M A) (caught : exn -> bool) (handler : M A) : M A :=
  r <- attempt c ;;
  match r with
  | Ok a => ret a
  | Raise e => if caught e then handler else raise e
  end.

(** [try: c finally: cleanup] *)
Definition try_finally {A} (c : M A) (cleanup : M unit) : M A :=
  r <- attempt c ;;
  cleanup ;;
  match r with
  | Ok a => ret a
  | Raise e => raise e
  end.

(** [for x in l: body x] *)
Fixpoint for_each {A} (l : list A) (body : A -> M unit) : M unit :=
  match l with
  | [] => ret tt
  | x :: rest => body x ;; for_each rest body
  end.

(** A loop that carries a value from one round to the next. *)
Fixpoint for_fold {A S} (l : list A) (body : S -> A -> M S) (s : S) : M S :=
  match l with
  | [] => ret s
  | x :: rest => s' <- body s x ;; for_fold rest body s'
  end.

Definition lift {A} (r : result A) : M A := fun w => (r, w).

(** ** Library calls *)

Section Library.
Variable E : env.

(** [os.makedirs(name, exist_ok=...)], seen from its caller: the call
    returns or raises [OSError].  A name known to be a directory is
    accepted when [exist_ok] holds; for any other name the environment
    decides whether the call succeeds, and after a success the name is
    known to be a directory.  Only the named leaf is recorded: the
    intermediate directories the real call creates, also those it
    leaves behind when it fails part of the way, are outside this
    model, so nothing below says which directories exist on disk. *)
Definition os_makedirs (name : string) (exist_ok : bool) : M unit :=
  emit (Makedirs name exist_ok) ;;
  w <- get_world ;;
  if decide (name ∈ dirs w) then
    if exist_ok then ret tt else raise OSError
  else if mkdir_ok E name then fun w => (Ok tt, add_dir name w)
  else raise OSError.

(** [with zipfile.ZipFile(archive, 'r') as z: z.extractall(dest)] into
    a directory that does not exist yet. *)
Definition zipfile_extractall (archive dest : string) : M unit :=
  emit (ZipExtractall archive dest) ;;
  fun w =>
    let '(content, failure) := zip_extractall E archive in
    match failure with
    | None => (Ok tt, set_extracted content w)
    | Some e => (Raise e, set_extracted content w)
    end.

(** [shutil.rmtree(path, ignore_errors=True)] on the extraction
    directory: it never raises. *)
Definition shutil_rmtree (path : string) : M unit :=
  emit (Rmtree path) ;;
  fun w => (Ok tt, set_extracted None w).

(** [shutil.copyfile(src, dst)], [what] being what is found at [src]:
    a directory cannot be copied. *)
Definition shutil_copyfile (what : node) (src dst : string) : M unit :=
  emit (Copyfile src dst) ;;
  match what with
  | Dir _ => raise OSError
  | File _ => if copyfile_ok E src dst then ret tt else raise OSError
  end.

(** [subprocess.run(argv, check=True, capture_output=True, text=True)] *)
Definition subprocess_run_checked (argv : list string) : M unit :=
  emit (SubprocessRun argv) ;;
  match subprocess_run E argv with
  | Completed => ret tt
  | NonZeroExit => raise CalledProcessError
  | LaunchFailed => raise OSError
  end.

(** [with open(path) as f: json.load(f)] on a file of content [data] *)
Definition json_load_file (data : string) : M pyval :=
  match json_load E data with
  | Some v => ret v
  | None => raise ValueError
  end.

(** [v[key]] for a text key *)
Definition py_getitem (v : pyval) (key : string) : result pyval :=
  match v with
  | PyDict kv =>
      match List.find (fun e => String.eqb (fst e) key) kv with
      | Some e => Ok (snd e)
      | None => Raise KeyError
      end
  | _ => Raise TypeError
  end.

(** The values that [for x in v] goes through. *)
Definition py_iter (v : pyval) : result (list pyval) :=
  match v with
  | PyList items => Ok items
  | PyDict kv => Ok (map (fun e => PyStr (fst e)) kv)
  | PyStr s => Ok (map (fun c => PyStr (String c EmptyString)) (list_ascii_of_string s))
  | _ => Raise TypeError
  end.

(** [os.walk(top)] on the tree found at [top]: top-down, one
    [(root, files)] per directory, each file name with the content of
    the file.  A missing directory, or a file in its place, yields
    nothing. *)
Definition files_of (entries : list (string * node)) : list (string * string) :=
  omap (fun e => match snd e with
                 | File data => Some (fst e, data)
                 | Dir _ => None
                 end) entries.

Fixpoint walk (top : string) (n : node) : list (string * list (string * string)) :=
  match n with
  | File _ => []
  | Dir entries =>
      (top, files_of entries)
      :: (fix subdirs (es : list (string * node)) :=
            match es with
            | [] => []
            | (name, child) :: rest => walk (OsPath.join top name) child ++ subdirs rest
            end) entries
  end.

Definition os_walk (top : string) : M (list (string * list (string * string))) :=
  w <- get_world ;;
  ret (match extracted w with
       | Some t => walk top t
       | None => []
       end).

(** [os.path.exists(os.path.join(top, name))] for a [name] without
    separator: what the extraction directory holds under that name. *)
Definition lookup_entry (name : string) (t : option node) : option node :=
  match t with
  | Some (Dir entries) =>
      snd <$> List.find (fun e => String.eqb (fst e) name) entries
  | _ => None
  end.

End Library.

(** ** Listing Parser: [parse_rmapi_find] *)

Definition LF : ascii := "010"%char.

(** One round of the [for line in lines] loop. *)
Definition parse_line (acc : list string * list string) (line : string)
  : list string * list string :=
  let '(directories, files) := acc in
  if PyStr.is_empty line then acc
  else if PyStr.startswith line "[d] " then
    (directories ++ [PyStr.slice_from 4 line], files)
  else if PyStr.startswith line "[f] " then
    (directories, files ++ [PyStr.slice_from 4 line])
  else acc.

Definition parse_rmapi_find (rmapi_find_output : string) : list string * list string :=
  let lines := PyStr.split LF (PyStr.strip rmapi_find_output) in
  fold_left parse_line lines ([], []).

(** ** Tree Mirror: [ensure_directories_exist] *)

Section TreeMirror.
Variable E : env.

Definition is_OSError (e : exn) : bool := exn_eqb e OSError.

Definition mirror_path (output_path directory : string) : string :=
  OsPath.join output_path (PyStr.lstrip_slash directory).

(** The body of [for directory in dir_list]. *)
Definition mirror_entry (output_path directory : string) : M unit :=
  let full_path := mirror_path output_path directory in
  try_except
    (os_makedirs E full_path true ;; print (MsgDirOk full_path))
    is_OSError
    (print (MsgErrDir full_path)).

Definition ensure_directories_exist (output_path : string) (dir_list : list string)
  : M unit :=
  print (MsgCheckingDirs output_path) ;;
  created <- try_except
               (os_makedirs E output_path true ;; ret true)
               is_OSError
               (print (MsgErrBasePath output_path) ;; ret false) ;;
  if created : bool then for_each dir_list (mirror_entry output_path)
  else ret tt (* return *).

End TreeMirror.

(** ** Merger: [merge_pdfs] *)

Section Merger.
Variable E : env.

(** [merger.append(pdf_file)]: the merger's pages so far are [merger]. *)
Definition merger_append (merger : list string) (pdf_file : string) : M (list string) :=
  emit (MergerAppend pdf_file) ;;
  if merger_append_ok E pdf_file then ret (merger ++ [pdf_file])
  else raise OSError.

(** [with open(output_path, "wb") as f: merger.write(f)] *)
Definition merger_write (merger : list string) (output_path : string) : M unit :=
  if merger_write_ok E output_path then emit (MergerWrite output_path merger)
  else raise OSError.

(** [PdfMerger] was imported, so the test [PdfMerger is None] is false. *)
Definition merge_pdfs (pdf_list : list string) (output_path : string) : M bool :=
  try_except
    (emit MergerNew ;;
     merger <- for_fold pdf_list merger_append [] ;;
     merger_write merger output_path ;;
     print MsgMergeOk ;;
     ret true)
    (fun _ => true)
    (print MsgMergeError ;; ret false).

End Merger.

(** ** Archive Classifier and Page Reconstructor: [process_rmdoc_file] *)

Section Pipeline.
Variable E : env.

(** How the body of the [try] ends: by falling through, or by [return]. *)
Inductive flow : Type := Fallthrough | Return.

(** The inner [for file in files] with its [break]. *)
Fixpoint first_file (p : string -> bool) (root : string)
         (files : list (string * string)) : option (string * string) :=
  match files with
  | [] => None
  | (file, data) :: rest =>
      if p file then Some (OsPath.join root file, data)
      else first_file p root rest
  end.

(** The outer [for root, _, files in os.walk(...)] with its [break]:
    the path, and the content, of the first file accepted by [p]. *)
Fixpoint first_in_walk (p : string -> bool)
         (w : list (string * list (string * string))) : option (string * string) :=
  match w with
  | [] => None
  | (root, files) :: rest =>
      match first_file p root files with
      | Some found => Some found
      | None => first_in_walk p rest
      end
  end.

Definition is_content (file : string) : bool := PyStr.endswith file ".content".

Definition is_rm_of (page_id file : string) : bool :=
  PyStr.startswith file page_id && PyStr.endswith file ".rm".

Definition is_original (file : string) : bool :=
  negb (PyStr.endswith file ".content") && negb (PyStr.endswith file ".metadata")
  && negb (PyStr.endswith file ".pagedata") && negb (PyStr.endswith file ".pdf").

(** [[page['id'] for page in content_data['cPages']['pages']]] *)
Fixpoint ids_of (pages : list pyval) : result (list pyval) :=
  match pages with
  | [] => Ok []
  | page :: rest =>
      match py_getitem page "id" with
      | Raise e => Raise e
      | Ok id =>
          match ids_of rest with
          | Raise e => Raise e
          | Ok ids => Ok (id :: ids)
          end
      end
  end.

Definition get_page_ids (content_data : pyval) : result (list pyval) :=
  match py_getitem content_data "cPages" with
  | Raise e => Raise e
  | Ok cpages =>
      match py_getitem cpages "pages" with
      | Raise e => Raise e
      | Ok pages =>
          match py_iter pages with
          | Raise e => Raise e
          | Ok items => ids_of items
          end
      end
  end.

Definition page_pdf_path (temp_extract_dir page_id : string) : string :=
  OsPath.join temp_extract_dir (page_id ++ ".pdf").

Definition rmc_argv (pdf_page_path rm_file_path : string) : list string :=
  ["rmc"; "-f"; "rm"; "-t"; "pdf"; "-o"; pdf_page_path; rm_file_path].

Definition is_CalledProcessError (e : exn) : bool := exn_eqb e CalledProcessError.
Definition is_KeyError (e : exn) : bool := exn_eqb e KeyError.

Definition has_file (w : list (string * list (string * string))) : bool :=
  existsb (fun d => match snd d with [] => false | _ => true end) w.

(** The body of [for page_id in page_ids]; [pdf_pages] is the list as
    it stands when the round begins, the result is the list as the
    round leaves it.  A [page_id] that is not text makes
    [file.startswith(page_id)] raise on the first file met. *)
Definition convert_page (temp_extract_dir : string) (pdf_pages : list string)
           (page_id : pyval) : M (list string) :=
  w <- os_walk temp_extract_dir ;;
  match page_id with
  | PyStr id =>
      match first_in_walk (is_rm_of id) w with
      | Some (rm_file_path, _) =>
          let pdf_page_path := page_pdf_path temp_extract_dir id in
          let pdf_pages := pdf_pages ++ [pdf_page_path] in
          print (MsgConverting rm_file_path pdf_page_path) ;;
          try_except
            (subprocess_run_checked E (rmc_argv pdf_page_path rm_file_path) ;;
             print MsgConvOk)
            is_CalledProcessError
            (print MsgConvError (* continue *)) ;;
          ret pdf_pages
      | None =>
          print (MsgWarnMissing page_id) ;;
          ret pdf_pages
      end
  | _ =>
      if has_file w then raise TypeError
      else print (MsgWarnMissing page_id) ;; ret pdf_pages
  end.

(** The [try] block of the native-notebook branch. *)
Definition reconstruct (temp_extract_dir final_pdf_path : string)
           (content_data : pyval) : M flow :=
  page_ids <- lift (get_page_ids content_data) ;;
  print (MsgPageIds page_ids) ;;
  pdf_pages <- for_fold page_ids (convert_page temp_extract_dir) [] ;;
  match pdf_pages with
  | [] => print MsgNoPages ;; ret Return
  | _ =>
      print (MsgJoining (length pdf_pages) final_pdf_path) ;;
      merge_pdfs E pdf_pages final_pdf_path ;;
      ret Fallthrough
  end.

(** The [except KeyError] block. *)
Definition passthrough (rmdoc_file_path temp_extract_dir final_pdf_path : string)
  : M flow :=
  print (MsgSkipNotNotebook rmdoc_file_path) ;;
  w <- os_walk temp_extract_dir ;;
  match first_in_walk is_original w with
  | Some (original_file, data) =>
      shutil_copyfile E (File data) original_file final_pdf_path ;;
      print (MsgCopied original_file final_pdf_path)
  | None => print (MsgNoOriginal temp_extract_dir)
  end ;;
  ret Fallthrough.

(** The outer [try] block. *)
Definition classify (rmdoc_file_path temp_extract_dir final_pdf_path : string)
  : M flow :=
  zipfile_extractall E rmdoc_file_path temp_extract_dir ;;
  print (MsgUnzipped temp_extract_dir) ;;
  w <- os_walk temp_extract_dir ;;
  match first_in_walk is_content w with
  | None => print MsgNoContent ;; ret Return
  | Some (content_file, data) =>
      content_data <- json_load_file E data ;;
      let content_uuid := OsPath.stem content_file in
      let pdf_file_path := OsPath.join temp_extract_dir (content_uuid ++ ".pdf") in
      now <- get_world ;;
      match lookup_entry (content_uuid ++ ".pdf") (extracted now) with
      | Some what =>
          print (MsgFoundPdf pdf_file_path) ;;
          shutil_copyfile E what pdf_file_path final_pdf_path ;;
          print (MsgCopied pdf_file_path final_pdf_path) ;;
          ret Fallthrough
      | None =>
          try_except
            (reconstruct temp_extract_dir final_pdf_path content_data)
            is_KeyError
            (passthrough rmdoc_file_path temp_extract_dir final_pdf_path)
      end
  end.

Definition temp_extract_dir_of (rmdoc_file_path : string) : string :=
  OsPath.join (OsPath.dirname rmdoc_file_path) ("temp_extract_" ++ uuid4 E).

Definition final_pdf_path_of (rmdoc_file_path : string) : string :=
  let base_name := PyStr.replace (OsPath.basename rmdoc_file_path) ".rmdoc" "" in
  OsPath.join (OsPath.dirname rmdoc_file_path) (base_name ++ ".pdf").

Definition process_rmdoc_file (rmdoc_file_path : string) : M unit :=
  print (MsgStart rmdoc_file_path) ;;
  let temp_extract_dir := temp_extract_dir_of rmdoc_file_path in
  let final_pdf_path := final_pdf_path_of rmdoc_file_path in
  how <- try_finally
           (classify rmdoc_file_path temp_extract_dir final_pdf_path)
           (print (MsgCleaning temp_extract_dir) ;;
            shutil_rmtree temp_extract_dir ;;
            print MsgCleanupDone) ;;
  match how with
  | Return => ret tt
  | Fallthrough => print (MsgFinal final_pdf_path)
  end.

End Pipeline.

(** ** Pipeline Driver: the loop of the main block *)

Section Driver.
Variable E : env.

(** The Fetcher and [os.path.abspath] are left open: the loop is read
    for every behaviour of theirs. *)
Variable rmapi_download : string -> string -> M unit.
Variable abspath : string -> string.

Definition rmdoc_path_of (output file : string) : string :=
  OsPath.join (abspath output) (PyStr.lstrip_slash file) ++ ".rmdoc".

(** [for file in rmapi_file_list: ...] *)
Definition process_files (output : string) (rmapi_file_list : list string) : M unit :=
  for_each rmapi_file_list
    (fun file =>
       rmapi_download file output ;;
       process_rmdoc_file E (rmdoc_path_of output file)).

End Driver.

(** ** Notions used by the statements *)

(** The paths that the lines carrying [tag] contribute, in line order. *)
Definition tagged (tag : string) (lines : list string) : list string :=
  omap (fun line => if PyStr.startswith line tag
                    then Some (PyStr.slice_from 4 line) else None) lines.

(** The listing of a sequence of lines, as the Listing Parser's contract
    words it. *)
Definition listing_of (lines : list string) : list string * list string :=
  (tagged "[d] " lines, tagged "[f] " lines).

(** The output path obtained by replacing the archive suffix at the end
    of the archive's name, as the data model words it. *)
Definition without_suffix (name suffix : string) : string :=
  if PyStr.endswith name suffix
  then PyStr.slice_to (String.length name - String.length suffix) name
  else name.

Definition suffix_replaced_path (rmdoc_file_path : string) : string :=
  OsPath.join (OsPath.dirname rmdoc_file_path)
              (without_suffix (OsPath.basename rmdoc_file_path) ".rmdoc" ++ ".pdf").

(** A file of the given name somewhere in a tree, at any depth. *)
Inductive file_in : node -> string -> Prop :=
| file_here entries name data :
    (name, File data) ∈ entries -> file_in (Dir entries) name
| file_below entries sub child name :
    (sub, child) ∈ entries -> file_in child name -> file_in (Dir entries) name.

(** A source page entry for a page identifier: a file whose name begins
    with the identifier and ends in [.rm]. *)
Definition has_page (t : node) (page_id : string) : Prop :=
  exists file, file_in t file /\ is_rm_of page_id file = true.

(** The file [name] is found at [path] when the tree sits at [top]:
    the path is the one a traversal joins for it, in whatever order
    directories and files are enumerated. *)
Inductive occurs : string -> node -> string -> string -> Prop :=
| occurs_here top entries name data :
    (name, File data) ∈ entries ->
    occurs top (Dir entries) (OsPath.join top name) name
| occurs_below top entries sub child path name :
    (sub, child) ∈ entries ->
    occurs (OsPath.join top sub) child path name ->
    occurs top (Dir entries) path name.

(** [src] is the one source page entry of [page_id]: the file at [src]
    has a name that begins with the identifier and ends in [.rm], and no
    file at another path has such a name. *)
Definition sole_source (top : string) (t : node) (page_id src : string) : Prop :=
  (exists name, occurs top t src name /\ is_rm_of page_id name = true)
  /\ forall path name,
       occurs top t path name -> is_rm_of page_id name = true -> path = src.

(** The same tree under another enumeration: at every level the same
    names with the same content, in any order. *)
Inductive reordered : node -> node -> Prop :=
| reordered_file content : reordered (File content) (File content)
| reordered_dir entries moved entries' :
    Forall2 (fun e e' => fst e = fst e' /\ reordered (snd e) (snd e'))
            entries moved ->
    moved ≡ₚ entries' ->
    reordered (Dir entries) (Dir entries').

(** The files of a tree with their paths, as a traversal lists them. *)
Definition located (top : string) (t : node) : list (string * string) :=
  flat_map (fun d => map (fun f => (OsPath.join (fst d) (fst f), fst f)) (snd d))
           (walk top t).

(** The names of the files of a tree. *)
Definition names_of (t : node) : list string := map snd (located "" t).

(** The runs of the converter in a trace, each as source and output. *)
Definition conversions (evs : list event) : list (string * string) :=
  omap (fun ev => match ev with
                  | SubprocessRun [_; _; _; _; _; _; pdf_page_path; rm_file_path] =>
                      Some (rm_file_path, pdf_page_path)
                  | _ => None
                  end) evs.

(** What the page loop does for a page that is converted from
    [source page_id]. *)
Definition page_events (temp_extract_dir : string) (source : string -> string)
           (page_id : string) : list event :=
  [Print (MsgConverting (source page_id) (page_pdf_path temp_extract_dir page_id));
   SubprocessRun (rmc_argv (page_pdf_path temp_extract_dir page_id) (source page_id));
   Print MsgConvOk].

(** The archive was handled as an embedded document: its rendered
    document was copied to the final path and no page was converted or
    merged. *)
Definition handled_as_embedded (evs : list event) (final_pdf_path : string) : Prop :=
  (exists src, Copyfile src final_pdf_path ∈ evs)
  /\ Forall (fun ev => match ev with
                       | SubprocessRun _ | MergerNew | MergerAppend _
                       | MergerWrite _ _ => False
                       | _ => True
                       end) evs.

(** The documents that the Merger wrote, each with its page sequence. *)
Definition merged_documents (evs : list event) : list (string * list string) :=
  omap (fun ev => match ev with
                  | MergerWrite output_path pages => Some (output_path, pages)
                  | _ => None
                  end) evs.

(** The calls of [os.makedirs], in order, each with its [exist_ok]. *)
Definition makedirs_calls (evs : list event) : list (string * bool) :=
  omap (fun ev => match ev with
                  | Makedirs name exist_ok => Some (name, exist_ok)
                  | _ => None
                  end) evs.

(** What a round of the Tree Mirror's loop may do. *)
Definition is_mirror_event (ev : event) : Prop :=
  match ev with
  | Makedirs _ _ | Print (MsgDirOk _) | Print (MsgErrDir _) => True
  | _ => False
  end.

(** The files handed to the Merger, in the order of the calls. *)
Definition merger_inputs (evs : list event) : list string :=
  omap (fun ev => match ev with MergerAppend f => Some f | _ => None end) evs.

(** How many times the Merger was invoked: once per [PdfMerger()]. *)
Definition merger_calls (evs : list event) : nat :=
  length (omap (fun ev => match ev with MergerNew => Some tt | _ => None end) evs).

(** What an invocation of the Merger does after [PdfMerger()]. *)
Definition is_merge_step (ev : event) : Prop :=
  match ev with
  | Print _ | MergerAppend _ | MergerWrite _ _ => True
  | _ => False
  end.

(** The world once the [finally] block of [process_rmdoc_file] has run. *)
Definition cleaned (temp_extract_dir : string) (w : world) : world :=
  set_extracted None
    (log [Print (MsgCleaning temp_extract_dir); Rmtree temp_extract_dir;
          Print MsgCleanupDone] w).

Definition is_print (ev : event) : Prop :=
  match ev with Print _ => True | _ => False end.

Definition is_rmtree (ev : event) : Prop :=
  match ev with Rmtree _ => True | _ => False end.

(** The calls on the [PdfMerger] object. *)
Definition is_merger (ev : event) : Prop :=
  match ev with
  | MergerNew | MergerAppend _ | MergerWrite _ _ => True
  | _ => False
  end.

(** What one round of the page loop may do: messages and runs of the
    converter. *)
Definition is_page_event (ev : event) : Prop :=
  match ev with Print _ | SubprocessRun _ => True | _ => False end.

(** What an invocation of the Merger may do. *)
Definition is_merge_event (ev : event) : Prop :=
  match ev with
  | Print _ | MergerNew | MergerAppend _ | MergerWrite _ _ => True
  | _ => False
  end.

(** A computation that adds to the trace only events accepted by [P]. *)
Definition only_emits (P : event -> Prop) {A} (c : M A) : Prop :=
  forall w, exists evs, trace (snd (c w)) = trace w ++ evs /\ Forall P evs.

(** ** Sample inputs *)

(** A listing whose last name ends in a blank. *)
Definition draft_listing : string :=
  "[d] /Notes" ++ String LF "[f] /Notes/Draft ".

(** A listing that names the same path as a directory and as a file. *)
Definition twice_listing : string :=
  "[d] /a" ++ String LF "[f] /a".

(** The listing of the specification's example scenario. *)
Definition quarterly_listing : string :=
  "[d] /Notes" ++ String LF "[f] /Notes/Quarterly".

(** An environment for the Tree Mirror in which one directory cannot be
    created. *)
Definition locked_env : env :=
  {| uuid4 := "0001";
     zip_extractall := fun _ => (None, Some BadZipFile);
     json_load := fun _ => None;
     subprocess_run := fun _ => LaunchFailed;
     copyfile_ok := fun _ _ => false;
     merger_append_ok := fun _ => false;
     merger_write_ok := fun _ => false;
     mkdir_ok := fun name => negb (String.eqb name "/out/Locked") |}.

(** The archive of the examples, and its extraction directory under the
    identifier that [sample_env] draws. *)
Definition sample_path : string := "/out/q.rmdoc".
Definition sample_tmp : string := "/out/temp_extract_0001".

(** A manifest that lists the given page identifiers. *)
Definition notebook_manifest (page_ids : list string) : pyval :=
  PyDict [("cPages",
           PyDict [("pages",
                    PyList (map (fun id => PyDict [("id", PyStr id)]) page_ids))])].

(** A stand-in for [json.load] in the examples: the text ["not json"] is
    refused, any other text is read as a manifest listing the
    comma-separated page identifiers it holds. *)
Definition sample_json_load (data : string) : option pyval :=
  if String.eqb data "not json" then None
  else Some (notebook_manifest (PyStr.split "," data)).

(** An environment in which the archive extracts to [t], the converter
    behaves as [rmc] says, and every other call succeeds. *)
Definition sample_env (t : node) (rmc : list string -> run_result) : env :=
  {| uuid4 := "0001";
     zip_extractall := fun _ => (Some t, None);
     json_load := sample_json_load;
     subprocess_run := rmc;
     copyfile_ok := fun _ _ => true;
     merger_append_ok := fun _ => true;
     merger_write_ok := fun _ => true;
     mkdir_ok := fun _ => true |}.

Definition rmc_works (argv : list string) : run_result := Completed.

(** The converter fails on every page. *)
Definition rmc_fails (argv : list string) : run_result := NonZeroExit.

(** An environment in which the archive extracts to [t], the converter
    fails on every page, and the Merger can read no page (none was
    produced). *)
Definition no_pages_env (t : node) : env :=
  {| uuid4 := "0001";
     zip_extractall := fun _ => (Some t, None);
     json_load := sample_json_load;
     subprocess_run := rmc_fails;
     copyfile_ok := fun _ _ => true;
     merger_append_ok := fun _ => false;
     merger_write_ok := fun _ => true;
     mkdir_ok := fun _ => true |}.

(** The converter fails on the page whose output path is [pdf_page_path]. *)
Definition rmc_fails_on (pdf_page_path : string) (argv : list string) : run_result :=
  if bool_decide (pdf_page_path ∈ argv) then NonZeroExit else Completed.

(** A notebook with pages [c], [a], [b]; its page files are enumerated
    in another order. *)
Definition notebook_tree : node :=
  Dir [("x.metadata", File "{}");
       ("x", Dir [("a.rm", File "A"); ("b.rm", File "B"); ("c.rm", File "C")]);
       ("x.content", File "c,a,b")].

(** The same notebook with a rendered document of its name in a
    subdirectory. *)
Definition nested_pdf_tree : node :=
  Dir [("x.content", File "c,a,b");
       ("x", Dir [("a.rm", File "A"); ("b.rm", File "B"); ("c.rm", File "C")]);
       ("export", Dir [("x.pdf", File "%PDF")])].

(** The same notebook with the rendered document at the top. *)
Definition embedded_tree : node :=
  Dir [("x.content", File "c,a,b");
       ("x", Dir [("a.rm", File "A"); ("b.rm", File "B"); ("c.rm", File "C")]);
       ("x.pdf", File "%PDF")].


(** A notebook with the pages [a] and [ab]: the name of the page file
    of [ab] begins with [a] as well.  The two trees hold the same files
    and differ in the order in which the page files are enumerated. *)
Definition prefix_tree (pages : list (string * node)) : node :=
  Dir [("x.content", File "a,ab"); ("x", Dir pages)].

Definition short_first_tree : node :=
  prefix_tree [("a.rm", File "A"); ("ab.rm", File "AB")].

Definition long_first_tree : node :=
  prefix_tree [("ab.rm", File "AB"); ("a.rm", File "A")].

(** An archive whose manifest is not JSON. *)
Definition broken_manifest_tree : node :=
  Dir [("x.content", File "not json"); ("x.pdf", File "%PDF")].

(** ** Notions used by the further properties *)

(** Lines put back into one text, each but the last followed by a line
    feed: the inverse of [split] on lines without line feed. *)
Fixpoint join_lines (lines : list string) : string :=
  match lines with
  | [] => ""
  | [line] => line
  | line :: rest => line ++ String LF (join_lines rest)
  end.

(** The listing text with one tagged line per directory, then one per
    file. *)
Definition render_listing (directories files : list string) : string :=
  join_lines (map (fun d => "[d] " ++ d)%string directories
              ++ map (fun f => "[f] " ++ f)%string files).

(** [c in s] *)
Fixpoint has_char (c : ascii) (s : string) : bool :=
  match s with
  | EmptyString => false
  | String a r => Ascii.eqb a c || has_char c r
  end.

(** A text whose last character exists and is not whitespace. *)
Definition ends_visibly (s : string) : Prop :=
  exists q c, s = (q ++ String c "")%string /\ PyStr.isspace c = false.

(** The paths for which the Tree Mirror reported an error, in order. *)
Definition mirror_errors (evs : list event) : list string :=
  omap (fun ev => match ev with
                  | Print (MsgErrDir p) | Print (MsgErrBasePath p) => Some p
                  | _ => None
                  end) evs.

(** The files that a merge goes through: all of them up to and
    including the first that cannot be read. *)
Fixpoint attempted (readable : string -> bool) (pdf_list : list string) : list string :=
  match pdf_list with
  | [] => []
  | f :: rest => f :: (if readable f then attempted readable rest else [])
  end.

(** A page sequence made of page paths of the extraction directory:
    each is the path joined for an identifier without [/], so a file
    directly in that directory. *)
Definition page_paths (tmp : string) (pdf_pages : list string) : Prop :=
  Forall (fun f => exists id, has_char "/" id = false /\ f = page_pdf_path tmp id)
         pdf_pages.

(** The file names of an extracted tree hold no [/], as the names of a
    file system do. *)
Definition slash_free_names (content : option node) : Prop :=
  forall t file, content = Some t -> file_in t file -> has_char "/" file = false.

(** A computation that, started in a world whose extraction directory
    holds [content], adds to the trace only events accepted by [P]. *)
Definition only_emits_on (content : option node) (P : event -> Prop) {A}
           (c : M A) : Prop :=
  forall w, extracted w = content ->
    exists evs, trace (snd (c w)) = trace w ++ evs /\ Forall P evs.

(** The world in which the page loop of an archive starts. *)
Definition at_page_loop (E : env) (path : string) (t : node)
           (page_ids : list pyval) (w : world) : world :=
  log [Print (MsgPageIds page_ids)]
      (set_extracted (Some t)
         (log [Print (MsgStart path);
               ZipExtractall path (temp_extract_dir_of E path);
               Print (MsgUnzipped (temp_extract_dir_of E path))] w)).

(** What a run on one archive may touch: it extracts into its own
    directory, converts pages to page paths of that directory, hands
    such paths to the Merger, writes the output path only, removes its
    own directory only, and creates no directory by [os.makedirs].  A
    page path is the one joined for an identifier without [/]: for an
    identifier that begins with [/], [os.path.join] would drop the
    directory. *)
Definition footprint (tmp final : string) (ev : event) : Prop :=
  match ev with
  | Print _ | MergerNew => True
  | Makedirs _ _ => False
  | ZipExtractall _ dest => dest = tmp
  | Rmtree path => path = tmp
  | Copyfile _ dst => dst = final
  | MergerWrite dst _ => dst = final
  | MergerAppend f => exists id, has_char "/" id = false /\ f = page_pdf_path tmp id
  | SubprocessRun argv =>
      exists id rm,
        has_char "/" id = false /\ argv = rmc_argv (page_pdf_path tmp id) rm
  end.

(** ** Further sample archives *)

(** An archive without manifest. *)
Definition no_manifest_tree : node :=
  Dir [("readme.txt", File "hello")].

(** An archive that wraps a file of another kind. *)
Definition payload_tree : node :=
  Dir [("y.content", File "{}"); ("y.metadata", File "{}");
       ("raw.bin", File "RAW")].

(** An environment in which the archive extracts to [t], every manifest
    is read as [manifest], and every other call succeeds. *)
Definition manifest_env (t : node) (manifest : pyval) : env :=
  {| uuid4 := "0001";
     zip_extractall := fun _ => (Some t, None);
     json_load := fun _ => Some manifest;
     subprocess_run := rmc_works;
     copyfile_ok := fun _ _ => true;
     merger_append_ok := fun _ => true;
     merger_write_ok := fun _ => true;
     mkdir_ok := fun _ => true |}.

Definition rmc_missing (argv : list string) : run_result := LaunchFailed.

(** ** Fetcher: [rmapi_download] *)

Module Fetcher.

(** One constructor per [print] of [rmapi_download]. *)
Inductive message : Type :=
| MsgDownloading (file_path_remote : string)
| MsgDownloadOk
| MsgDownloadError
| MsgEnsured (local_dir : string)
| MsgMoving (temp_file_name full_local_path : string)
| MsgMoveOk
| MsgProcessing (full_local_path : string)
| MsgCleanedUp (temp_dir : string).

Inductive event : Type :=
| Print (m : message)
| Makedirs (name : string) (exist_ok : bool)
| Chdir (path : string)
| SubprocessRun (argv : list string)
| Move (src dst : string)
| Rmtree (path : string).

(** The collaborators of the Fetcher, as oracles. *)
Record env : Type := {
  abspath : string -> string;
  uuid4 : string;
  mkdir_ok : string -> bool;
  chdir_ok : string -> bool;
  subprocess_run : list string -> run_result;
  move_ok : string -> string -> bool;
  rmtree_ok : string -> bool
}.

(** The working directory of the process, the paths known to be
    directories, and the trace. *)
Record world : Type := {
  cwd : string;
  present : gset string;
  trace : list event
}.

Definition M (A : Type) : Type := world -> result A * world.

Definition ret {A} (a : A) : M A := fun w => (Ok a, w).

Definition bind {A B} (c : M A) (k : A -> M B) : M B :=
  fun w => match c w with
           | (Ok a, w') => k a w'
           | (Raise e, w') => (Raise e, w')
           end.

Definition raise {A} (e : exn) : M A := fun w => (Raise e, w).

Notation "x <- c1 ;; c2" := (bind c1 (fun x => c2))
  (at level 100, c1 at next level, right associativity).
Notation "c1 ;; c2" := (bind c1 (fun _ => c2))
  (at level 100, right associativity).

Definition emit (ev : event) : M unit :=
  fun w => (Ok tt, {| cwd := cwd w; present := present w; trace := trace w ++ [ev] |}).

Definition print (m : message) : M unit := emit (Print m).

Definition attempt {A} (c : M A) : M (result A) :=
  fun w => let '(r, w') := c w in (Ok r, w').

Definition try_except {A} (c : M A) (caught : exn -> bool) (handler : M A) : M A :=
  r <- attempt c ;;
  match r with
  | Ok a => ret a
  | Raise e => if caught e then handler else raise e
  end.

Definition try_finally {A} (c : M A) (cleanup : M unit) : M A :=
  r <- attempt c ;;
  cleanup ;;
  match r with
  | Ok a => ret a
  | Raise e => raise e
  end.

Section Calls.
Variable F : env.

(** [os.getcwd()] *)
Definition os_getcwd : M string := fun w => (Ok (cwd w), w).

(** [os.makedirs(name, exist_ok=...)] *)
Definition os_makedirs (name : string) (exist_ok : bool) : M unit :=
  emit (Makedirs name exist_ok) ;;
  fun w =>
    if decide (name ∈ present w) then
      if exist_ok then (Ok tt, w) else (Raise OSError, w)
    else if mkdir_ok F name then
      (Ok tt, {| cwd := cwd w; present := {[name]} ∪ present w; trace := trace w |})
    else (Raise OSError, w).

(** [os.chdir(path)] *)
Definition os_chdir (path : string) : M unit :=
  emit (Chdir path) ;;
  fun w =>
    if chdir_ok F path
    then (Ok tt, {| cwd := path; present := present w; trace := trace w |})
    else (Raise OSError, w).

(** [subprocess.run(argv, check=True, capture_output=True, text=True)] *)
Definition subprocess_run_checked (argv : list string) : M unit :=
  emit (SubprocessRun argv) ;;
  match subprocess_run F argv with
  | Completed => ret tt
  | NonZeroExit => raise CalledProcessError
  | LaunchFailed => raise OSError
  end.

(** [shutil.move(src, dst)] *)
Definition shutil_move (src dst : string) : M unit :=
  emit (Move src dst) ;;
  if move_ok F src dst then ret tt else raise OSError.

(** [shutil.rmtree(path)], which raises when it fails. *)
Definition shutil_rmtree (path : string) : M unit :=
  emit (Rmtree path) ;;
  fun w =>
    if rmtree_ok F path
    then (Ok tt, {| cwd := cwd w; present := present w ∖ {[path]}; trace := trace w |})
    else (Raise OSError, w).

Definition full_local_path_of (file_path_remote local_output_dir : string) : string :=
  OsPath.join (abspath F local_output_dir) (PyStr.lstrip_slash file_path_remote)
  ++ ".rmdoc".

Definition temp_file_name_of (file_path_remote : string) : string :=
  OsPath.basename file_path_remote ++ ".rmdoc".

Definition temp_dir_of : string :=
  OsPath.join (abspath F (OsPath.join "/" "tmp")) (uuid4 F).

(** The [try] block; the result tells whether the download succeeded
    (the block ends by [return] when it did not). *)
Definition fetch (file_path_remote full_local_path temp_file_name temp_dir : string)
  : M unit :=
  os_chdir temp_dir ;;
  print (MsgDownloading file_path_remote) ;;
  downloaded <- try_except
                  (subprocess_run_checked ["rmapi"; "get"; file_path_remote] ;;
                   print MsgDownloadOk ;;
                   ret true)
                  is_CalledProcessError
                  (print MsgDownloadError ;; ret false) ;;
  if downloaded : bool then
    let local_dir := OsPath.dirname full_local_path in
    os_makedirs local_dir true ;;
    print (MsgEnsured local_dir) ;;
    print (MsgMoving temp_file_name full_local_path) ;;
    shutil_move temp_file_name full_local_path ;;
    print MsgMoveOk ;;
    print (MsgProcessing full_local_path)
  else ret tt (* return *).

Definition rmapi_download (file_path_remote local_output_dir : string) : M unit :=
  let full_local_path := full_local_path_of file_path_remote local_output_dir in
  let temp_file_name := temp_file_name_of file_path_remote in
  original_dir <- os_getcwd ;;
  let temp_dir := temp_dir_of in
  os_makedirs temp_dir false ;;
  try_finally
    (fetch file_path_remote full_local_path temp_file_name temp_dir)
    (os_chdir original_dir ;;
     shutil_rmtree temp_dir ;;
     print (MsgCleanedUp temp_dir)).

End Calls.

(** An environment for the examples: every call succeeds but the
    download, which ends as [get] says. *)
Definition sample (get : run_result) : env :=
  {| abspath := fun p => p;
     uuid4 := "0002";
     mkdir_ok := fun _ => true;
     chdir_ok := fun _ => true;
     subprocess_run := fun _ => get;
     move_ok := fun _ _ => true;
     rmtree_ok := fun _ => true |}.

Definition start : world := {| cwd := "/home/me"; present := ∅; trace := [] |}.

End Fetcher.

(** * Properties *)

(** ** The library helpers on examples *)

Section HelperExamples.
Import PyStr OsPath.

Example strip_ex : strip (String LF "  a b " ++ String LF "") = "a b".
Proof. reflexivity. Qed.

Example split_ex : split "," "a,,b," = ["a"; ""; "b"; ""].
Proof. reflexivity. Qed.

Example split_empty_ex : split LF "" = [""].
Proof. reflexivity. Qed.

Example replace_ex : replace "x.rmdoc.y.rmdoc" ".rmdoc" "" = "x.y".
Proof. reflexivity. Qed.

Example replace_overlap_ex : replace "aaa" "aa" "b" = "ba".
Proof. reflexivity. Qed.

Example join_ex :
  join "/out" "a" = "/out/a" /\ join "/out/" "a" = "/out/a"
  /\ join "/out" "/a" = "/a" /\ join "" "a" = "a".
Proof. repeat split; reflexivity. Qed.

Example dirname_ex :
  dirname "/out/Notes/q.rmdoc" = "/out/Notes" /\ dirname "q.rmdoc" = ""
  /\ dirname "/q.rmdoc" = "/" /\ dirname "a//b" = "a".
Proof. repeat split; reflexivity. Qed.

Example basename_ex : basename "/out/Notes/q.rmdoc" = "q.rmdoc".
Proof. reflexivity. Qed.

Example stem_ex :
  stem "/t/ab.content" = "ab" /\ stem "/t/.content" = ".content"
  /\ stem "/t/a.b.content" = "a.b" /\ stem "/t/abc." = "abc.".
Proof. repeat split; reflexivity. Qed.

Example endswith_ex :
  endswith "p1.rm" ".rm" = true /\ endswith "rm" ".rm" = false
  /\ endswith ".rm" ".rm" = true.
Proof. repeat split; reflexivity. Qed.

Example walk_ex :
  walk "/t" notebook_tree
  = [("/t", [("x.metadata", "{}"); ("x.content", "c,a,b")]);
     ("/t/x", [("a.rm", "A"); ("b.rm", "B"); ("c.rm", "C")])].
Proof. reflexivity. Qed.

Example get_page_ids_ex :
  get_page_ids (notebook_manifest ["c"; "a"]) = Ok [PyStr "c"; PyStr "a"]
  /\ get_page_ids (PyDict []) = Raise KeyError
  /\ get_page_ids (PyDict [("cPages", PyList [])]) = Raise TypeError
  /\ get_page_ids (PyDict [("cPages", PyDict [("pages", PyList [PyDict []])])])
     = Raise KeyError.
Proof. repeat split; reflexivity. Qed.

End HelperExamples.

(** ** Listing Parser *)

Section ListingParser.

Lemma startswith_cons b s a p :
  PyStr.startswith (String b s) (String a p)
  = Ascii.eqb b a && PyStr.startswith s p.
Proof. reflexivity. Qed.

(** No line carries both tags. *)
Lemma tags_exclusive line :
  PyStr.startswith line "[d] " = true -> PyStr.startswith line "[f] " = false.
Proof.
  destruct line as [|a [|b rest]]; [discriminate| |].
  - rewrite startswith_cons. simpl PyStr.startswith at 1. by rewrite andb_false_r.
  - rewrite !startswith_cons.
    destruct (Ascii.eqb_spec a "[") as [->|]; [|discriminate].
    destruct (Ascii.eqb_spec b "d") as [->|]; [|discriminate].
    reflexivity.
Qed.

Lemma parse_line_spec ds fs line :
  parse_line (ds, fs) line
  = (ds ++ tagged "[d] " [line], fs ++ tagged "[f] " [line]).
Proof.
  unfold parse_line, tagged; simpl.
  destruct line as [|c rest] eqn:Hl; simpl PyStr.is_empty; cbv iota.
  - simpl. by rewrite !app_nil_r.
  - rewrite <- Hl.
    destruct (PyStr.startswith line "[d] ") eqn:Hd.
    + rewrite (tags_exclusive _ Hd). simpl. by rewrite app_nil_r.
    + destruct (PyStr.startswith line "[f] "); simpl; by rewrite !app_nil_r.
Qed.

Lemma tagged_cons tag line lines :
  tagged tag (line :: lines) = tagged tag [line] ++ tagged tag lines.
Proof.
  unfold tagged; simpl. destruct (PyStr.startswith line tag); reflexivity.
Qed.

Lemma parse_loop_spec lines : forall ds fs,
  fold_left parse_line lines (ds, fs)
  = (ds ++ tagged "[d] " lines, fs ++ tagged "[f] " lines).
Proof.
  induction lines as [|line lines IH]; intros ds fs.
  - simpl. by rewrite !app_nil_r.
  - cbn [fold_left]. rewrite parse_line_spec, IH.
    rewrite (tagged_cons "[d] " line lines), (tagged_cons "[f] " line lines).
    by rewrite <- !app_assoc.
Qed.

(** Order is kept: the directories are a subsequence of the remainders
    of the lines. *)
Lemma tagged_sublist tag lines :
  sublist (tagged tag lines) (map (PyStr.slice_from 4) lines).
Proof.
  induction lines as [|line lines IH]; [constructor|].
  unfold tagged in *; simpl.
  destruct (PyStr.startswith line tag); by constructor.
Qed.

Lemma tagged_length lines :
  length (tagged "[d] " lines) + length (tagged "[f] " lines) <= length lines.
Proof.
  induction lines as [|line lines IH]; [reflexivity|].
  rewrite (tagged_cons "[d] "), (tagged_cons "[f] "), !length_app.
  unfold tagged at 1 3; simpl.
  destruct (PyStr.startswith line "[d] ") eqn:Hd.
  - rewrite (tags_exclusive _ Hd). simpl. lia.
  - destruct (PyStr.startswith line "[f] "); simpl; lia.
Qed.

(** One round of the loop extends at most one of the two sequences. *)
Lemma parse_line_one_sequence acc line :
  fst (parse_line acc line) = fst acc \/ snd (parse_line acc line) = snd acc.
Proof.
  destruct acc as [ds fs]. unfold parse_line.
  destruct (PyStr.is_empty line); [by left|].
  destruct (PyStr.startswith line "[d] "); [by right|].
  destruct (PyStr.startswith line "[f] "); by left.
Qed.

(** C9, as stated, fails in two ways.  The lines of the text itself do
    not decide: the last line of [draft_listing] begins with the file tag
    and its remainder is ["/Notes/Draft "], yet the parser yields
    ["/Notes/Draft"].  And a path can appear in both sequences: in
    [twice_listing] the path ["/a"] is listed under both tags and is
    returned as a directory and as a file. *)
Lemma parse_rmapi_find_counterexample :
  parse_rmapi_find draft_listing <> listing_of (PyStr.split LF draft_listing)
  /\ parse_rmapi_find twice_listing = (["/a"], ["/a"])
  /\ "/a" ∈ fst (parse_rmapi_find twice_listing)
  /\ "/a" ∈ snd (parse_rmapi_find twice_listing).
Proof.
  split; [vm_compute; discriminate|].
  split; [reflexivity|]. split; apply list_elem_of_here.
Qed.

(** C9, amended: the parser reads the lines of the text once the
    whitespace around the whole text is removed.  Of these lines, those
    beginning with ["[d] "] give the directories and those beginning
    with ["[f] "] give the files, by their remainders and in line
    order; all other lines give nothing; each line gives its path to at
    most one of the two sequences (every round of the loop leaves one of
    them as it was, and the two together are no longer than the lines);
    the empty text gives two empty sequences. *)
Theorem parse_rmapi_find_spec (rmapi_find_output : string) :
  let lines := PyStr.split LF (PyStr.strip rmapi_find_output) in
  parse_rmapi_find rmapi_find_output = listing_of lines
  /\ parse_rmapi_find rmapi_find_output = fold_left parse_line lines ([], [])
  /\ sublist (fst (parse_rmapi_find rmapi_find_output))
             (map (PyStr.slice_from 4) lines)
  /\ sublist (snd (parse_rmapi_find rmapi_find_output))
             (map (PyStr.slice_from 4) lines)
  /\ (forall acc line,
        fst (parse_line acc line) = fst acc \/ snd (parse_line acc line) = snd acc)
  /\ (forall line, ~ (PyStr.startswith line "[d] " = true
                      /\ PyStr.startswith line "[f] " = true))
  /\ length (fst (parse_rmapi_find rmapi_find_output))
      + length (snd (parse_rmapi_find rmapi_find_output)) <= length lines
  /\ parse_rmapi_find "" = ([], []).
Proof.
  intros lines.
  assert (Hp : parse_rmapi_find rmapi_find_output = listing_of lines).
  { unfold parse_rmapi_find. fold lines. by rewrite parse_loop_spec. }
  split; [exact Hp|]. split; [reflexivity|].
  rewrite Hp. unfold listing_of; simpl.
  repeat split; auto using tagged_sublist, tagged_length, parse_line_one_sequence.
  intros line [Hd Hf]. rewrite (tags_exclusive _ Hd) in Hf. discriminate.
Qed.

(** The example scenario of the specification. *)
Lemma parse_rmapi_find_spec_witness :
  parse_rmapi_find quarterly_listing = (["/Notes"], ["/Notes/Quarterly"]).
Proof. exact (proj1 (parse_rmapi_find_spec quarterly_listing)). Defined.

End ListingParser.

(** ** Output path *)

Section OutputPath.

(** C7: the archive of a remote document named [draft.rmdoc].  The
    program removes every occurrence of [.rmdoc] from the name, not
    only the suffix, so the output is not the archive's name with its
    extension replaced. *)
Theorem final_pdf_path_inner_occurrence :
  final_pdf_path_of "/out/Notes/draft.rmdoc.rmdoc" = "/out/Notes/draft.pdf"
  /\ suffix_replaced_path "/out/Notes/draft.rmdoc.rmdoc" = "/out/Notes/draft.rmdoc.pdf"
  /\ final_pdf_path_of "/out/Notes/draft.rmdoc.rmdoc"
     <> suffix_replaced_path "/out/Notes/draft.rmdoc.rmdoc".
Proof. vm_compute. repeat split; discriminate. Qed.

(** Where the name holds [.rmdoc] only as its suffix the two agree. *)
Example final_pdf_path_plain :
  final_pdf_path_of "/out/Notes/Quarterly.rmdoc" = "/out/Notes/Quarterly.pdf"
  /\ suffix_replaced_path "/out/Notes/Quarterly.rmdoc" = "/out/Notes/Quarterly.pdf".
Proof. split; reflexivity. Qed.

Lemma length_append (a b : string) :
  String.length (a ++ b) = String.length a + String.length b.
Proof. induction a as [|c a IH]; simpl; [reflexivity | by rewrite IH]. Qed.

Lemma slice_from_append (a b : string) :
  PyStr.slice_from (String.length a) (a ++ b) = b.
Proof. induction a as [|c a IH]; [by destruct b | exact IH]. Qed.

Lemma slice_to_append (a b : string) :
  PyStr.slice_to (String.length a) (a ++ b) = a.
Proof. induction a as [|c a IH]; simpl; [by destruct b | by rewrite IH]. Qed.

Lemma startswith_split (s p : string) :
  PyStr.startswith s p = true -> s = (p ++ PyStr.slice_from (String.length p) s)%string.
Proof.
  revert s. induction p as [|a p IH]; intros s; [by destruct s|].
  destruct s as [|b s]; [discriminate|].
  cbn [PyStr.startswith]. intros [Hab Hrest]%andb_prop.
  apply Ascii.eqb_eq in Hab as ->.
  change (String a s
          = String a (p ++ PyStr.slice_from (String.length p) s)%string).
  f_equal. by apply IH.
Qed.

Lemma without_suffix_append (a suffix : string) :
  without_suffix (a ++ suffix) suffix = a.
Proof.
  unfold without_suffix, PyStr.endswith. rewrite length_append.
  replace (String.length a + String.length suffix - String.length suffix)
    with (String.length a) by lia.
  rewrite slice_from_append, String.eqb_refl, slice_to_append.
  by destruct (Nat.leb_spec (String.length suffix)
                            (String.length a + String.length suffix)); [|lia].
Qed.

(** [str.replace] removes the suffix, and nothing else, when the suffix
    is the only occurrence of [.rmdoc] in the name. *)
Lemma replace_only_suffix (name : string) :
  (forall pre post, (name ++ ".rmdoc" = pre ++ ".rmdoc" ++ post)%string -> post = "") ->
  PyStr.replace (name ++ ".rmdoc") ".rmdoc" "" = name.
Proof.
  unfold PyStr.replace.
  induction name as [|c name IH]; intros Honly; [reflexivity|].
  change (String c name ++ ".rmdoc")%string with (String c (name ++ ".rmdoc")).
  cbn [PyStr.replace_from].
  destruct (PyStr.startswith (String c (name ++ ".rmdoc")) ".rmdoc") eqn:Hstart.
  - apply startswith_split in Hstart.
    pose proof (Honly "" _ Hstart) as Hpost.
    rewrite Hpost in Hstart. apply (f_equal String.length) in Hstart.
    simpl in Hstart. rewrite length_append in Hstart. simpl in Hstart. lia.
  - f_equal. apply IH. intros pre post Heq.
    apply (Honly (String c pre) post).
    change (String c (name ++ ".rmdoc") = String c (pre ++ ".rmdoc" ++ post))%string.
    by rewrite Heq.
Qed.

(** For such a name the program's output path is the archive's path
    with its suffix replaced. *)
Lemma final_pdf_path_only_suffix (rmdoc_file_path name : string) :
  OsPath.basename rmdoc_file_path = (name ++ ".rmdoc")%string ->
  (forall pre post, (name ++ ".rmdoc" = pre ++ ".rmdoc" ++ post)%string -> post = "") ->
  final_pdf_path_of rmdoc_file_path = suffix_replaced_path rmdoc_file_path.
Proof.
  intros Hbase Honly. unfold final_pdf_path_of, suffix_replaced_path.
  by rewrite Hbase, replace_only_suffix, without_suffix_append.
Qed.

End OutputPath.

(** ** Facts about the monad *)

Section MonadFacts.

Lemma world_eq (w1 w2 : world) :
  extracted w1 = extracted w2 -> dirs w1 = dirs w2 -> trace w1 = trace w2 ->
  w1 = w2.
Proof. destruct w1, w2; simpl; congruence. Qed.

Lemma log_nil w : log [] w = w.
Proof. apply world_eq; simpl; auto using app_nil_r. Qed.

Lemma log_log a b w : log b (log a w) = log (a ++ b) w.
Proof. apply world_eq; simpl; auto using app_assoc. Qed.

Lemma log_set_extracted evs t w :
  log evs (set_extracted t w) = set_extracted t (log evs w).
Proof. reflexivity. Qed.

Lemma bind_run {A B} (c : M A) (k : A -> M B) w :
  bind c k w = match c w with
               | (Ok a, w') => k a w'
               | (Raise e, w') => (Raise e, w')
               end.
Proof. reflexivity. Qed.

Lemma bind_ok {A B} (c : M A) (k : A -> M B) w a w' :
  c w = (Ok a, w') -> bind c k w = k a w'.
Proof. intros H. unfold bind. by rewrite H. Qed.

Lemma bind_raise {A B} (c : M A) (k : A -> M B) w e w' :
  c w = (Raise e, w') -> bind c k w = (Raise e, w').
Proof. intros H. unfold bind. by rewrite H. Qed.

Lemma try_except_ok {A} (c h : M A) caught w a w' :
  c w = (Ok a, w') -> try_except c caught h w = (Ok a, w').
Proof. intros H. unfold try_except, bind, attempt. by rewrite H. Qed.

Lemma try_except_caught {A} (c h : M A) caught w e w' :
  c w = (Raise e, w') -> caught e = true -> try_except c caught h w = h w'.
Proof. intros H Hc. unfold try_except, bind, attempt. by rewrite H, Hc. Qed.

Lemma try_except_passed {A} (c h : M A) caught w e w' :
  c w = (Raise e, w') -> caught e = false ->
  try_except c caught h w = (Raise e, w').
Proof. intros H Hc. unfold try_except, bind, attempt. by rewrite H, Hc. Qed.

Lemma emit_run ev w : emit ev w = (Ok tt, log [ev] w).
Proof. reflexivity. Qed.

Lemma print_run m w : print m w = (Ok tt, log [Print m] w).
Proof. reflexivity. Qed.

Lemma get_world_run w : get_world w = (Ok w, w).
Proof. reflexivity. Qed.

Lemma os_walk_run top w :
  os_walk top w = (Ok (match extracted w with
                       | Some t => walk top t
                       | None => []
                       end), w).
Proof. reflexivity. Qed.

Lemma zipfile_extractall_ok E archive dest content w :
  zip_extractall E archive = (content, None) ->
  zipfile_extractall E archive dest w
  = (Ok tt, set_extracted content (log [ZipExtractall archive dest] w)).
Proof.
  intros H. unfold zipfile_extractall.
  erewrite bind_ok by apply emit_run. by rewrite H.
Qed.

Lemma only_emits_update P (f : world -> world) :
  (forall w, trace (f w) = trace w) -> only_emits P (fun w => (Ok tt, f w)).
Proof. intros Hf w. exists []. simpl. by rewrite Hf, app_nil_r. Qed.

Lemma only_emits_ret P {A} (a : A) : only_emits P (ret a).
Proof. intros w. exists []. simpl. by rewrite app_nil_r. Qed.

Lemma only_emits_raise P {A} e : only_emits P (@raise A e).
Proof. intros w. exists []. simpl. by rewrite app_nil_r. Qed.

Lemma only_emits_lift P {A} (r : result A) : only_emits P (lift r).
Proof. intros w. exists []. simpl. by rewrite app_nil_r. Qed.

Lemma only_emits_get_world P : only_emits P get_world.
Proof. intros w. exists []. simpl. by rewrite app_nil_r. Qed.

Lemma only_emits_emit (P : event -> Prop) ev : P ev -> only_emits P (emit ev).
Proof. intros H w. exists [ev]. split; [reflexivity | by constructor]. Qed.

Lemma only_emits_bind P {A B} (c : M A) (k : A -> M B) :
  only_emits P c -> (forall a, only_emits P (k a)) -> only_emits P (bind c k).
Proof.
  intros Hc Hk w. destruct (Hc w) as (evs & Hw & Hevs).
  unfold bind. destruct (c w) as [[a|e] w1]; simpl in Hw.
  - destruct (Hk a w1) as (evs' & Hw' & Hevs').
    exists (evs ++ evs'). rewrite Hw', Hw, app_assoc.
    split; [done | by apply Forall_app].
  - by exists evs.
Qed.

Lemma only_emits_attempt P {A} (c : M A) :
  only_emits P c -> only_emits P (attempt c).
Proof.
  intros Hc w. destruct (Hc w) as (evs & Hw & Hevs).
  exists evs. unfold attempt. destruct (c w). by simpl in *.
Qed.

Lemma only_emits_try_except P {A} (c h : M A) caught :
  only_emits P c -> only_emits P h -> only_emits P (try_except c caught h).
Proof.
  intros Hc Hh. unfold try_except.
  apply only_emits_bind; [by apply only_emits_attempt|].
  intros [a|e]; [apply only_emits_ret|].
  destruct (caught e); [done | apply only_emits_raise].
Qed.

Lemma only_emits_for_fold P {A S} (l : list A) (body : S -> A -> M S) :
  (forall s x, only_emits P (body s x)) ->
  forall s, only_emits P (for_fold l body s).
Proof.
  intros Hb. induction l as [|x l IH]; intros s; simpl.
  - apply only_emits_ret.
  - apply only_emits_bind; auto.
Qed.

Lemma only_emits_for_each P {A} (l : list A) (body : A -> M unit) :
  (forall x, only_emits P (body x)) -> only_emits P (for_each l body).
Proof.
  intros Hb. induction l as [|x l IH]; simpl.
  - apply only_emits_ret.
  - apply only_emits_bind; auto.
Qed.

Lemma only_emits_weaken (P Q : event -> Prop) {A} (c : M A) :
  (forall ev, P ev -> Q ev) -> only_emits P c -> only_emits Q c.
Proof.
  intros HPQ Hc w. destruct (Hc w) as (evs & Hw & Hevs).
  exists evs. split; [done|]. eapply Forall_impl; eauto.
Qed.

(** With the result of the computation in hand. *)
Lemma only_emits_run P {A} (c : M A) w r w' :
  only_emits P c -> c w = (r, w') ->
  exists evs, trace w' = trace w ++ evs /\ Forall P evs.
Proof.
  intros Hc Hr. destruct (Hc w) as (evs & Hw & Hevs). rewrite Hr in Hw. eauto.
Qed.

End MonadFacts.

(** ** Which events each function can emit *)

Ltac emits_step :=
  first
    [ apply only_emits_ret
    | apply only_emits_raise
    | apply only_emits_lift
    | apply only_emits_get_world
    | apply only_emits_emit; exact I
    | apply only_emits_update; reflexivity
    | apply only_emits_try_except
    | apply only_emits_bind; [|intros ?]
    | match goal with
      | |- only_emits _ (match ?x with _ => _ end) => destruct x
      | |- only_emits _ (if ?x then _ else _) => destruct x
      end ].

Ltac emits := repeat emits_step.

Section Emissions.
Variable E : env.

Lemma os_walk_emits P top : only_emits P (os_walk top).
Proof. unfold os_walk. emits. Qed.

Lemma subprocess_run_checked_emits argv :
  only_emits is_page_event (subprocess_run_checked E argv).
Proof. unfold subprocess_run_checked. emits. Qed.

Lemma convert_page_emits tmp pdf_pages page_id :
  only_emits is_page_event (convert_page E tmp pdf_pages page_id).
Proof.
  unfold convert_page, print.
  apply only_emits_bind; [apply os_walk_emits | intros w].
  destruct page_id; emits; apply subprocess_run_checked_emits.
Qed.

Lemma merger_append_emits merger pdf_file :
  only_emits is_merge_event (merger_append E merger pdf_file).
Proof. unfold merger_append. emits. Qed.

Lemma merge_pdfs_emits pdf_list output_path :
  only_emits is_merge_event (merge_pdfs E pdf_list output_path).
Proof.
  unfold merge_pdfs, merger_write, print. emits.
  apply only_emits_for_fold. intros. apply merger_append_emits.
Qed.

Lemma page_loop_emits tmp page_ids pdf_pages :
  only_emits is_page_event (for_fold page_ids (convert_page E tmp) pdf_pages).
Proof. apply only_emits_for_fold. intros. apply convert_page_emits. Qed.

Lemma zipfile_extractall_emits archive dest :
  only_emits (fun ev => ~ is_rmtree ev) (zipfile_extractall E archive dest).
Proof.
  unfold zipfile_extractall.
  apply only_emits_bind; [apply only_emits_emit; by intros [] | intros _].
  intros w. exists []. rewrite app_nil_r.
  destruct (zip_extractall E archive) as [content [e|]]; by split.
Qed.

Lemma shutil_copyfile_emits what src dst :
  only_emits (fun ev => ~ is_rmtree ev) (shutil_copyfile E what src dst).
Proof.
  unfold shutil_copyfile.
  apply only_emits_bind; [apply only_emits_emit; by intros [] | intros _].
  emits.
Qed.

Lemma not_rmtree_page ev : is_page_event ev -> ~ is_rmtree ev.
Proof. destruct ev; simpl; tauto. Qed.

Lemma not_rmtree_merge ev : is_merge_event ev -> ~ is_rmtree ev.
Proof. destruct ev; simpl; tauto. Qed.

Lemma print_emits (P : event -> Prop) m : P (Print m) -> only_emits P (print m).
Proof. apply only_emits_emit. Qed.

Lemma reconstruct_emits tmp final content_data :
  only_emits (fun ev => ~ is_rmtree ev) (reconstruct E tmp final content_data).
Proof.
  unfold reconstruct.
  apply only_emits_bind; [apply only_emits_lift | intros page_ids].
  apply only_emits_bind; [apply print_emits; by intros [] | intros _].
  apply only_emits_bind.
  { eapply only_emits_weaken; [apply not_rmtree_page | apply page_loop_emits]. }
  intros [|p pages].
  - apply only_emits_bind; [apply print_emits; by intros [] | intros _].
    apply only_emits_ret.
  - apply only_emits_bind; [apply print_emits; by intros [] | intros _].
    apply only_emits_bind; [|intros _; apply only_emits_ret].
    eapply only_emits_weaken; [apply not_rmtree_merge | apply merge_pdfs_emits].
Qed.

Lemma passthrough_emits path tmp final :
  only_emits (fun ev => ~ is_rmtree ev) (passthrough E path tmp final).
Proof.
  unfold passthrough.
  apply only_emits_bind; [apply print_emits; by intros [] | intros _].
  apply only_emits_bind; [apply os_walk_emits | intros w].
  apply only_emits_bind; [|intros _; apply only_emits_ret].
  destruct (first_in_walk is_original w) as [[original data]|].
  - apply only_emits_bind; [apply shutil_copyfile_emits | intros _].
    apply print_emits; by intros [].
  - apply print_emits; by intros [].
Qed.

Lemma classify_emits path tmp final :
  only_emits (fun ev => ~ is_rmtree ev) (classify E path tmp final).
Proof.
  unfold classify.
  apply only_emits_bind; [apply zipfile_extractall_emits | intros _].
  apply only_emits_bind; [apply print_emits; by intros [] | intros _].
  apply only_emits_bind; [apply os_walk_emits | intros w].
  destruct (first_in_walk is_content w) as [[content_file data]|].
  - apply only_emits_bind; [unfold json_load_file; emits | intros content_data].
    apply only_emits_bind; [apply only_emits_get_world | intros now].
    destruct (lookup_entry _ _) as [what|].
    + apply only_emits_bind; [apply print_emits; by intros [] | intros _].
      apply only_emits_bind; [apply shutil_copyfile_emits | intros _].
      apply only_emits_bind; [apply print_emits; by intros [] | intros _].
      apply only_emits_ret.
    + apply only_emits_try_except;
        [apply reconstruct_emits | apply passthrough_emits].
  - apply only_emits_bind; [apply print_emits; by intros [] | intros _].
    apply only_emits_ret.
Qed.

End Emissions.

(** ** Trees and their traversal *)

Section Trees.

(** Induction on trees, with the hypothesis for every entry of a
    directory. *)
Fixpoint node_induction (P : node -> Prop)
         (HFile : forall content, P (File content))
         (HDir : forall entries, Forall (fun e => P (snd e)) entries -> P (Dir entries))
         (n : node) : P n :=
  match n with
  | File content => HFile content
  | Dir entries =>
      HDir entries
        ((fix all (es : list (string * node)) : Forall (fun e => P (snd e)) es :=
            match es with
            | [] => List.Forall_nil _
            | (name, child) :: rest =>
                List.Forall_cons _ (name, child) rest
                  (node_induction P HFile HDir child) (all rest)
            end) entries)
  end.

Lemma walk_dir top entries :
  walk top (Dir entries)
  = (top, files_of entries)
    :: flat_map (fun e => walk (OsPath.join top (fst e)) (snd e)) entries.
Proof.
  cbn [walk]. f_equal.
  induction entries as [|[name child] rest IH]; [reflexivity|].
  cbn [flat_map fst snd]. by rewrite IH.
Qed.

Lemma elem_of_files_of name data entries :
  (name, data) ∈ files_of entries <-> (name, File data) ∈ entries.
Proof.
  unfold files_of. rewrite list_elem_of_omap. split.
  - intros ([n [c|es]] & Hin & Heq); simpl in Heq; [|discriminate].
    by inversion Heq; subst.
  - intros Hin. by exists (name, File data).
Qed.

(** Every file of the tree is met by the traversal... *)
Lemma file_in_walk t name :
  file_in t name ->
  forall top, exists root files data,
    (root, files) ∈ walk top t /\ (name, data) ∈ files.
Proof.
  induction 1 as [entries name data Hin | entries sub child name Hin Hfile IH];
    intros top; rewrite walk_dir.
  - exists top, (files_of entries), data. split; [by left|].
    by apply elem_of_files_of.
  - destruct (IH (OsPath.join top sub)) as (root & files & data & Hw & Hf).
    exists root, files, data. split; [|done].
    right. apply list_elem_of_In, in_flat_map.
    exists (sub, child). split; by apply list_elem_of_In.
Qed.

(** ... and the traversal meets nothing else. *)
Lemma walk_file_in t :
  forall top root files name data,
    (root, files) ∈ walk top t -> (name, data) ∈ files -> file_in t name.
Proof.
  induction t as [content | entries IH] using node_induction;
    intros top root files name data Hw Hf.
  - simpl in Hw. by apply not_elem_of_nil in Hw.
  - rewrite walk_dir in Hw. apply elem_of_cons in Hw as [Heq | Hw].
    + inversion Heq; subst. eapply file_here. by apply elem_of_files_of.
    + apply list_elem_of_In, in_flat_map in Hw as ([sub child] & Hin & Hw).
      apply list_elem_of_In in Hin, Hw.
      rewrite Forall_forall in IH.
      eapply file_below; [exact Hin|].
      eapply (IH _ Hin); eauto.
Qed.

Lemma first_file_some p root files found :
  first_file p root files = Some found ->
  exists file, (file, snd found) ∈ files /\ p file = true
               /\ fst found = OsPath.join root file.
Proof.
  induction files as [|[file data] rest IH]; [discriminate|]. simpl.
  destruct (p file) eqn:Hp.
  - intros [= <-]. exists file. repeat split; [left | done].
  - intros H. destruct (IH H) as (f & Hin & Hpf & Hpath).
    exists f. repeat split; [by right | done | done].
Qed.

Lemma first_file_none p root files :
  first_file p root files = None ->
  forall file data, (file, data) ∈ files -> p file = false.
Proof.
  induction files as [|[file data] rest IH]; intros Hnone f d Hin.
  - by apply not_elem_of_nil in Hin.
  - simpl in Hnone. destruct (p file) eqn:Hp; [discriminate|].
    apply elem_of_cons in Hin as [[= -> ->] | Hin]; eauto.
Qed.

Lemma first_in_walk_some p w found :
  first_in_walk p w = Some found ->
  exists root files file,
    (root, files) ∈ w /\ (file, snd found) ∈ files /\ p file = true
    /\ fst found = OsPath.join root file.
Proof.
  induction w as [|[root files] rest IH]; [discriminate|]. simpl.
  destruct (first_file p root files) as [f|] eqn:Hf.
  - intros [= <-]. destruct (first_file_some _ _ _ _ Hf) as (file & ? & ? & ?).
    exists root, files, file. repeat split; [left | done..].
  - intros H. destruct (IH H) as (r & fs & file & ? & ? & ? & ?).
    exists r, fs, file. repeat split; [by right | done..].
Qed.

Lemma first_in_walk_none p w :
  first_in_walk p w = None ->
  forall root files file data,
    (root, files) ∈ w -> (file, data) ∈ files -> p file = false.
Proof.
  induction w as [|[root files] rest IH]; intros Hnone r fs file data Hw Hf.
  - by apply not_elem_of_nil in Hw.
  - simpl in Hnone. destruct (first_file p root files) eqn:Hff; [discriminate|].
    apply elem_of_cons in Hw as [[= -> ->] | Hw].
    + eapply first_file_none; eauto.
    + eapply IH; eauto.
Qed.

(** The search for a page file succeeds exactly when the tree holds a
    source page entry for the identifier, wherever it is and in
    whatever order the directories are enumerated. *)
Lemma page_found top t page_id :
  has_page t page_id ->
  exists rm_file_path data,
    first_in_walk (is_rm_of page_id) (walk top t) = Some (rm_file_path, data).
Proof.
  intros (file & Hfile & Hrm).
  destruct (file_in_walk _ _ Hfile top) as (root & files & data & Hw & Hf).
  destruct (first_in_walk (is_rm_of page_id) (walk top t)) as [[rm d]|] eqn:Hfind;
    [eauto|].
  rewrite (first_in_walk_none _ _ Hfind _ _ _ _ Hw Hf) in Hrm. discriminate.
Qed.


Lemma occurs_file_in top t path name : occurs top t path name -> file_in t name.
Proof. induction 1; [by eapply file_here | by eapply file_below]. Qed.

(** A file occurs at a path exactly when the traversal joins that path
    for it. *)
Lemma occurs_walk top t path name :
  occurs top t path name ->
  exists root files data,
    (root, files) ∈ walk top t /\ (name, data) ∈ files
    /\ path = OsPath.join root name.
Proof.
  induction 1 as [top entries name data Hin
                 | top entries sub child path name Hin Hocc IH];
    rewrite walk_dir.
  - exists top, (files_of entries), data. split; [by left|]. split; [|done].
    by apply elem_of_files_of.
  - destruct IH as (root & files & data & Hw & Hf & Hp).
    exists root, files, data. split; [|done].
    right. apply list_elem_of_In, in_flat_map.
    exists (sub, child). split; by apply list_elem_of_In.
Qed.

Lemma walk_occurs t :
  forall top root files name data,
    (root, files) ∈ walk top t -> (name, data) ∈ files ->
    occurs top t (OsPath.join root name) name.
Proof.
  induction t as [content | entries IH] using node_induction;
    intros top root files name data Hw Hf.
  - simpl in Hw. by apply not_elem_of_nil in Hw.
  - rewrite walk_dir in Hw. apply elem_of_cons in Hw as [Heq | Hw].
    + inversion Heq; subst. eapply occurs_here. by apply elem_of_files_of.
    + apply list_elem_of_In, in_flat_map in Hw as ([sub child] & Hin & Hw).
      apply list_elem_of_In in Hin, Hw.
      rewrite Forall_forall in IH.
      eapply occurs_below; [exact Hin|].
      eapply (IH _ Hin); eauto.
Qed.

Lemma occurs_located top t path name :
  occurs top t path name <-> (path, name) ∈ located top t.
Proof.
  unfold located. split.
  - intros (root & files & data & Hw & Hf & ->)%occurs_walk.
    apply list_elem_of_In, in_flat_map. exists (root, files).
    split; [by apply list_elem_of_In|].
    cbn [fst snd]. apply in_map_iff. exists (name, data).
    split; [done | by apply list_elem_of_In].
  - intros Hin. apply list_elem_of_In, in_flat_map in Hin as ([root files] & Hw & Hin).
    cbn [fst snd] in Hin. apply in_map_iff in Hin as ([file data] & Heq & Hf).
    cbn [fst] in Heq. injection Heq as <- <-.
    eapply walk_occurs; by apply list_elem_of_In.
Qed.

Lemma file_in_names_of t name : file_in t name -> name ∈ names_of t.
Proof.
  intros Hfile.
  destruct (file_in_walk _ _ Hfile "") as (root & files & data & Hw & Hf).
  unfold names_of. apply list_elem_of_fmap.
  exists (OsPath.join root name, name). split; [done|].
  apply occurs_located. eapply walk_occurs; eauto.
Qed.

(** The search for a page file returns the one source page entry of the
    identifier, when there is just one. *)
Lemma sole_source_found top t page_id src :
  sole_source top t page_id src ->
  exists data, first_in_walk (is_rm_of page_id) (walk top t) = Some (src, data).
Proof.
  intros [(name & Hocc & Hrm) Huniq].
  destruct (page_found top t page_id) as (rm & data & Hfind).
  { exists name. split; [by eapply occurs_file_in | done]. }
  destruct (first_in_walk_some _ _ _ Hfind)
    as (root & files & file & Hw & Hf & Hp & Hpath).
  cbn [fst snd] in Hf, Hpath.
  assert (rm = src) as ->; [|eauto].
  rewrite Hpath. eapply Huniq; [|exact Hp]. eapply walk_occurs; eauto.
Qed.

(** A sole source can be read off the list of the files. *)
Lemma sole_source_located top t page_id src :
  map fst (List.filter (fun f => is_rm_of page_id (snd f)) (located top t)) = [src] ->
  sole_source top t page_id src.
Proof.
  intros Hone.
  assert (Hiff : forall path,
             (exists name, occurs top t path name /\ is_rm_of page_id name = true)
             <-> path = src).
  { intros path.
    transitivity
      (In path (map fst (List.filter (fun f => is_rm_of page_id (snd f))
                                     (located top t)))).
    - rewrite in_map_iff. split.
      + intros (name & Hocc & Hrm). exists (path, name). split; [done|].
        apply filter_In. split; [by apply list_elem_of_In, occurs_located | done].
      + intros ([p name] & Hp & [Hin Hrm]%filter_In). cbn [fst snd] in Hp, Hrm.
        subst p. exists name. split; [|done].
        by apply occurs_located, list_elem_of_In.
    - rewrite Hone. simpl. split; [by intros [<-|[]] | intros ->; by left]. }
  split.
  - destruct (proj2 (Hiff src) eq_refl) as (name & ? & ?). eauto.
  - intros path name Hocc Hrm. apply Hiff. eauto.
Qed.

(** Where a file is found does not depend on the enumeration. *)
Lemma occurs_reordered top t t' path name :
  reordered t t' -> occurs top t path name -> occurs top t' path name.
Proof.
  intros Hre Hocc. revert t' Hre.
  induction Hocc as [top entries name data Hin
                    | top entries sub child path name Hin Hocc IH];
    intros t' Hre; inversion Hre as [|? moved entries' Hall Hperm]; subst;
    apply list_elem_of_lookup in Hin as [i Hi];
    destruct (Forall2_lookup_l _ _ _ _ _ Hall Hi) as ([n' c'] & Hi' & Hn & Hc);
    cbn [fst snd] in Hn, Hc; subst n'.
  - inversion Hc; subst.
    apply occurs_here with (data := data). rewrite <- Hperm.
    by eapply list_elem_of_lookup_2.
  - eapply occurs_below; [|apply IH; exact Hc].
    rewrite <- Hperm. by eapply list_elem_of_lookup_2.
Qed.

Lemma occurs_reordered_inv top t t' path name :
  reordered t t' -> occurs top t' path name -> occurs top t path name.
Proof.
  intros Hre Hocc. revert t Hre.
  induction Hocc as [top entries name data Hin
                    | top entries sub child path name Hin Hocc IH];
    intros t Hre; inversion Hre as [|entries0 moved ? Hall Hperm]; subst;
    rewrite <- Hperm in Hin;
    apply list_elem_of_lookup in Hin as [i Hi];
    destruct (Forall2_lookup_r _ _ _ _ _ Hall Hi) as ([n0 c0] & Hi0 & Hn & Hc);
    cbn [fst snd] in Hn, Hc; subst n0.
  - inversion Hc; subst.
    apply occurs_here with (data := data). by eapply list_elem_of_lookup_2.
  - eapply occurs_below; [|apply IH; exact Hc].
    by eapply list_elem_of_lookup_2.
Qed.

(** The one source page entry of an identifier is the same under every
    enumeration of the tree. *)
Lemma sole_source_reordered top t t' page_id src :
  reordered t t' -> sole_source top t page_id src -> sole_source top t' page_id src.
Proof.
  intros Hre [(name & Hocc & Hrm) Huniq]. split.
  - exists name. split; [by eapply occurs_reordered | done].
  - intros path file Hocc' Hrm'. eapply Huniq; [|exact Hrm'].
    by eapply occurs_reordered_inv.
Qed.

End Trees.

(** ** The archive pipeline: control flow *)

Section PipelineFlow.
Variable E : env.

(** Every way out of the [try] block goes through the [finally] block. *)
Lemma process_rmdoc_file_run rmdoc_file_path w :
  let tmp := temp_extract_dir_of E rmdoc_file_path in
  let final := final_pdf_path_of rmdoc_file_path in
  process_rmdoc_file E rmdoc_file_path w
  = match classify E rmdoc_file_path tmp final
            (log [Print (MsgStart rmdoc_file_path)] w) with
    | (Ok Fallthrough, w2) => (Ok tt, log [Print (MsgFinal final)] (cleaned tmp w2))
    | (Ok Return, w2) => (Ok tt, cleaned tmp w2)
    | (Raise e, w2) => (Raise e, cleaned tmp w2)
    end.
Proof.
  intros tmp final.
  unfold process_rmdoc_file, try_finally, attempt, print, shutil_rmtree, emit, bind.
  fold tmp. fold final.
  destruct (classify E rmdoc_file_path tmp final _) as [[[|]|e] w2];
    simpl; repeat f_equal; apply world_eq; simpl; by rewrite <- ?app_assoc.
Qed.

(** C6: whatever the archive holds and however its processing ends
    (normally, by an early return, or with an exception of any kind),
    the extraction directory is removed: it is absent from the final
    world, it is removed once, by the run itself, and only messages
    follow the removal. *)
Theorem extraction_directory_removed rmdoc_file_path w :
  let tmp := temp_extract_dir_of E rmdoc_file_path in
  let w' := snd (process_rmdoc_file E rmdoc_file_path w) in
  extracted w' = None
  /\ exists before after,
       trace w' = trace w ++ before ++ Rmtree tmp :: after
       /\ Forall (fun ev => ~ is_rmtree ev) before
       /\ Forall is_print after.
Proof.
  intros tmp w'. subst w'. rewrite process_rmdoc_file_run. fold tmp.
  destruct (classify E rmdoc_file_path tmp _ _) as [r w2] eqn:Hc.
  destruct (only_emits_run _ _ _ _ _ (classify_emits E _ _ _) Hc)
    as (evs & Htr & Hevs).
  simpl in Htr.
  assert (Hbefore : Forall (fun ev => ~ is_rmtree ev)
            (Print (MsgStart rmdoc_file_path) :: evs ++ [Print (MsgCleaning tmp)])).
  { constructor; [by intros []|]. apply Forall_app. split; [done|].
    constructor; [by intros [] | constructor]. }
  destruct r as [[|]|e]; simpl; (split; [reflexivity|]);
    exists (Print (MsgStart rmdoc_file_path) :: evs ++ [Print (MsgCleaning tmp)]);
    [ exists [Print MsgCleanupDone; Print (MsgFinal (final_pdf_path_of rmdoc_file_path))]
    | exists [Print MsgCleanupDone] | exists [Print MsgCleanupDone] ];
    (split; [rewrite Htr; simpl; by rewrite <- !app_assoc
            | split; [done | repeat constructor]]).
Qed.

(** The first steps of the [try] block on an archive that extracts. *)
Lemma classify_run path tmp final t w :
  zip_extractall E path = (Some t, None) ->
  classify E path tmp final w
  = let w1 := set_extracted (Some t)
                (log [ZipExtractall path tmp; Print (MsgUnzipped tmp)] w) in
    match first_in_walk is_content (walk tmp t) with
    | None => (Ok Return, log [Print MsgNoContent] w1)
    | Some (content_file, data) =>
        match json_load E data with
        | None => (Raise ValueError, w1)
        | Some content_data =>
            let pdf_file_path := OsPath.join tmp (OsPath.stem content_file ++ ".pdf") in
            match lookup_entry (OsPath.stem content_file ++ ".pdf") (Some t) with
            | Some what =>
                (print (MsgFoundPdf pdf_file_path) ;;
                 shutil_copyfile E what pdf_file_path final ;;
                 print (MsgCopied pdf_file_path final) ;;
                 ret Fallthrough) w1
            | None =>
                try_except (reconstruct E tmp final content_data) is_KeyError
                           (passthrough E path tmp final) w1
            end
        end
    end.
Proof.
  intros Hzip. unfold classify.
  erewrite bind_ok by (by apply zipfile_extractall_ok).
  erewrite bind_ok by apply print_run.
  erewrite bind_ok by apply os_walk_run.
  rewrite !log_set_extracted, log_log. cbn [extracted set_extracted app].
  destruct (first_in_walk is_content (walk tmp t)) as [[content_file data]|].
  - unfold json_load_file. destruct (json_load E data) as [content_data|].
    + erewrite bind_ok by reflexivity.
      erewrite bind_ok by apply get_world_run.
      cbn [extracted set_extracted].
      destruct (lookup_entry _ _); reflexivity.
    + reflexivity.
  - erewrite bind_ok by apply print_run. reflexivity.
Qed.

(** C10: when the manifest entry is found but [json.load] refuses
    its text, the exception leaves [process_rmdoc_file] unhandled,
    after the extraction directory has been removed; in the loop of the
    main block it ends the run, whatever files remain. *)
Theorem invalid_manifest_propagates path t content_file data w :
  let tmp := temp_extract_dir_of E path in
  let w' := {| extracted := None; dirs := dirs w;
               trace := trace w ++
                 [Print (MsgStart path); ZipExtractall path tmp;
                  Print (MsgUnzipped tmp); Print (MsgCleaning tmp);
                  Rmtree tmp; Print MsgCleanupDone] |} in
  zip_extractall E path = (Some t, None) ->
  first_in_walk is_content (walk tmp t) = Some (content_file, data) ->
  json_load E data = None ->
  process_rmdoc_file E path w = (Raise ValueError, w')
  /\ forall rmapi_download abspath output file rest w0,
       rmdoc_path_of abspath output file = path ->
       rmapi_download file output w0 = (Ok tt, w) ->
       process_files E rmapi_download abspath output (file :: rest) w0
       = (Raise ValueError, w').
Proof.
  intros tmp w' Hzip Hfind Hjson.
  assert (Hrun : process_rmdoc_file E path w = (Raise ValueError, w')).
  { rewrite process_rmdoc_file_run. fold tmp.
    rewrite (classify_run _ _ _ t) by done. simpl.
    rewrite Hfind, Hjson. f_equal.
    apply world_eq; simpl; auto. by rewrite <- !app_assoc. }
  split; [done|].
  intros rmapi_download abspath output file rest w0 Hpath Hdl.
  unfold process_files. cbn [for_each].
  erewrite bind_raise; [reflexivity|].
  erewrite bind_ok by eassumption. by rewrite Hpath.
Qed.

(** C2, amended: when the manifest parses and the extraction directory
    itself holds a file named after the manifest with the extension
    [.pdf], that file is copied to the final path and no page is
    converted or merged, whatever the manifest lists. *)
Theorem embedded_document_copied path t content_file data content_data pdf w :
  let tmp := temp_extract_dir_of E path in
  let final := final_pdf_path_of path in
  let src := OsPath.join tmp (OsPath.stem content_file ++ ".pdf") in
  let ok := copyfile_ok E src final in
  let evs := [Print (MsgStart path); ZipExtractall path tmp;
              Print (MsgUnzipped tmp); Print (MsgFoundPdf src);
              Copyfile src final]
             ++ (if ok then [Print (MsgCopied src final)] else [])
             ++ [Print (MsgCleaning tmp); Rmtree tmp; Print MsgCleanupDone]
             ++ (if ok then [Print (MsgFinal final)] else []) in
  zip_extractall E path = (Some t, None) ->
  first_in_walk is_content (walk tmp t) = Some (content_file, data) ->
  json_load E data = Some content_data ->
  lookup_entry (OsPath.stem content_file ++ ".pdf") (Some t) = Some (File pdf) ->
  process_rmdoc_file E path w
  = (if ok then Ok tt else Raise OSError,
     {| extracted := None; dirs := dirs w; trace := trace w ++ evs |})
  /\ handled_as_embedded evs final.
Proof.
  intros tmp final src ok evs Hzip Hfind Hjson Hpdf.
  split.
  - rewrite process_rmdoc_file_run. fold tmp. fold final.
    rewrite (classify_run _ _ _ t) by done. cbn zeta.
    rewrite Hfind, Hjson, Hpdf. fold src.
    erewrite bind_ok by apply print_run.
    unfold shutil_copyfile. fold ok.
    destruct ok.
    + erewrite bind_ok.
      2:{ erewrite bind_ok by apply emit_run. reflexivity. }
      erewrite bind_ok by apply print_run.
      unfold ret. f_equal.
      apply world_eq; simpl; auto. by rewrite <- !app_assoc.
    + erewrite bind_raise.
      2:{ erewrite bind_ok by apply emit_run. reflexivity. }
      f_equal. apply world_eq; simpl; auto. by rewrite <- !app_assoc.
  - split.
    + exists src. subst evs. set_solver.
    + subst evs. destruct ok; repeat constructor.
Qed.

End PipelineFlow.

(** ** Page Reconstructor and Merger *)

Section PageReconstructor.
Variable E : env.

(** One round of the page loop on a text identifier, in every case. *)
Lemma convert_page_run tmp t pdf_pages id w :
  extracted w = Some t ->
  convert_page E tmp pdf_pages (PyStr id) w
  = match first_in_walk (is_rm_of id) (walk tmp t) with
    | Some (rm_file_path, _) =>
        let pdf_page_path := page_pdf_path tmp id in
        let argv := rmc_argv pdf_page_path rm_file_path in
        match subprocess_run E argv with
        | Completed =>
            (Ok (pdf_pages ++ [pdf_page_path]),
             log [Print (MsgConverting rm_file_path pdf_page_path);
                  SubprocessRun argv; Print MsgConvOk] w)
        | NonZeroExit =>
            (Ok (pdf_pages ++ [pdf_page_path]),
             log [Print (MsgConverting rm_file_path pdf_page_path);
                  SubprocessRun argv; Print MsgConvError] w)
        | LaunchFailed =>
            (Raise OSError,
             log [Print (MsgConverting rm_file_path pdf_page_path);
                  SubprocessRun argv] w)
        end
    | None => (Ok pdf_pages, log [Print (MsgWarnMissing (PyStr id))] w)
    end.
Proof.
  intros Hext. unfold convert_page.
  erewrite bind_ok by apply os_walk_run. rewrite Hext.
  destruct (first_in_walk (is_rm_of id) (walk tmp t)) as [[rm data]|]; [|reflexivity].
  cbn zeta.
  unfold try_except, attempt, subprocess_run_checked, print, emit, bind, ret, raise.
  destruct (subprocess_run E _); simpl; f_equal;
    apply world_eq; simpl; auto; by rewrite <- !app_assoc.
Qed.

(** The events of a successful append of every page, and the merger's
    pages after it. *)
Lemma merger_append_all pdf_list :
  forall merger w,
    (forall f, f ∈ pdf_list -> merger_append_ok E f = true) ->
    for_fold pdf_list (merger_append E) merger w
    = (Ok (merger ++ pdf_list), log (map MergerAppend pdf_list) w).
Proof.
  induction pdf_list as [|f rest IH]; intros merger w Hok.
  - simpl. by rewrite app_nil_r, log_nil.
  - cbn [for_fold map].
    erewrite bind_ok.
    2:{ unfold merger_append. erewrite bind_ok by apply emit_run.
        rewrite Hok by (by left). reflexivity. }
    rewrite IH by (intros; apply Hok; by right).
    by rewrite log_log, <- app_assoc.
Qed.

(** The Merger on pages that can all be read, and a destination that
    can be written: the document holds the pages in list order. *)
Lemma merge_pdfs_ok pdf_list output_path w :
  (forall f, f ∈ pdf_list -> merger_append_ok E f = true) ->
  merger_write_ok E output_path = true ->
  merge_pdfs E pdf_list output_path w
  = (Ok true,
     log (MergerNew :: map MergerAppend pdf_list
          ++ [MergerWrite output_path pdf_list; Print MsgMergeOk]) w).
Proof.
  intros Hread Hwrite. unfold merge_pdfs.
  erewrite try_except_ok; [reflexivity|].
  erewrite bind_ok by apply emit_run.
  erewrite bind_ok by (by apply merger_append_all).
  unfold merger_write. rewrite Hwrite.
  erewrite bind_ok by apply emit_run.
  erewrite bind_ok by apply print_run.
  unfold ret. rewrite !log_log. simpl. by rewrite <- ?app_assoc.
Qed.

(** An invocation of the Merger never raises, and shows in the trace
    as one [PdfMerger()] followed by the steps of the merge. *)
Lemma merge_pdfs_run pdf_list output_path w :
  exists b w' evs,
    merge_pdfs E pdf_list output_path w = (Ok b, w')
    /\ trace w' = trace w ++ MergerNew :: evs
    /\ Forall is_merge_step evs.
Proof.
  assert (Hbody : only_emits is_merge_step
            (merger <- for_fold pdf_list (merger_append E) [] ;;
             merger_write E merger output_path ;; print MsgMergeOk ;; ret true)).
  { apply only_emits_bind.
    - apply only_emits_for_fold. intros. unfold merger_append. emits.
    - intros merger. unfold merger_write, print. emits. }
  destruct (bind (for_fold pdf_list (merger_append E) [])
              (fun merger => merger_write E merger output_path ;;
                             print MsgMergeOk ;; ret true)
              (log [MergerNew] w)) as [r w1] eqn:Hrun.
  destruct (only_emits_run _ _ _ _ _ Hbody Hrun) as (evs & Htr & Hevs).
  simpl in Htr. rewrite <- app_assoc in Htr.
  assert (Hc : (emit MergerNew ;;
                merger <- for_fold pdf_list (merger_append E) [] ;;
                merger_write E merger output_path ;; print MsgMergeOk ;; ret true) w
               = (r, w1)).
  { erewrite bind_ok by apply emit_run. exact Hrun. }
  unfold merge_pdfs. destruct r as [b|e].
  - exists b, w1, evs. by rewrite (try_except_ok _ _ _ _ _ _ Hc).
  - exists false, (log [Print MsgMergeError] w1), (evs ++ [Print MsgMergeError]).
    rewrite (try_except_caught _ _ _ _ _ _ Hc eq_refl).
    erewrite bind_ok by apply print_run.
    split; [reflexivity|]. split.
    + simpl. rewrite Htr. by rewrite <- app_assoc.
    + apply Forall_app. split; [done | repeat constructor].
Qed.

Lemma merger_calls_app a b :
  merger_calls (a ++ b) = merger_calls a + merger_calls b.
Proof. unfold merger_calls. by rewrite omap_app, length_app. Qed.

Lemma merger_calls_page_events evs :
  Forall is_page_event evs -> merger_calls evs = 0.
Proof.
  induction 1 as [|ev evs Hev _ IH]; [reflexivity|].
  change (ev :: evs) with ([ev] ++ evs). rewrite merger_calls_app, IH.
  by destruct ev.
Qed.

Lemma merger_calls_merge_steps evs :
  Forall is_merge_step evs -> merger_calls evs = 0.
Proof.
  induction 1 as [|ev evs Hev _ IH]; [reflexivity|].
  change (ev :: evs) with ([ev] ++ evs). rewrite merger_calls_app, IH.
  by destruct ev.
Qed.

Lemma merged_documents_app a b :
  merged_documents (a ++ b) = merged_documents a ++ merged_documents b.
Proof. apply omap_app. Qed.

Lemma merged_documents_appends pdf_list :
  merged_documents (map MergerAppend pdf_list) = [].
Proof. induction pdf_list; [reflexivity | done]. Qed.

(** How the reconstruction goes on after the page loop.  It branches on
    the sequence [pdf_pages] as the loop leaves it, which holds the path
    of every page whose source was found, converted or not: if that
    sequence is empty the reconstruction reports that no page was
    produced and returns without any call on the Merger; otherwise what
    follows is one invocation of [merge_pdfs] on that sequence, the only
    one. *)
Lemma merger_invoked_iff_pages tmp final content_data page_ids pdf_pages w w1 :
  get_page_ids content_data = Ok page_ids ->
  for_fold page_ids (convert_page E tmp) []
           (log [Print (MsgPageIds page_ids)] w) = (Ok pdf_pages, w1) ->
  exists before,
    trace w1 = trace w ++ before /\ merger_calls before = 0
    /\ match pdf_pages with
       | [] =>
           reconstruct E tmp final content_data w
           = (Ok Return, log [Print MsgNoPages] w1)
       | _ :: _ =>
           exists merged w' after,
             merge_pdfs E pdf_pages final
               (log [Print (MsgJoining (length pdf_pages) final)] w1)
             = (Ok merged, w')
             /\ reconstruct E tmp final content_data w = (Ok Fallthrough, w')
             /\ trace w' = trace w1 ++ after
             /\ merger_calls after = 1
       end.
Proof.
  intros Hids Hloop.
  destruct (only_emits_run _ _ _ _ _ (page_loop_emits E tmp page_ids []) Hloop)
    as (evs & Htr & Hevs).
  exists (Print (MsgPageIds page_ids) :: evs). split; [|split].
  - rewrite Htr. simpl. by rewrite <- app_assoc.
  - change (Print (MsgPageIds page_ids) :: evs)
      with ([Print (MsgPageIds page_ids)] ++ evs).
    rewrite merger_calls_app, (merger_calls_page_events evs Hevs). reflexivity.
  - assert (Hstart : forall k : list string -> M flow,
              (page_ids' <- lift (get_page_ids content_data) ;;
               print (MsgPageIds page_ids') ;;
               pdf_pages' <- for_fold page_ids' (convert_page E tmp) [] ;;
               k pdf_pages') w = k pdf_pages w1).
    { intros k. erewrite bind_ok by (unfold lift; by rewrite Hids).
      erewrite bind_ok by apply print_run.
      by erewrite bind_ok by exact Hloop. }
    unfold reconstruct. rewrite Hstart.
    destruct pdf_pages as [|p pages].
    + by erewrite bind_ok by apply print_run.
    + destruct (merge_pdfs_run (p :: pages) final
                  (log [Print (MsgJoining (length (p :: pages)) final)] w1))
        as (b & w' & steps & Hmerge & Hsteps_tr & Hsteps).
      exists b, w', (Print (MsgJoining (length (p :: pages)) final) :: MergerNew :: steps).
      split; [exact Hmerge|]. split; [|split].
      * erewrite bind_ok by apply print_run.
        by erewrite bind_ok by exact Hmerge.
      * rewrite Hsteps_tr. simpl. by rewrite <- app_assoc.
      * change (Print (MsgJoining (length (p :: pages)) final) :: MergerNew :: steps)
          with ([Print (MsgJoining (length (p :: pages)) final); MergerNew] ++ steps).
        rewrite merger_calls_app, (merger_calls_merge_steps steps Hsteps). reflexivity.
Qed.

(** The page loop when every page has one source entry and every
    conversion succeeds: each page is converted from its own source
    entry, in the order of the identifiers. *)
Lemma page_loop_sources tmp t source page_ids :
  (forall id, id ∈ page_ids -> sole_source tmp t id (source id)) ->
  (forall id, id ∈ page_ids ->
     subprocess_run E (rmc_argv (page_pdf_path tmp id) (source id)) = Completed) ->
  forall pdf_pages w, extracted w = Some t ->
    for_fold (map PyStr page_ids) (convert_page E tmp) pdf_pages w
    = (Ok (pdf_pages ++ map (page_pdf_path tmp) page_ids),
       log (flat_map (page_events tmp source) page_ids) w).
Proof.
  induction page_ids as [|id ids IH]; intros Hsrc Hconv pdf_pages w Hext.
  - simpl. by rewrite app_nil_r, log_nil.
  - destruct (sole_source_found tmp t id (source id)) as (data & Hfind);
      [apply Hsrc; by left|].
    cbn [map for_fold flat_map].
    erewrite bind_ok.
    2:{ rewrite (convert_page_run _ t) by done. rewrite Hfind. cbn zeta.
        rewrite Hconv by (by left). reflexivity. }
    rewrite IH; [| intros; apply Hsrc; by right | intros; apply Hconv; by right | done].
    by rewrite log_log, <- !app_assoc.
Qed.

(** C3, amended: for a native notebook in which every identifier of the
    manifest has exactly one source page entry, [source id], and every
    page converts, the whole run is determined: the pages are converted
    in manifest order, each from its own source entry to its own page
    path, and the Merger is handed those page paths in manifest order
    and writes them as one document.  The tree is arbitrary, and the
    source entries are identified by where they are, not by when they
    are enumerated ([sole_source_reordered]): neither the place of the
    page files nor the order of enumeration matters. *)
Theorem page_order_follows_manifest
        path t content_file data content_data page_ids source w :
  let tmp := temp_extract_dir_of E path in
  let final := final_pdf_path_of path in
  let pages := map (page_pdf_path tmp) page_ids in
  zip_extractall E path = (Some t, None) ->
  first_in_walk is_content (walk tmp t) = Some (content_file, data) ->
  json_load E data = Some content_data ->
  lookup_entry (OsPath.stem content_file ++ ".pdf") (Some t) = None ->
  get_page_ids content_data = Ok (map PyStr page_ids) ->
  page_ids <> [] ->
  (forall id, id ∈ page_ids -> sole_source tmp t id (source id)) ->
  (forall id, id ∈ page_ids ->
     subprocess_run E (rmc_argv (page_pdf_path tmp id) (source id)) = Completed) ->
  (forall id, id ∈ page_ids -> merger_append_ok E (page_pdf_path tmp id) = true) ->
  merger_write_ok E final = true ->
  process_rmdoc_file E path w
  = (Ok tt,
     {| extracted := None; dirs := dirs w;
        trace := trace w ++
          [Print (MsgStart path);
           ZipExtractall path tmp;
           Print (MsgUnzipped tmp);
           Print (MsgPageIds (map PyStr page_ids))]
          ++ flat_map (page_events tmp source) page_ids
          ++ [Print (MsgJoining (length page_ids) final);
              MergerNew]
          ++ map MergerAppend pages
          ++ [MergerWrite final pages;
              Print MsgMergeOk;
              Print (MsgCleaning tmp);
              Rmtree tmp;
              Print MsgCleanupDone;
              Print (MsgFinal final)] |}).
Proof.
  intros tmp final pages Hzip Hfind Hjson Hpdf Hids Hne Hsrc Hconv Hread Hwrite.
  rewrite process_rmdoc_file_run. fold tmp. fold final.
  rewrite (classify_run _ _ _ _ t) by done. cbn zeta.
  rewrite Hfind, Hjson, Hpdf.
  set (w1 := set_extracted (Some t) _).
  pose proof (page_loop_sources tmp t source page_ids Hsrc Hconv []
                (log [Print (MsgPageIds (map PyStr page_ids))] w1) eq_refl)
    as Hloop.
  simpl app in Hloop. fold pages in Hloop.
  assert (Hpages_ne : exists p rest, pages = p :: rest).
  { subst pages. destruct page_ids; [done | simpl; eauto]. }
  assert (Hlen : length pages = length page_ids) by apply length_map.
  assert (Hrec : reconstruct E tmp final content_data w1
            = (Ok Fallthrough,
               log ([Print (MsgPageIds (map PyStr page_ids))]
                    ++ flat_map (page_events tmp source) page_ids
                    ++ [Print (MsgJoining (length page_ids) final)]
                    ++ (MergerNew :: map MergerAppend pages
                        ++ [MergerWrite final pages; Print MsgMergeOk])) w1)).
  { unfold reconstruct.
    erewrite bind_ok by (unfold lift; by rewrite Hids).
    erewrite bind_ok by apply print_run.
    erewrite bind_ok by exact Hloop.
    destruct Hpages_ne as (p & rest & Hp). rewrite Hp. rewrite <- Hp.
    erewrite bind_ok by apply print_run.
    erewrite bind_ok.
    2:{ apply merge_pdfs_ok; [|done].
        intros f Hf. subst pages. apply list_elem_of_fmap in Hf as (id & -> & Hid).
        by apply Hread. }
    unfold ret. by rewrite !log_log, Hlen. }
  rewrite (try_except_ok _ _ _ _ _ _ Hrec).
  f_equal. apply world_eq; [reflexivity | reflexivity |].
  subst w1. cbn [trace cleaned log set_extracted].
  rewrite <- !app_assoc. cbn [app]. rewrite <- !app_assoc. reflexivity.
Qed.


End PageReconstructor.

(** ** Tree Mirror *)

Section TreeMirrorFacts.
Variable E : env.

Lemma os_makedirs_run name w :
  os_makedirs E name true w
  = if decide (name ∈ dirs w) then (Ok tt, log [Makedirs name true] w)
    else if mkdir_ok E name
         then (Ok tt, add_dir name (log [Makedirs name true] w))
         else (Raise OSError, log [Makedirs name true] w).
Proof.
  unfold os_makedirs.
  erewrite bind_ok by apply emit_run.
  erewrite bind_ok by apply get_world_run.
  cbn [dirs log].
  destruct (decide (name ∈ dirs w)); [reflexivity|].
  destruct (mkdir_ok E name); reflexivity.
Qed.

(** One round of the loop, in every case: it never raises. *)
Lemma mirror_entry_run output_path directory w :
  let full_path := mirror_path output_path directory in
  mirror_entry E output_path directory w
  = if decide (full_path ∈ dirs w)
    then (Ok tt, log [Makedirs full_path true; Print (MsgDirOk full_path)] w)
    else if mkdir_ok E full_path
         then (Ok tt, add_dir full_path
                        (log [Makedirs full_path true; Print (MsgDirOk full_path)] w))
         else (Ok tt, log [Makedirs full_path true; Print (MsgErrDir full_path)] w).
Proof.
  intros full_path. unfold mirror_entry. fold full_path.
  unfold try_except, attempt, bind at 1 2.
  rewrite os_makedirs_run.
  destruct (decide (full_path ∈ dirs w)); [|destruct (mkdir_ok E full_path)];
    simpl; unfold print, emit, ret; simpl; f_equal;
    apply world_eq; simpl; auto; by rewrite <- app_assoc.
Qed.

(** The loop over the entries, from any world. *)
Lemma mirror_loop output_path dir_list :
  forall w, exists w' evs,
    for_each dir_list (mirror_entry E output_path) w = (Ok tt, w')
    /\ extracted w' = extracted w
    /\ trace w' = trace w ++ evs
    /\ Forall is_mirror_event evs
    /\ makedirs_calls evs
       = map (fun d => (mirror_path output_path d, true)) dir_list
    /\ dirs w ⊆ dirs w'
    /\ (forall x, x ∈ dirs w' -> x ∈ dirs w \/ mkdir_ok E x = true)
    /\ (forall d, d ∈ dir_list ->
          mirror_path output_path d ∈ dirs w
          \/ mkdir_ok E (mirror_path output_path d) = true ->
          mirror_path output_path d ∈ dirs w'
          /\ Print (MsgDirOk (mirror_path output_path d)) ∈ evs)
    /\ (forall full_path, Print (MsgErrDir full_path) ∈ evs ->
          (full_path ∉ dirs w) /\ mkdir_ok E full_path = false)
    /\ (forall d, d ∈ dir_list ->
          mirror_path output_path d ∉ dirs w ->
          mkdir_ok E (mirror_path output_path d) = false ->
          Print (MsgErrDir (mirror_path output_path d)) ∈ evs).
Proof.
  induction dir_list as [|d rest IH]; intros w.
  - exists w, []. simpl. rewrite app_nil_r.
    repeat split; try done; try set_solver.
  - set (full := mirror_path output_path d).
    pose proof (mirror_entry_run output_path d w) as Hrun. cbn zeta in Hrun.
    fold full in Hrun.
    assert (Hstep : exists w1 evs1,
               mirror_entry E output_path d w = (Ok tt, w1)
               /\ extracted w1 = extracted w
               /\ trace w1 = trace w ++ evs1
               /\ makedirs_calls evs1 = [(full, true)]
               /\ ((full ∈ dirs w \/ mkdir_ok E full = true)
                   /\ dirs w1 = {[full]} ∪ dirs w
                   /\ evs1 = [Makedirs full true; Print (MsgDirOk full)]
                   \/ ((full ∉ dirs w) /\ mkdir_ok E full = false)
                      /\ dirs w1 = dirs w
                      /\ evs1 = [Makedirs full true; Print (MsgErrDir full)])).
    { destruct (decide (full ∈ dirs w)) as [Hin|Hnin];
        [|destruct (mkdir_ok E full) eqn:Hok];
        eexists _, _; (split; [exact Hrun|]); simpl;
        repeat split; try reflexivity.
      - left. repeat split; [by left | set_solver].
      - left. repeat split; by right.
      - right. repeat split; done. }
    destruct Hstep as (w1 & evs1 & Hrun1 & Hext1 & Htr1 & Hcalls1 & Hcase).
    destruct (IH w1) as (w' & evs & Hloop & Hext & Htr & Hkind & Hcalls & Hsub
                         & Hnew & Hgood & Herr & Hbad).
    exists w', (evs1 ++ evs).
    cbn [for_each]. erewrite bind_ok by exact Hrun1.
    assert (Hcalls' : makedirs_calls (evs1 ++ evs)
              = map (fun d => (mirror_path output_path d, true)) (d :: rest)).
    { unfold makedirs_calls in *. rewrite omap_app, Hcalls1, Hcalls. reflexivity. }
    assert (Hdirs1 : dirs w ⊆ dirs w1 /\
                     forall x, x ∈ dirs w1 -> x ∈ dirs w \/ mkdir_ok E x = true).
    { destruct Hcase as [([Hin|Hok] & -> & _) | (_ & -> & _)]; set_solver. }
    destruct Hdirs1 as [Hsub1 Hnew1].
    split; [exact Hloop|]. split; [congruence|].
    split; [by rewrite Htr, Htr1, app_assoc|].
    split.
    { apply Forall_app. split; [|done].
      destruct Hcase as [(_ & _ & ->) | (_ & _ & ->)]; repeat constructor. }
    split; [exact Hcalls'|].
    split; [set_solver|].
    split; [intros x Hx; destruct (Hnew x Hx) as [Hx1|]; auto|].
    split; [|split].
    + intros d' Hd' Hcan. apply elem_of_cons in Hd' as [->|Hd'].
      * fold full in Hcan |- *.
        destruct Hcase as [(_ & Hd1 & ->) | ((Hnin & Hno) & _)].
        -- split; [apply Hsub; rewrite Hd1; set_solver | set_solver].
        -- destruct Hcan; [done | congruence].
      * destruct (Hgood d' Hd') as [Hin' Hmsg].
        { destruct Hcan as [Hin|Hok]; [left; by apply Hsub1 | by right]. }
        split; [done | set_solver].
    + intros full_path Hmsg. apply elem_of_app in Hmsg as [Hmsg|Hmsg].
      * destruct Hcase as [(_ & _ & ->) | (Hfail & _ & ->)].
        -- set_solver.
        -- assert (full_path = full) as -> by set_solver. exact Hfail.
      * destruct (Herr full_path Hmsg) as [Hnin Hno]. split; [set_solver | done].
    + intros d' Hd' Hnin Hno. apply elem_of_cons in Hd' as [->|Hd'].
      * fold full in Hnin, Hno |- *.
        destruct Hcase as [([Hin|Hok] & _) | (_ & _ & ->)];
          [done | congruence | set_solver].
      * apply elem_of_app. right. apply (Hbad d' Hd'); [|done].
        intros Hin1. destruct (Hnew1 _ Hin1); [done | congruence].
Qed.

Lemma ensure_directories_exist_run output_path dir_list w :
  let w0 := log [Print (MsgCheckingDirs output_path); Makedirs output_path true] w in
  ensure_directories_exist E output_path dir_list w
  = if decide (output_path ∈ dirs w)
    then for_each dir_list (mirror_entry E output_path) w0
    else if mkdir_ok E output_path
         then for_each dir_list (mirror_entry E output_path) (add_dir output_path w0)
         else (Ok tt, log [Print (MsgErrBasePath output_path)] w0).
Proof.
  intros w0. unfold ensure_directories_exist.
  erewrite bind_ok by apply print_run.
  unfold try_except at 1. unfold attempt at 1. unfold bind at 1 2 3.
  rewrite os_makedirs_run. cbn [dirs log].
  assert (Hw0 : log [Makedirs output_path true]
                  (log [Print (MsgCheckingDirs output_path)] w) = w0)
    by (by rewrite log_log).
  rewrite Hw0.
  destruct (decide (output_path ∈ dirs w)); [reflexivity|].
  destruct (mkdir_ok E output_path); reflexivity.
Qed.

Lemma not_base_error evs output_path :
  Forall is_mirror_event evs -> Print (MsgErrBasePath output_path) ∉ evs.
Proof.
  intros Hall Hin. rewrite Forall_forall in Hall. exact (Hall _ Hin).
Qed.

(** C8: the Tree Mirror never raises.  When the root cannot be
    created, nothing else is attempted and no directory is created.
    Otherwise every entry is attempted, in order and with [exist_ok],
    whatever happened to the entries before it: an entry that exists
    already or can be created exists afterwards and no error is
    reported for it; an entry that cannot be created is reported. *)
Theorem ensure_directories_exist_spec output_path dir_list w :
  let run := ensure_directories_exist E output_path dir_list w in
  let full := mirror_path output_path in
  fst run = Ok tt
  /\ (output_path ∉ dirs w -> mkdir_ok E output_path = false ->
      dirs (snd run) = dirs w
      /\ trace (snd run)
         = trace w ++ [Print (MsgCheckingDirs output_path);
                       Makedirs output_path true;
                       Print (MsgErrBasePath output_path)])
  /\ (output_path ∈ dirs w \/ mkdir_ok E output_path = true ->
      exists evs,
        trace (snd run)
        = trace w ++ Print (MsgCheckingDirs output_path)
                  :: Makedirs output_path true :: evs
        /\ Forall is_mirror_event evs
        /\ makedirs_calls evs = map (fun d => (full d, true)) dir_list
        /\ forall d, d ∈ dir_list ->
             (full d ∈ dirs w \/ mkdir_ok E (full d) = true ->
              full d ∈ dirs (snd run)
              /\ Print (MsgDirOk (full d)) ∈ evs
              /\ Print (MsgErrDir (full d)) ∉ evs)
             /\ ((full d ∉ dirs w) -> mkdir_ok E (full d) = false ->
                 Print (MsgErrDir (full d)) ∈ evs
                 /\ full d ∉ dirs (snd run))).
Proof.
  intros run full. subst run. rewrite ensure_directories_exist_run. cbn zeta.
  set (w0 := log [Print (MsgCheckingDirs output_path); Makedirs output_path true] w).
  assert (Hloop_facts : forall w1,
            trace w1 = trace w0 ->
            dirs w ⊆ dirs w1 ->
            (forall x, x ∈ dirs w1 -> x ∈ dirs w \/ mkdir_ok E x = true) ->
            let run := for_each dir_list (mirror_entry E output_path) w1 in
            fst run = Ok tt
            /\ exists evs,
                 trace (snd run)
                 = trace w ++ Print (MsgCheckingDirs output_path)
                           :: Makedirs output_path true :: evs
                 /\ Forall is_mirror_event evs
                 /\ makedirs_calls evs = map (fun d => (full d, true)) dir_list
                 /\ forall d, d ∈ dir_list ->
                      (full d ∈ dirs w \/ mkdir_ok E (full d) = true ->
                       full d ∈ dirs (snd run)
                       /\ Print (MsgDirOk (full d)) ∈ evs
                       /\ Print (MsgErrDir (full d)) ∉ evs)
                      /\ ((full d ∉ dirs w) -> mkdir_ok E (full d) = false ->
                          Print (MsgErrDir (full d)) ∈ evs
                          /\ full d ∉ dirs (snd run))).
  { intros w1 Htr1 Hsub1 Hnew1 run.
    destruct (mirror_loop output_path dir_list w1)
      as (w' & evs & Hloop & _ & Htr & Hkind & Hcalls & Hsub & Hnew & Hgood
          & Herr & Hbad).
    subst run. rewrite Hloop. cbn [fst snd]. split; [done|].
    exists evs. split; [rewrite Htr, Htr1; simpl; by rewrite <- app_assoc|].
    split; [done|]. split; [done|].
    intros d Hd. fold (full d) in *. split.
    - intros Hcan.
      assert (Hcan1 : full d ∈ dirs w1 \/ mkdir_ok E (full d) = true)
        by (destruct Hcan; [left; by apply Hsub1 | by right]).
      destruct (Hgood d Hd Hcan1) as [Hin Hmsg].
      repeat split; [done | done |].
      intros Herrmsg. destruct (Herr _ Herrmsg) as [Hnin Hno].
      destruct Hcan1; [done | congruence].
    - intros Hnin Hno.
      assert (Hnin1 : full d ∉ dirs w1).
      { intros Hin1. destruct (Hnew1 _ Hin1); [done | congruence]. }
      split; [by apply Hbad|].
      intros Hin'. destruct (Hnew _ Hin'); [done | congruence]. }
  destruct (decide (output_path ∈ dirs w)) as [Hin|Hnin];
    [|destruct (mkdir_ok E output_path) eqn:Hok].
  - destruct (Hloop_facts w0) as [Hr Hevs]; [done | done | by left |].
    split; [done|]. split; [done|]. intros _. exact Hevs.
  - destruct (Hloop_facts (add_dir output_path w0)) as [Hr Hevs];
      [done | simpl; set_solver | |].
    { intros x Hx. simpl in Hx. apply elem_of_union in Hx as [Hx|Hx].
      - apply elem_of_singleton in Hx as ->. by right.
      - by left. }
    split; [done|]. split; [intros _ [=]|]. intros _. exact Hevs.
  - split; [done|]. split.
    + intros _ _. split; [done|]. simpl. by rewrite <- app_assoc.
    + intros [Hin|[=]]. done.
Qed.

End TreeMirrorFacts.

(** ** Worked runs *)

Section WorkedRuns.

Example sample_paths :
  temp_extract_dir_of (sample_env notebook_tree rmc_works) sample_path = sample_tmp
  /\ final_pdf_path_of sample_path = "/out/q.pdf".
Proof. split; reflexivity. Qed.

(** A failed conversion appends its output path all the same: with a
    failure of the converter in hand, the round leaves the page
    sequence one path longer. *)
Lemma failed_conversion_keeps_path E tmp t pdf_pages id rm data w :
  extracted w = Some t ->
  first_in_walk (is_rm_of id) (walk tmp t) = Some (rm, data) ->
  subprocess_run E (rmc_argv (page_pdf_path tmp id) rm) = NonZeroExit ->
  fst (convert_page E tmp pdf_pages (PyStr id) w)
  = Ok (pdf_pages ++ [page_pdf_path tmp id]).
Proof.
  intros Hext Hfind Hfail.
  rewrite (convert_page_run E tmp t) by done. rewrite Hfind. cbn zeta.
  by rewrite Hfail.
Qed.

(** C1: the notebook with pages [c], [a], [b], where the converter
    fails on [a].  The other pages are still converted, but the path of
    the page that failed stays in the sequence: it is handed to the
    Merger and is part of the document written. *)
Theorem failed_page_reaches_merger :
  let E := sample_env notebook_tree (rmc_fails_on "/out/temp_extract_0001/a.pdf") in
  let run := process_rmdoc_file E sample_path initial_world in
  subprocess_run E (rmc_argv "/out/temp_extract_0001/a.pdf"
                             "/out/temp_extract_0001/x/a.rm") = NonZeroExit
  /\ fst (for_fold [PyStr "c"; PyStr "a"; PyStr "b"] (convert_page E sample_tmp) []
                   (set_extracted (Some notebook_tree) initial_world))
     = Ok ["/out/temp_extract_0001/c.pdf"; "/out/temp_extract_0001/a.pdf";
           "/out/temp_extract_0001/b.pdf"]
  /\ fst run = Ok tt
  /\ merger_inputs (trace (snd run))
     = ["/out/temp_extract_0001/c.pdf"; "/out/temp_extract_0001/a.pdf";
        "/out/temp_extract_0001/b.pdf"]
  /\ merged_documents (trace (snd run))
     = [("/out/q.pdf",
         ["/out/temp_extract_0001/c.pdf"; "/out/temp_extract_0001/a.pdf";
          "/out/temp_extract_0001/b.pdf"])].
Proof. vm_compute. repeat split. Qed.

(** C5: the notebook with pages [c], [a], [b], where the converter
    fails on every page.  No page is produced, so the sequence of
    renderable pages is empty; yet the message that no page was created
    is not printed, the run announces three pages and invokes the
    Merger, which fails on the first of them.  The cause is the one of
    C1: the path is appended before the conversion runs. *)
Theorem no_page_produced_still_merges :
  let E := no_pages_env notebook_tree in
  let run := process_rmdoc_file E sample_path initial_world in
  (forall argv, subprocess_run E argv = NonZeroExit)
  /\ run
     = (Ok tt,
        {| extracted := None; dirs := ∅;
           trace :=
             [Print (MsgStart sample_path);
              ZipExtractall sample_path sample_tmp;
              Print (MsgUnzipped sample_tmp);
              Print (MsgPageIds [PyStr "c"; PyStr "a"; PyStr "b"]);
              Print (MsgConverting "/out/temp_extract_0001/x/c.rm"
                                   "/out/temp_extract_0001/c.pdf");
              SubprocessRun (rmc_argv "/out/temp_extract_0001/c.pdf"
                                      "/out/temp_extract_0001/x/c.rm");
              Print MsgConvError;
              Print (MsgConverting "/out/temp_extract_0001/x/a.rm"
                                   "/out/temp_extract_0001/a.pdf");
              SubprocessRun (rmc_argv "/out/temp_extract_0001/a.pdf"
                                      "/out/temp_extract_0001/x/a.rm");
              Print MsgConvError;
              Print (MsgConverting "/out/temp_extract_0001/x/b.rm"
                                   "/out/temp_extract_0001/b.pdf");
              SubprocessRun (rmc_argv "/out/temp_extract_0001/b.pdf"
                                      "/out/temp_extract_0001/x/b.rm");
              Print MsgConvError;
              Print (MsgJoining 3 "/out/q.pdf");
              MergerNew;
              MergerAppend "/out/temp_extract_0001/c.pdf";
              Print MsgMergeError;
              Print (MsgCleaning sample_tmp);
              Rmtree sample_tmp;
              Print MsgCleanupDone;
              Print (MsgFinal "/out/q.pdf")] |})
  /\ merger_calls (trace (snd run)) = 1
  /\ fst (for_fold [PyStr "c"; PyStr "a"; PyStr "b"] (convert_page E sample_tmp) []
                   (set_extracted (Some notebook_tree) initial_world))
     = Ok ["/out/temp_extract_0001/c.pdf"; "/out/temp_extract_0001/a.pdf";
           "/out/temp_extract_0001/b.pdf"].
Proof. split; [reflexivity|]. repeat split; vm_compute; reflexivity. Qed.

(** C2, as stated: the rendered document [x.pdf] of the manifest
    [x.content] is in the tree, in the directory [export], yet the
    archive is not handled as an embedded document: its pages are
    converted and merged, and nothing is copied. *)
Lemma nested_pdf_counterexample :
  let E := sample_env nested_pdf_tree rmc_works in
  let run := process_rmdoc_file E sample_path initial_world in
  file_in nested_pdf_tree "x.pdf"
  /\ (fst <$> first_in_walk is_content (walk sample_tmp nested_pdf_tree))
     = Some "/out/temp_extract_0001/x.content"
  /\ (OsPath.stem "/out/temp_extract_0001/x.content" ++ ".pdf")%string = "x.pdf"
  /\ ~ handled_as_embedded (trace (snd run)) (final_pdf_path_of sample_path).
Proof.
  cbn zeta. split; [|split; [|split]].
  - eapply file_below with (sub := "export").
    + unfold nested_pdf_tree. apply list_elem_of_further, list_elem_of_further.
      apply list_elem_of_here.
    + eapply file_here. apply list_elem_of_here.
  - reflexivity.
  - reflexivity.
  - intros [[src Hcopy] _]. vm_compute in Hcopy.
    repeat (apply elem_of_cons in Hcopy as [Hcopy|Hcopy]; [discriminate|]).
    by apply not_elem_of_nil in Hcopy.
Qed.

Lemma has_page_computed top t id found :
  first_in_walk (is_rm_of id) (walk top t) = Some found -> has_page t id.
Proof.
  intros Hfind.
  destruct (first_in_walk_some _ _ _ Hfind) as (root & files & file & Hw & Hf & Hp & _).
  exists file. split; [|done]. eapply walk_file_in; eauto.
Qed.


(** The embedded document at the top of the tree is copied. *)
Lemma embedded_document_copied_witness :
  process_rmdoc_file (sample_env embedded_tree rmc_works) sample_path initial_world
  = (Ok tt,
     {| extracted := None; dirs := ∅;
        trace := [Print (MsgStart sample_path);
                  ZipExtractall sample_path sample_tmp;
                  Print (MsgUnzipped sample_tmp);
                  Print (MsgFoundPdf "/out/temp_extract_0001/x.pdf");
                  Copyfile "/out/temp_extract_0001/x.pdf" "/out/q.pdf";
                  Print (MsgCopied "/out/temp_extract_0001/x.pdf" "/out/q.pdf");
                  Print (MsgCleaning sample_tmp);
                  Rmtree sample_tmp;
                  Print MsgCleanupDone;
                  Print (MsgFinal "/out/q.pdf")] |}).
Proof.
  exact (proj1 (embedded_document_copied
                  (sample_env embedded_tree rmc_works) sample_path embedded_tree
                  "/out/temp_extract_0001/x.content" "c,a,b"
                  (notebook_manifest ["c"; "a"; "b"]) "%PDF" initial_world
                  eq_refl eq_refl eq_refl eq_refl)).
Defined.

(** C3, as stated: a manifest listing [a], [ab], with the page files
    [a.rm] and [ab.rm] both present and convertible.  The two trees are
    the same up to the order of enumeration.  When [a.rm] comes first
    each page is converted from its own file; when [ab.rm] comes first
    the page [a] is converted from [ab.rm], since that name begins with
    [a] too: the merged document then holds the page [ab] twice.  The
    page paths handed to the Merger are the same in both runs. *)
Lemma prefix_id_counterexample :
  let run t := process_rmdoc_file (sample_env t rmc_works) sample_path initial_world in
  reordered short_first_tree long_first_tree
  /\ (has_page short_first_tree "a" /\ has_page short_first_tree "ab")
  /\ (has_page long_first_tree "a" /\ has_page long_first_tree "ab")
  /\ fst (run short_first_tree) = Ok tt
  /\ fst (run long_first_tree) = Ok tt
  /\ conversions (trace (snd (run short_first_tree)))
     = [("/out/temp_extract_0001/x/a.rm", "/out/temp_extract_0001/a.pdf");
        ("/out/temp_extract_0001/x/ab.rm", "/out/temp_extract_0001/ab.pdf")]
  /\ conversions (trace (snd (run long_first_tree)))
     = [("/out/temp_extract_0001/x/ab.rm", "/out/temp_extract_0001/a.pdf");
        ("/out/temp_extract_0001/x/ab.rm", "/out/temp_extract_0001/ab.pdf")]
  /\ merged_documents (trace (snd (run short_first_tree)))
     = [("/out/q.pdf",
         ["/out/temp_extract_0001/a.pdf"; "/out/temp_extract_0001/ab.pdf"])]
  /\ merged_documents (trace (snd (run long_first_tree)))
     = merged_documents (trace (snd (run short_first_tree))).
Proof.
  cbn zeta. split; [|split; [|split]].
  - unfold short_first_tree, long_first_tree, prefix_tree.
    eapply reordered_dir; [|reflexivity].
    repeat constructor.
    eapply reordered_dir; [|apply Permutation_swap].
    repeat constructor.
  - split; eapply (has_page_computed sample_tmp); reflexivity.
  - split; eapply (has_page_computed sample_tmp); reflexivity.
  - repeat split; vm_compute; reflexivity.
Qed.

(** The notebook [c], [a], [b]: each page is converted from its own
    file and the pages are merged in manifest order. *)
Lemma page_order_follows_manifest_witness :
  process_rmdoc_file (sample_env notebook_tree rmc_works) sample_path initial_world
  = (Ok tt,
     {| extracted := None; dirs := ∅;
        trace :=
          [Print (MsgStart sample_path);
           ZipExtractall sample_path sample_tmp;
           Print (MsgUnzipped sample_tmp);
           Print (MsgPageIds [PyStr "c"; PyStr "a"; PyStr "b"]);
           Print (MsgConverting "/out/temp_extract_0001/x/c.rm"
                                "/out/temp_extract_0001/c.pdf");
           SubprocessRun (rmc_argv "/out/temp_extract_0001/c.pdf"
                                   "/out/temp_extract_0001/x/c.rm");
           Print MsgConvOk;
           Print (MsgConverting "/out/temp_extract_0001/x/a.rm"
                                "/out/temp_extract_0001/a.pdf");
           SubprocessRun (rmc_argv "/out/temp_extract_0001/a.pdf"
                                   "/out/temp_extract_0001/x/a.rm");
           Print MsgConvOk;
           Print (MsgConverting "/out/temp_extract_0001/x/b.rm"
                                "/out/temp_extract_0001/b.pdf");
           SubprocessRun (rmc_argv "/out/temp_extract_0001/b.pdf"
                                   "/out/temp_extract_0001/x/b.rm");
           Print MsgConvOk;
           Print (MsgJoining 3 "/out/q.pdf");
           MergerNew;
           MergerAppend "/out/temp_extract_0001/c.pdf";
           MergerAppend "/out/temp_extract_0001/a.pdf";
           MergerAppend "/out/temp_extract_0001/b.pdf";
           MergerWrite "/out/q.pdf"
             ["/out/temp_extract_0001/c.pdf"; "/out/temp_extract_0001/a.pdf";
              "/out/temp_extract_0001/b.pdf"];
           Print MsgMergeOk;
           Print (MsgCleaning sample_tmp);
           Rmtree sample_tmp;
           Print MsgCleanupDone;
           Print (MsgFinal "/out/q.pdf")] |}).
Proof.
  apply (page_order_follows_manifest
           (sample_env notebook_tree rmc_works) sample_path notebook_tree
           "/out/temp_extract_0001/x.content" "c,a,b"
           (notebook_manifest ["c"; "a"; "b"]) ["c"; "a"; "b"]
           (fun id => "/out/temp_extract_0001/x/" ++ id ++ ".rm")%string
           initial_world);
    try reflexivity.
  - discriminate.
  - intros id Hid.
    repeat (apply elem_of_cons in Hid as [->|Hid];
            [apply sole_source_located; reflexivity|]).
    by apply not_elem_of_nil in Hid.
Defined.


(** The page loop of the notebook [c], [a], [b] leaves three pages,
    and the Merger is invoked once. *)
Lemma merger_invoked_iff_pages_witness :
  let E := sample_env notebook_tree rmc_works in
  let w := set_extracted (Some notebook_tree) initial_world in
  let ids := [PyStr "c"; PyStr "a"; PyStr "b"] in
  let w1 := snd (for_fold ids (convert_page E sample_tmp) []
                          (log [Print (MsgPageIds ids)] w)) in
  exists before,
    trace w1 = trace w ++ before /\ merger_calls before = 0
    /\ exists merged w' after,
         merge_pdfs E ["/out/temp_extract_0001/c.pdf"; "/out/temp_extract_0001/a.pdf";
                       "/out/temp_extract_0001/b.pdf"] "/out/q.pdf"
                    (log [Print (MsgJoining 3 "/out/q.pdf")] w1)
         = (Ok merged, w')
         /\ reconstruct E sample_tmp "/out/q.pdf" (notebook_manifest ["c"; "a"; "b"]) w
            = (Ok Fallthrough, w')
         /\ trace w' = trace w1 ++ after
         /\ merger_calls after = 1.
Proof.
  intros E w ids w1.
  apply (merger_invoked_iff_pages E sample_tmp "/out/q.pdf"
           (notebook_manifest ["c"; "a"; "b"]) ids
           ["/out/temp_extract_0001/c.pdf"; "/out/temp_extract_0001/a.pdf";
            "/out/temp_extract_0001/b.pdf"] w w1).
  - reflexivity.
  - vm_compute. reflexivity.
Defined.

(** The archive whose manifest is not JSON. *)
Lemma invalid_manifest_propagates_witness :
  process_rmdoc_file (sample_env broken_manifest_tree rmc_works) sample_path
                     initial_world
  = (Raise ValueError,
     {| extracted := None; dirs := ∅;
        trace := [Print (MsgStart sample_path);
                  ZipExtractall sample_path sample_tmp;
                  Print (MsgUnzipped sample_tmp);
                  Print (MsgCleaning sample_tmp);
                  Rmtree sample_tmp;
                  Print MsgCleanupDone] |}).
Proof.
  exact (proj1 (invalid_manifest_propagates
                  (sample_env broken_manifest_tree rmc_works) sample_path
                  broken_manifest_tree "/out/temp_extract_0001/x.content"
                  "not json" initial_world eq_refl eq_refl eq_refl)).
Defined.

(** The Tree Mirror where [/out/Locked] cannot be created: the failure is
    reported and the entry after it is created all the same. *)
Lemma ensure_directories_exist_spec_witness :
  let run := ensure_directories_exist locked_env "/out"
               ["/Notes"; "/Locked"; "/Notes/Sub"] initial_world in
  exists evs,
    trace (snd run)
    = Print (MsgCheckingDirs "/out") :: Makedirs "/out" true :: evs
    /\ Print (MsgErrDir "/out/Locked") ∈ evs
    /\ ("/out/Locked" ∉ dirs (snd run))
    /\ "/out/Notes/Sub" ∈ dirs (snd run).
Proof.
  intros run.
  destruct (proj2 (proj2 (ensure_directories_exist_spec locked_env "/out"
                            ["/Notes"; "/Locked"; "/Notes/Sub"] initial_world))
                  (or_intror eq_refl))
    as (evs & Htr & _ & _ & Hentries).
  exists evs. split; [exact Htr|].
  destruct (Hentries "/Locked") as [_ Hlocked].
  { apply list_elem_of_further, list_elem_of_here. }
  destruct (Hentries "/Notes/Sub") as [Hsub _].
  { apply list_elem_of_further, list_elem_of_further, list_elem_of_here. }
  destruct (Hlocked (not_elem_of_empty _) eq_refl) as [Hmsg Hnot].
  destruct (Hsub (or_intror eq_refl)) as (Hin & _ & _).
  repeat split; assumption.
Defined.

End WorkedRuns.


(** * Further properties *)

(** ** Text *)

Section TextFacts.

Lemma append_cons (c : ascii) (a b : string) :
  (String c a ++ b)%string = String c (a ++ b).
Proof. reflexivity. Qed.

Lemma append_nil_l (b : string) : ("" ++ b)%string = b.
Proof. reflexivity. Qed.

Lemma append_assoc (a b c : string) :
  ((a ++ b) ++ c)%string = (a ++ (b ++ c))%string.
Proof.
  induction a as [|x a IH]; [reflexivity|].
  by rewrite !append_cons, IH.
Qed.

Lemma append_nil_r (a : string) : (a ++ "")%string = a.
Proof. induction a as [|x a IH]; [reflexivity|]. by rewrite append_cons, IH. Qed.

Lemma has_char_append c (a b : string) :
  has_char c (a ++ b) = has_char c a || has_char c b.
Proof.
  induction a as [|x a IH]; [reflexivity|].
  rewrite append_cons. cbn [has_char]. by rewrite IH, orb_assoc.
Qed.

Lemma startswith_append (p s : string) : PyStr.startswith (p ++ s) p = true.
Proof.
  induction p as [|a p IH]; [by destruct s|].
  rewrite append_cons. cbn [PyStr.startswith]. by rewrite Ascii.eqb_refl, IH.
Qed.

(** Stripping on the right leaves a text that ends visibly as it is. *)
Lemma rstrip_visible p (q : string) c :
  p c = false -> PyStr.rstrip_by p (q ++ String c "") = (q ++ String c "")%string.
Proof.
  intros Hc. induction q as [|x q IH].
  - rewrite append_nil_l. cbn. by rewrite Hc.
  - rewrite !append_cons. cbn [PyStr.rstrip_by]. rewrite IH.
    by destruct q.
Qed.

(** Whitespace at the very end is dropped. *)
Lemma rstrip_append_space p (s : string) c :
  p c = true -> PyStr.rstrip_by p (s ++ String c "") = PyStr.rstrip_by p s.
Proof.
  intros Hc. induction s as [|x s IH].
  - rewrite append_nil_l. cbn. by rewrite Hc.
  - rewrite append_cons. cbn [PyStr.rstrip_by]. by rewrite IH.
Qed.

Lemma strip_append_space (s : string) c :
  PyStr.isspace c = true -> PyStr.strip (s ++ String c "") = PyStr.strip s.
Proof.
  intros Hc. unfold PyStr.strip. induction s as [|x s IH].
  - rewrite append_nil_l. cbn. by rewrite Hc.
  - rewrite append_cons. cbn [PyStr.lstrip_by].
    destruct (PyStr.isspace x); [exact IH|].
    rewrite <- append_cons. by apply rstrip_append_space.
Qed.

(** [split] on a text without separator, and across a separator. *)
Lemma split_no_sep sep (a : string) :
  has_char sep a = false -> PyStr.split sep a = [a].
Proof.
  induction a as [|x a IH]; [reflexivity|].
  cbn [has_char PyStr.split]. intros [Hx Ha]%orb_false_elim.
  by rewrite Hx, IH.
Qed.

Lemma split_append sep (a b : string) :
  has_char sep a = false ->
  PyStr.split sep (a ++ String sep b) = a :: PyStr.split sep b.
Proof.
  induction a as [|x a IH]; intros Ha.
  - rewrite append_nil_l. cbn [PyStr.split]. by rewrite Ascii.eqb_refl.
  - cbn [has_char] in Ha. apply orb_false_elim in Ha as [Hx Ha].
    rewrite append_cons. cbn [PyStr.split]. by rewrite Hx, IH.
Qed.

Lemma split_join_lines (lines : list string) :
  lines <> [] ->
  Forall (fun line => has_char LF line = false) lines ->
  PyStr.split LF (join_lines lines) = lines.
Proof.
  intros Hne Hall. induction Hall as [|line rest Hline Hrest IH]; [done|].
  destruct rest as [|next rest].
  - cbn [join_lines]. by apply split_no_sep.
  - change (join_lines (line :: next :: rest))
      with (line ++ String LF (join_lines (next :: rest)))%string.
    rewrite split_append by done. by rewrite IH.
Qed.

(** No line that [split] gives holds the separator. *)
Lemma split_lines_free sep (s : string) :
  Forall (fun line => has_char sep line = false) (PyStr.split sep s).
Proof.
  induction s as [|x s IH]; [by repeat constructor|].
  cbn [PyStr.split]. destruct (Ascii.eqb x sep) eqn:Hx.
  - by constructor.
  - destruct (PyStr.split sep s) as [|h t]; [by repeat constructor; cbn; rewrite Hx|].
    inversion IH; subst. constructor; [|done]. cbn. by rewrite Hx.
Qed.

Lemma has_char_slice_from c n (s : string) :
  has_char c s = false -> has_char c (PyStr.slice_from n s) = false.
Proof.
  revert s. induction n as [|n IH]; intros s Hs; [by destruct s|].
  destruct s as [|x s]; [done|]. cbn [PyStr.slice_from].
  apply IH. cbn [has_char] in Hs. by apply orb_false_elim in Hs as [_ ?].
Qed.

End TextFacts.

(** ** Listing Parser, further *)

Section ListingParserFurther.

Lemma join_lines_last (lines : list string) x :
  last lines = Some x -> exists y, join_lines lines = (y ++ x)%string.
Proof.
  induction lines as [|line rest IH]; [discriminate|].
  destruct rest as [|next rest].
  - intros [= ->]. by exists "".
  - intros Hlast. destruct (IH Hlast) as [y Hy].
    exists (line ++ String LF y)%string.
    change (join_lines (line :: next :: rest))
      with (line ++ String LF (join_lines (next :: rest)))%string.
    by rewrite Hy, append_assoc, append_cons.
Qed.

Lemma join_lines_head line rest :
  exists tail, join_lines (line :: rest) = (line ++ tail)%string.
Proof.
  destruct rest as [|next rest].
  - exists "". by rewrite append_nil_r.
  - by eexists.
Qed.

Lemma ends_visibly_append (a b : string) : ends_visibly b -> ends_visibly (a ++ b).
Proof.
  intros (q & c & -> & Hc). exists (a ++ q)%string, c.
  by rewrite append_assoc.
Qed.

Lemma tagged_single tag line :
  tagged tag [line]
  = if PyStr.startswith line tag then [PyStr.slice_from 4 line] else [].
Proof. unfold tagged. simpl. by destruct (PyStr.startswith line tag). Qed.

Lemma tagged_own_tag tag (paths : list string) :
  String.length tag = 4 ->
  tagged tag (map (fun p => tag ++ p)%string paths) = paths.
Proof.
  intros Hlen. induction paths as [|p paths IH]; [reflexivity|].
  cbn [map]. rewrite tagged_cons, IH, tagged_single, startswith_append.
  by rewrite <- Hlen, slice_from_append.
Qed.

Lemma tagged_other_tag tag other (paths : list string) :
  (forall p, PyStr.startswith (other ++ p) tag = false) ->
  tagged tag (map (fun p => other ++ p)%string paths) = [].
Proof.
  intros Hother. induction paths as [|p paths IH]; [reflexivity|].
  cbn [map]. by rewrite tagged_cons, IH, tagged_single, Hother.
Qed.

Lemma tagged_app tag (a b : list string) :
  tagged tag (a ++ b) = tagged tag a ++ tagged tag b.
Proof. apply omap_app. Qed.

(** X1: the parser reads back a listing written from two sequences of
    paths, one tagged line per path, provided that no path holds a line
    feed and that the last path written ends in a character that is not
    whitespace (the parser strips the text as a whole). *)
Theorem parse_render_round_trip (directories files : list string) :
  Forall (fun p => has_char LF p = false) (directories ++ files) ->
  (forall p, last (directories ++ files) = Some p -> ends_visibly p) ->
  parse_rmapi_find (render_listing directories files) = (directories, files).
Proof.
  intros Hfree Hlast.
  set (lines := map (fun d => "[d] " ++ d)%string directories
                ++ map (fun f => "[f] " ++ f)%string files).
  assert (Htag : tagged "[d] " lines = directories /\ tagged "[f] " lines = files).
  { subst lines. rewrite !tagged_app.
    rewrite (tagged_own_tag "[d] "), (tagged_own_tag "[f] ") by reflexivity.
    rewrite (tagged_other_tag "[d] " "[f] "), (tagged_other_tag "[f] " "[d] ")
      by reflexivity.
    by rewrite app_nil_r. }
  destruct Htag as [Hd Hf].
  unfold parse_rmapi_find, render_listing. fold lines.
  destruct lines as [|first rest] eqn:Hlines.
  { rewrite <- Hd, <- Hf. reflexivity. }
  rewrite <- Hlines in *.
  assert (Hlines_free : Forall (fun line => has_char LF line = false) lines).
  { subst lines. apply Forall_app in Hfree as [Hdirs Hfiles].
    apply Forall_app. split; apply Forall_fmap;
      (eapply Forall_impl; [eassumption|]);
      intros p Hp; cbn; by rewrite has_char_append, Hp. }
  assert (Hlast_line : exists x, last lines = Some x /\ ends_visibly x).
  { subst lines. rewrite last_app, !fmap_last.
    pose proof (last_app directories files) as Hla.
    destruct (last files) as [f|] eqn:Hlf.
    - eexists. split; [reflexivity|]. apply ends_visibly_append, Hlast. by rewrite Hla.
    - destruct (last directories) as [d|] eqn:Hld.
      + eexists. split; [reflexivity|]. apply ends_visibly_append, Hlast. by rewrite Hla.
      + apply last_None in Hlf, Hld. subst. discriminate. }
  assert (Hfirst : exists c tail, join_lines lines = String c tail
                                  /\ PyStr.isspace c = false).
  { rewrite Hlines. destruct (join_lines_head first rest) as [tail ->].
    assert (Hin : first ∈ lines) by (rewrite Hlines; by left).
    subst lines. apply elem_of_app in Hin as [Hin|Hin];
      apply list_elem_of_fmap in Hin as (p & -> & _);
      rewrite append_assoc; by eexists _, _. }
  assert (Hstrip : PyStr.strip (join_lines lines) = join_lines lines).
  { unfold PyStr.strip.
    destruct Hfirst as (c & tail & Hjoin & Hc).
    assert (Hl : PyStr.lstrip_by PyStr.isspace (join_lines lines) = join_lines lines).
    { rewrite Hjoin. cbn [PyStr.lstrip_by]. by rewrite Hc. }
    rewrite Hl.
    destruct Hlast_line as (x & Hx & q & e & -> & He).
    destruct (join_lines_last _ _ Hx) as [y ->].
    rewrite <- append_assoc. by apply rstrip_visible. }
  rewrite Hstrip, split_join_lines, parse_loop_spec by (done || by rewrite Hlines).
  by rewrite Hd, Hf.
Qed.

(** X2: no path that the parser returns holds a line feed. *)
Theorem parse_paths_single_line (rmapi_find_output : string) :
  Forall (fun p => has_char LF p = false) (fst (parse_rmapi_find rmapi_find_output))
  /\ Forall (fun p => has_char LF p = false) (snd (parse_rmapi_find rmapi_find_output)).
Proof.
  unfold parse_rmapi_find. rewrite parse_loop_spec. cbn [fst snd app].
  pose proof (split_lines_free LF (PyStr.strip rmapi_find_output)) as Hfree.
  rewrite Forall_forall in Hfree.
  split; apply Forall_forall; intros p Hp; unfold tagged in Hp;
    apply list_elem_of_omap in Hp as (line & Hline & Hp);
    pose proof (has_char_slice_from LF 4 line (Hfree _ Hline)) as Hs;
    destruct (PyStr.startswith line _); try discriminate;
    injection Hp as <-; exact Hs.
Qed.

(** X3: whitespace after the listing, such as the line feed that ends
    the output of a command, changes nothing. *)
Theorem parse_ignores_trailing_space (rmapi_find_output : string) (c : ascii) :
  PyStr.isspace c = true ->
  parse_rmapi_find (rmapi_find_output ++ String c "")
  = parse_rmapi_find rmapi_find_output.
Proof.
  intros Hc. unfold parse_rmapi_find. by rewrite strip_append_space.
Qed.

Lemma parse_render_round_trip_witness :
  parse_rmapi_find (render_listing ["/Notes"; "/Notes/Old "] ["/Notes/Quarterly"])
  = (["/Notes"; "/Notes/Old "], ["/Notes/Quarterly"]).
Proof.
  apply parse_render_round_trip.
  - repeat constructor.
  - intros p [= <-]. by exists "/Notes/Quarterl", "y"%char.
Defined.

Lemma parse_ignores_trailing_space_witness :
  parse_rmapi_find (quarterly_listing ++ String LF "")
  = parse_rmapi_find quarterly_listing.
Proof. apply parse_ignores_trailing_space. reflexivity. Defined.

End ListingParserFurther.

(** ** Tree Mirror, further *)

Section TreeMirrorFurther.
Variable E : env.

Lemma lstrip_slash_head (directory : string) :
  PyStr.startswith (PyStr.lstrip_slash directory) "/" = false.
Proof.
  unfold PyStr.lstrip_slash.
  induction directory as [|c r IH]; [reflexivity|].
  cbn [PyStr.lstrip_by]. unfold PyStr.is_char at 1.
  destruct (Ascii.eqb c "/") eqn:Hc; [exact IH|].
  cbn [PyStr.startswith]. by rewrite Hc.
Qed.

Lemma join_under (a b : string) :
  PyStr.startswith b "/" = false -> PyStr.startswith (OsPath.join a b) a = true.
Proof.
  intros Hb. unfold OsPath.join. rewrite Hb.
  destruct (PyStr.is_empty a || PyStr.endswith a "/"); apply startswith_append.
Qed.

(** X4: the leading slashes of a remote path never make [os.path.join]
    discard the output root: the directory path built for it and the
    archive path derived from it both begin, as strings, with the root.
    This is a statement about the text of the path only: [..] segments
    are kept as they are (see [mirror_path_keeps_dotdot]), so the
    directory the path resolves to may lie outside the root. *)
Theorem mirrored_paths_keep_root_prefix (abspath : string -> string)
        (output_path remote : string) :
  PyStr.startswith (mirror_path output_path remote) output_path = true
  /\ PyStr.startswith (rmdoc_path_of abspath output_path remote)
                      (abspath output_path) = true.
Proof.
  split.
  - apply join_under, lstrip_slash_head.
  - unfold rmdoc_path_of, OsPath.join. rewrite lstrip_slash_head.
    destruct (PyStr.is_empty _ || PyStr.endswith _ "/");
      rewrite !append_assoc; apply startswith_append.
Qed.

(** Segments of the remote path are not normalised. *)
Lemma mirror_path_keeps_dotdot :
  mirror_path "/out/root" "/../escaped" = "/out/root/../escaped".
Proof. reflexivity. Qed.

Lemma mirror_errors_app a b :
  mirror_errors (a ++ b) = mirror_errors a ++ mirror_errors b.
Proof. apply omap_app. Qed.

(** The loop in closed form: the directories it leaves and the errors it
    reports. *)
Lemma mirror_loop_exact output_path dir_list :
  forall w, exists w' evs,
    for_each dir_list (mirror_entry E output_path) w = (Ok tt, w')
    /\ trace w' = trace w ++ evs
    /\ dirs w'
       = dirs w ∪ list_to_set (filter (fun p => mkdir_ok E p = true)
                                      (mirror_path output_path <$> dir_list))
    /\ mirror_errors evs
       = filter (fun p => (p ∉ dirs w) /\ mkdir_ok E p = false)
                (mirror_path output_path <$> dir_list).
Proof.
  induction dir_list as [|d rest IH]; intros w.
  - exists w, []. cbn. rewrite app_nil_r. repeat split. set_solver.
  - set (full := mirror_path output_path d).
    pose proof (mirror_entry_run E output_path d w) as Hrun. cbn zeta in Hrun.
    fold full in Hrun.
    cbn [for_each fmap list_fmap]. fold full.
    destruct (decide (full ∈ dirs w)) as [Hin|Hnin];
      [|destruct (mkdir_ok E full) eqn:Hok].
    + destruct (IH (log [Makedirs full true; Print (MsgDirOk full)] w))
        as (w' & evs & Hloop & Htr & Hdirs & Herr).
      exists w', ([Makedirs full true; Print (MsgDirOk full)] ++ evs).
      erewrite bind_ok by exact Hrun.
      split; [exact Hloop|]. split; [by rewrite Htr; cbn; rewrite <- app_assoc|].
      split.
      * rewrite Hdirs. cbn [dirs log]. rewrite filter_cons.
        destruct (decide (mkdir_ok E full = true)); set_solver.
      * rewrite mirror_errors_app, Herr. cbn [dirs log].
        rewrite filter_cons. rewrite decide_False by tauto. reflexivity.
    + destruct (IH (add_dir full (log [Makedirs full true; Print (MsgDirOk full)] w)))
        as (w' & evs & Hloop & Htr & Hdirs & Herr).
      exists w', ([Makedirs full true; Print (MsgDirOk full)] ++ evs).
      erewrite bind_ok by exact Hrun.
      split; [exact Hloop|]. split; [by rewrite Htr; cbn; rewrite <- app_assoc|].
      split.
      * rewrite Hdirs. cbn [dirs log add_dir]. rewrite filter_cons.
        rewrite decide_True by done. set_solver.
      * rewrite mirror_errors_app, Herr. cbn [dirs log add_dir].
        rewrite filter_cons. rewrite decide_False by (intros [_ ?]; congruence).
        cbn [mirror_errors omap app]. apply list_filter_iff. intros p. split.
        -- intros [Hp Hno]. split; [set_solver | done].
        -- intros [Hp Hno]. split; [|done].
           intros [->%elem_of_singleton|?]%elem_of_union; [congruence | done].
    + destruct (IH (log [Makedirs full true; Print (MsgErrDir full)] w))
        as (w' & evs & Hloop & Htr & Hdirs & Herr).
      exists w', ([Makedirs full true; Print (MsgErrDir full)] ++ evs).
      erewrite bind_ok by exact Hrun.
      split; [exact Hloop|]. split; [by rewrite Htr; cbn; rewrite <- app_assoc|].
      split.
      * rewrite Hdirs. cbn [dirs log]. rewrite filter_cons.
        rewrite decide_False by congruence. reflexivity.
      * rewrite mirror_errors_app, Herr. cbn [dirs log].
        rewrite filter_cons. rewrite decide_True by done. reflexivity.
Qed.

(** The whole function in closed form. *)
Lemma ensure_directories_exist_exact output_path dir_list w :
  let run := ensure_directories_exist E output_path dir_list w in
  let paths := mirror_path output_path <$> dir_list in
  let created : gset string :=
    list_to_set (filter (fun p => mkdir_ok E p = true) paths) in
  exists evs,
    trace (snd run) = trace w ++ evs
    /\ (dirs (snd run), mirror_errors evs)
       = if decide (output_path ∈ dirs w)
         then (dirs w ∪ created,
               filter (fun p => (p ∉ dirs w) /\ mkdir_ok E p = false) paths)
         else if mkdir_ok E output_path
              then ({[output_path]} ∪ dirs w ∪ created,
                    filter (fun p => (p ∉ dirs w) /\ mkdir_ok E p = false) paths)
              else (dirs w, [output_path]).
Proof.
  intros run paths created. subst run.
  rewrite ensure_directories_exist_run. cbn zeta.
  set (w0 := log [Print (MsgCheckingDirs output_path); Makedirs output_path true] w).
  destruct (decide (output_path ∈ dirs w)) as [Hin|Hnin];
    [|destruct (mkdir_ok E output_path) eqn:Hok].
  - destruct (mirror_loop_exact output_path dir_list w0)
      as (w' & evs & -> & Htr & Hdirs & Herr).
    exists ([Print (MsgCheckingDirs output_path); Makedirs output_path true] ++ evs).
    cbn [snd]. split; [by rewrite Htr; cbn; rewrite <- app_assoc|].
    rewrite Hdirs, mirror_errors_app, Herr. reflexivity.
  - destruct (mirror_loop_exact output_path dir_list (add_dir output_path w0))
      as (w' & evs & -> & Htr & Hdirs & Herr).
    exists ([Print (MsgCheckingDirs output_path); Makedirs output_path true] ++ evs).
    cbn [snd]. split; [by rewrite Htr; cbn; rewrite <- app_assoc|].
    rewrite Hdirs, mirror_errors_app, Herr. cbn [dirs add_dir log w0].
    f_equal. cbn [mirror_errors omap app]. apply list_filter_iff. intros p. split.
    + intros [Hp Hno]. split; [set_solver | done].
    + intros [Hp Hno]. split; [|done].
      intros [->%elem_of_singleton|?]%elem_of_union; [congruence | done].
  - exists [Print (MsgCheckingDirs output_path); Makedirs output_path true;
            Print (MsgErrBasePath output_path)].
    cbn [snd]. split; [by cbn; rewrite <- app_assoc|]. reflexivity.
Qed.

(** X6: the Tree Mirror is idempotent.  Run again on the world it left,
    it changes no directory and reports the same errors, in particular
    none if the first run reported none. *)
Theorem ensure_directories_exist_idempotent output_path dir_list w :
  let run1 := ensure_directories_exist E output_path dir_list w in
  let run2 := ensure_directories_exist E output_path dir_list (snd run1) in
  dirs (snd run2) = dirs (snd run1)
  /\ exists evs1 evs2,
       trace (snd run1) = trace w ++ evs1
       /\ trace (snd run2) = trace (snd run1) ++ evs2
       /\ mirror_errors evs2 = mirror_errors evs1.
Proof.
  intros run1 run2.
  destruct (ensure_directories_exist_exact output_path dir_list w)
    as (evs1 & Htr1 & Heq1).
  destruct (ensure_directories_exist_exact output_path dir_list (snd run1))
    as (evs2 & Htr2 & Heq2).
  fold run1 in Htr1, Heq1. fold run2 in Htr2, Heq2. cbn zeta in Heq1, Heq2.
  set (paths := mirror_path output_path <$> dir_list) in *.
  set (created := list_to_set (filter (fun p => mkdir_ok E p = true) paths) : gset string)
    in *.
  assert (Hcreated : forall p, p ∈ created -> mkdir_ok E p = true).
  { intros p Hp. subst created. apply elem_of_list_to_set in Hp.
    by apply list_elem_of_filter in Hp as [? _]. }
  assert (Hsame : forall known : gset string,
             dirs (snd run1) = known ∪ created ->
             (forall p, p ∈ known -> p ∈ dirs w \/ mkdir_ok E p = true) ->
             dirs w ⊆ known -> output_path ∈ known ->
             dirs (snd run2) = dirs (snd run1)
             /\ mirror_errors evs2
                = filter (fun p => (p ∉ dirs w) /\ mkdir_ok E p = false) paths).
  { intros known Hd1 Hknown Hsub Hroot.
    rewrite decide_True in Heq2 by (rewrite Hd1; set_solver).
    injection Heq2 as -> ->. split; [set_solver|].
    apply list_filter_iff. intros p. rewrite Hd1. split.
    - intros [Hp Hno]. split; [set_solver | done].
    - intros [Hp Hno]. split; [|done].
      intros [Hk|Hc]%elem_of_union.
      + destruct (Hknown p Hk); [done | congruence].
      + apply Hcreated in Hc. congruence. }
  destruct (decide (output_path ∈ dirs w)) as [Hin|Hnin];
    [|destruct (mkdir_ok E output_path) eqn:Hok].
  - injection Heq1 as Hd1 He1.
    destruct (Hsame (dirs w)) as [Hd2 He2]; [done | by left | done | done |].
    split; [done|]. exists evs1, evs2. by rewrite He1, He2.
  - injection Heq1 as Hd1 He1.
    destruct (Hsame ({[output_path]} ∪ dirs w)) as [Hd2 He2];
      [done | | set_solver | set_solver |].
    { intros p [->%elem_of_singleton|?]%elem_of_union; [by right | by left]. }
    split; [done|]. exists evs1, evs2. by rewrite He1, He2.
  - injection Heq1 as Hd1 He1.
    destruct (decide (output_path ∈ dirs (snd run1))) as [Hin2|_];
      [rewrite Hd1 in Hin2; done|].
    injection Heq2 as Hd2 He2.
    split; [congruence|]. exists evs1, evs2. by rewrite He1, He2.
Qed.

End TreeMirrorFurther.

(** ** Merger, further *)

Section MergerFurther.
Variable E : env.

Lemma merger_append_loop pdf_list :
  forall merger w,
    for_fold pdf_list (merger_append E) merger w
    = (if forallb (merger_append_ok E) pdf_list
       then Ok (merger ++ pdf_list) else Raise OSError,
       log (map MergerAppend (attempted (merger_append_ok E) pdf_list)) w).
Proof.
  induction pdf_list as [|f rest IH]; intros merger w.
  - cbn. by rewrite app_nil_r, log_nil.
  - cbn [for_fold forallb attempted map]. unfold merger_append at 1.
    destruct (merger_append_ok E f) eqn:Hf.
    + erewrite bind_ok.
      2:{ erewrite bind_ok by apply emit_run. reflexivity. }
      rewrite IH, log_log. cbn [andb app]. by rewrite <- app_assoc.
    + erewrite bind_raise; [reflexivity|].
      erewrite bind_ok by apply emit_run. reflexivity.
Qed.

Lemma merger_inputs_appends l : merger_inputs (map MergerAppend l) = l.
Proof. induction l as [|f l IH]; [reflexivity|]. cbn. by rewrite <- IH at 2. Qed.

(** X7: the Merger never raises.  It answers [True] exactly when every
    page can be read and the destination can be written, and only then
    is a document written, holding the pages in list order; it asks for
    the pages in order and stops at the first it cannot read. *)
Theorem merge_pdfs_outcome pdf_list output_path w :
  let all_ok := forallb (merger_append_ok E) pdf_list
                && merger_write_ok E output_path in
  exists w' evs,
    merge_pdfs E pdf_list output_path w = (Ok all_ok, w')
    /\ trace w' = trace w ++ evs
    /\ merged_documents evs = (if all_ok then [(output_path, pdf_list)] else [])
    /\ merger_inputs evs = attempted (merger_append_ok E) pdf_list.
Proof.
  intros all_ok. subst all_ok. unfold merge_pdfs.
  set (tried := attempted (merger_append_ok E) pdf_list).
  assert (Hbody : forall k : list string -> M bool,
            (emit MergerNew ;; merger <- for_fold pdf_list (merger_append E) [] ;;
             k merger) w
            = if forallb (merger_append_ok E) pdf_list
              then k pdf_list (log (MergerNew :: map MergerAppend tried) w)
              else (Raise OSError, log (MergerNew :: map MergerAppend tried) w)).
  { intros k. erewrite bind_ok by apply emit_run.
    unfold bind. rewrite merger_append_loop, log_log. fold tried.
    by destruct (forallb _ _). }
  assert (Hdocs : forall tail,
            merged_documents (MergerNew :: map MergerAppend tried ++ tail)
            = merged_documents tail).
  { intros tail. change (MergerNew :: map MergerAppend tried ++ tail)
      with ([MergerNew] ++ map MergerAppend tried ++ tail).
    by rewrite !merged_documents_app, merged_documents_appends. }
  assert (Hins : forall tail,
            merger_inputs (MergerNew :: map MergerAppend tried ++ tail)
            = tried ++ merger_inputs tail).
  { intros tail. change (MergerNew :: map MergerAppend tried ++ tail)
      with ([MergerNew] ++ map MergerAppend tried ++ tail).
    unfold merger_inputs at 1. rewrite !omap_app.
    fold (merger_inputs (map MergerAppend tried)). by rewrite merger_inputs_appends. }
  destruct (forallb (merger_append_ok E) pdf_list) eqn:Hall.
  - unfold merger_write in *.
    destruct (merger_write_ok E output_path) eqn:Hwrite.
    + eexists _, (MergerNew :: map MergerAppend tried
                  ++ [MergerWrite output_path pdf_list; Print MsgMergeOk]).
      split.
      { erewrite try_except_ok; [reflexivity|]. rewrite Hbody.
        erewrite bind_ok by apply emit_run.
        erewrite bind_ok by apply print_run. unfold ret. by rewrite !log_log. }
      split; [reflexivity|]. rewrite Hdocs, Hins. split; [reflexivity|].
      cbn. by rewrite app_nil_r.
    + eexists _, (MergerNew :: map MergerAppend tried ++ [Print MsgMergeError]).
      split.
      { erewrite try_except_caught; [| |reflexivity].
        2:{ rewrite Hbody. reflexivity. }
        erewrite bind_ok by apply print_run. unfold ret. by rewrite log_log. }
      split; [reflexivity|]. rewrite Hdocs, Hins. split; [reflexivity|].
      cbn. by rewrite app_nil_r.
  - eexists _, (MergerNew :: map MergerAppend tried ++ [Print MsgMergeError]).
    split.
    { erewrite try_except_caught; [| |reflexivity].
      2:{ rewrite Hbody. reflexivity. }
      erewrite bind_ok by apply print_run. unfold ret. by rewrite log_log. }
    split; [reflexivity|]. rewrite Hdocs, Hins. split; [reflexivity|].
    cbn. by rewrite app_nil_r.
Qed.

End MergerFurther.

(** ** The archive pipeline, further *)

Section PipelineFurther.
Variable E : env.

Lemma endswith_append (a b : string) : PyStr.endswith (a ++ b) b = true.
Proof.
  unfold PyStr.endswith. rewrite length_append.
  replace (String.length a + String.length b - String.length b)
    with (String.length a) by lia.
  rewrite slice_from_append, String.eqb_refl.
  by destruct (Nat.leb_spec (String.length b) (String.length a + String.length b));
    [|lia].
Qed.

(** X8: whatever the archive is called, the output path ends in
    [.pdf]. *)
Theorem final_pdf_path_extension (rmdoc_file_path : string) :
  PyStr.endswith (final_pdf_path_of rmdoc_file_path) ".pdf" = true.
Proof.
  unfold final_pdf_path_of, OsPath.join.
  destruct (PyStr.startswith _ "/"); [apply endswith_append|].
  destruct (PyStr.is_empty _ || PyStr.endswith _ "/");
    rewrite <- ?append_assoc; apply endswith_append.
Qed.

(** The world that the [finally] block leaves, spelled out. *)
Lemma cleaned_log tmp evs content w :
  cleaned tmp (set_extracted content (log evs w))
  = {| extracted := None; dirs := dirs w;
       trace := trace w ++ evs ++ [Print (MsgCleaning tmp); Rmtree tmp;
                                   Print MsgCleanupDone] |}.
Proof. apply world_eq; cbn; auto. by rewrite <- !app_assoc. Qed.

(** X9: an archive that extracts but holds no [.content] file anywhere
    (an empty archive included) is given up: the absence is reported,
    nothing is converted, copied or merged, the extraction directory is
    removed and the function returns without announcing an output. *)
Theorem no_manifest_returns path content w :
  let tmp := temp_extract_dir_of E path in
  zip_extractall E path = (content, None) ->
  first_in_walk is_content
    (match content with Some t => walk tmp t | None => [] end) = None ->
  process_rmdoc_file E path w
  = (Ok tt,
     {| extracted := None; dirs := dirs w;
        trace := trace w ++
          [Print (MsgStart path); ZipExtractall path tmp; Print (MsgUnzipped tmp);
           Print MsgNoContent; Print (MsgCleaning tmp); Rmtree tmp;
           Print MsgCleanupDone] |}).
Proof.
  intros tmp Hzip Hfind.
  rewrite process_rmdoc_file_run. fold tmp.
  assert (Hc : classify E path tmp (final_pdf_path_of path)
                 (log [Print (MsgStart path)] w)
               = (Ok Return,
                  set_extracted content
                    (log [Print (MsgStart path); ZipExtractall path tmp;
                          Print (MsgUnzipped tmp); Print MsgNoContent] w))).
  { unfold classify.
    erewrite bind_ok by (by apply zipfile_extractall_ok).
    erewrite bind_ok by apply print_run.
    erewrite bind_ok by apply os_walk_run.
    cbn [extracted set_extracted log]. rewrite Hfind.
    erewrite bind_ok by apply print_run.
    unfold ret. f_equal. apply world_eq; cbn; auto. by rewrite <- !app_assoc. }
  rewrite Hc. by rewrite cleaned_log.
Qed.

(** X10: an archive that cannot be extracted.  The exception leaves the
    function once the extraction directory (whatever part of it was
    written) has been removed; nothing else is attempted, and in the loop
    of the main block the run ends there. *)
Theorem extraction_failure_propagates path content e w :
  let tmp := temp_extract_dir_of E path in
  let w' := {| extracted := None; dirs := dirs w;
               trace := trace w ++
                 [Print (MsgStart path); ZipExtractall path tmp;
                  Print (MsgCleaning tmp); Rmtree tmp; Print MsgCleanupDone] |} in
  zip_extractall E path = (content, Some e) ->
  process_rmdoc_file E path w = (Raise e, w')
  /\ forall rmapi_download abspath output file rest w0,
       rmdoc_path_of abspath output file = path ->
       rmapi_download file output w0 = (Ok tt, w) ->
       process_files E rmapi_download abspath output (file :: rest) w0
       = (Raise e, w').
Proof.
  intros tmp w' Hzip.
  assert (Hrun : process_rmdoc_file E path w = (Raise e, w')).
  { rewrite process_rmdoc_file_run. fold tmp.
    assert (Hc : classify E path tmp (final_pdf_path_of path)
                   (log [Print (MsgStart path)] w)
                 = (Raise e,
                    set_extracted content
                      (log [Print (MsgStart path); ZipExtractall path tmp] w))).
    { unfold classify. erewrite bind_raise; [reflexivity|].
      unfold zipfile_extractall. erewrite bind_ok by apply emit_run.
      rewrite Hzip. by rewrite log_log. }
    rewrite Hc. by rewrite cleaned_log. }
  split; [done|].
  intros rmapi_download abspath output file rest w0 Hpath Hdl.
  unfold process_files. cbn [for_each].
  erewrite bind_raise; [reflexivity|].
  erewrite bind_ok by eassumption. by rewrite Hpath.
Qed.

(** The native-notebook branch when the manifest cannot be read as a
    page list. *)
Lemma reconstruct_raises tmp final content_data e w :
  get_page_ids content_data = Raise e ->
  reconstruct E tmp final content_data w = (Raise e, w).
Proof.
  intros Hids. unfold reconstruct.
  erewrite bind_raise; [reflexivity|]. unfold lift. by rewrite Hids.
Qed.

(** X11: a manifest without the expected keys ([KeyError]) and no
    rendered document beside it.  The first file of the tree whose name
    ends in none of [.content], [.metadata], [.pagedata], [.pdf] is
    copied to the output path and no page is converted; if there is no
    such file an error is reported, nothing is written, and the closing
    message that names the output path is printed all the same. *)
Theorem unrecognized_payload_passthrough path t content_file data content_data w :
  let tmp := temp_extract_dir_of E path in
  let final := final_pdf_path_of path in
  let head := [Print (MsgStart path); ZipExtractall path tmp;
               Print (MsgUnzipped tmp); Print (MsgSkipNotNotebook path)] in
  let tail := [Print (MsgCleaning tmp); Rmtree tmp; Print MsgCleanupDone] in
  zip_extractall E path = (Some t, None) ->
  first_in_walk is_content (walk tmp t) = Some (content_file, data) ->
  json_load E data = Some content_data ->
  lookup_entry (OsPath.stem content_file ++ ".pdf") (Some t) = None ->
  get_page_ids content_data = Raise KeyError ->
  process_rmdoc_file E path w
  = match first_in_walk is_original (walk tmp t) with
    | Some (original_file, _) =>
        if copyfile_ok E original_file final
        then (Ok tt,
              {| extracted := None; dirs := dirs w;
                 trace := trace w ++ head
                          ++ [Copyfile original_file final;
                              Print (MsgCopied original_file final)]
                          ++ tail ++ [Print (MsgFinal final)] |})
        else (Raise OSError,
              {| extracted := None; dirs := dirs w;
                 trace := trace w ++ head ++ [Copyfile original_file final]
                          ++ tail |})
    | None =>
        (Ok tt,
         {| extracted := None; dirs := dirs w;
            trace := trace w ++ head ++ [Print (MsgNoOriginal tmp)]
                     ++ tail ++ [Print (MsgFinal final)] |})
    end.
Proof.
  intros tmp final head tail Hzip Hfind Hjson Hpdf Hids.
  rewrite process_rmdoc_file_run. fold tmp. fold final.
  rewrite (classify_run _ _ _ _ t) by done. cbn zeta.
  rewrite Hfind, Hjson, Hpdf.
  set (w1 := set_extracted (Some t) _).
  erewrite try_except_caught; [|by apply reconstruct_raises|reflexivity].
  unfold passthrough.
  erewrite bind_ok by apply print_run.
  erewrite bind_ok by apply os_walk_run.
  cbn [extracted log]. subst w1. cbn [extracted set_extracted].
  destruct (first_in_walk is_original (walk tmp t)) as [[original d]|].
  - unfold shutil_copyfile.
    destruct (copyfile_ok E original final) eqn:Hcopy.
    + erewrite bind_ok.
      2:{ erewrite bind_ok.
          2:{ erewrite bind_ok by apply emit_run. reflexivity. }
          apply print_run. }
      unfold ret. f_equal. apply world_eq; cbn; auto. by rewrite <- !app_assoc.
    + erewrite bind_raise.
      2:{ erewrite bind_raise; [reflexivity|].
          erewrite bind_ok by apply emit_run. reflexivity. }
      f_equal. apply world_eq; cbn; auto. by rewrite <- !app_assoc.
  - erewrite bind_ok by apply print_run.
    unfold ret. f_equal. apply world_eq; cbn; auto. by rewrite <- !app_assoc.
Qed.

(** X12: a manifest whose page list cannot be read for another reason
    than a missing key (a value of the wrong type where a dictionary or a
    list is expected) is not handled as an unrecognized payload: the
    exception leaves the function, after the cleanup, and nothing is
    copied or converted. *)
Theorem malformed_manifest_propagates path t content_file data content_data e w :
  let tmp := temp_extract_dir_of E path in
  zip_extractall E path = (Some t, None) ->
  first_in_walk is_content (walk tmp t) = Some (content_file, data) ->
  json_load E data = Some content_data ->
  lookup_entry (OsPath.stem content_file ++ ".pdf") (Some t) = None ->
  get_page_ids content_data = Raise e ->
  e <> KeyError ->
  process_rmdoc_file E path w
  = (Raise e,
     {| extracted := None; dirs := dirs w;
        trace := trace w ++
          [Print (MsgStart path); ZipExtractall path tmp; Print (MsgUnzipped tmp);
           Print (MsgCleaning tmp); Rmtree tmp; Print MsgCleanupDone] |}).
Proof.
  intros tmp Hzip Hfind Hjson Hpdf Hids Hne.
  rewrite process_rmdoc_file_run. fold tmp.
  rewrite (classify_run _ _ _ _ t) by done. cbn zeta.
  rewrite Hfind, Hjson, Hpdf.
  erewrite try_except_passed; [|by apply reconstruct_raises|by destruct e].
  f_equal. apply world_eq; cbn; auto. by rewrite <- !app_assoc.
Qed.

(** A round of the page loop changes nothing but the trace. *)
Lemma convert_page_keeps tmp pdf_pages page_id w r w1 :
  convert_page E tmp pdf_pages page_id w = (r, w1) ->
  extracted w1 = extracted w /\ dirs w1 = dirs w.
Proof.
  unfold convert_page. erewrite bind_ok by apply os_walk_run.
  set (found := match extracted w with Some t => walk tmp t | None => [] end).
  destruct page_id as [| | |id| |];
    try (destruct (has_file found); intros [= <- <-]; done).
  destruct (first_in_walk (is_rm_of id) found) as [[rm d]|];
    [|intros [= <- <-]; done].
  unfold try_except, attempt, subprocess_run_checked, print, emit, bind, ret, raise.
  destruct (subprocess_run E _); intros [= <- <-]; done.
Qed.

Lemma page_loop_keeps tmp page_ids :
  forall pdf_pages w r w1,
    for_fold page_ids (convert_page E tmp) pdf_pages w = (r, w1) ->
    extracted w1 = extracted w /\ dirs w1 = dirs w.
Proof.
  induction page_ids as [|id ids IH]; intros pdf_pages w r w1.
  - intros [= <- <-]. done.
  - cbn [for_fold]. unfold bind.
    destruct (convert_page E tmp pdf_pages id w) as [[pages|e] w2] eqn:Hstep.
    + intros Hrest. destruct (convert_page_keeps _ _ _ _ _ _ Hstep) as [He Hd].
      destruct (IH _ _ _ _ Hrest) as [He' Hd']. split; congruence.
    + intros [= <- <-]. by apply (convert_page_keeps _ _ _ _ _ _ Hstep).
Qed.

Lemma for_fold_app {A S} (l1 l2 : list A) (body : S -> A -> M S) s w :
  for_fold (l1 ++ l2) body s w
  = (s1 <- for_fold l1 body s ;; for_fold l2 body s1) w.
Proof.
  revert s w. induction l1 as [|x l1 IH]; intros s w; [reflexivity|].
  cbn [app for_fold]. rewrite !bind_run.
  destruct (body s x w) as [[s'|e] w']; [by rewrite IH, bind_run | reflexivity].
Qed.

(** X13: a converter that cannot be started (as opposed to one that
    exits with an error) ends the processing of the archive: the
    exception leaves the function after the cleanup, the pages after the
    one in hand are never looked at, and nothing is merged, whatever
    pages were converted before. *)
Theorem converter_launch_failure_aborts
        path t content_file data content_data before id after rm d pdf_pages w1 w :
  let tmp := temp_extract_dir_of E path in
  let pdf_page_path := page_pdf_path tmp id in
  let page_ids := before ++ PyStr id :: after in
  zip_extractall E path = (Some t, None) ->
  first_in_walk is_content (walk tmp t) = Some (content_file, data) ->
  json_load E data = Some content_data ->
  lookup_entry (OsPath.stem content_file ++ ".pdf") (Some t) = None ->
  get_page_ids content_data = Ok page_ids ->
  for_fold before (convert_page E tmp) [] (at_page_loop E path t page_ids w)
  = (Ok pdf_pages, w1) ->
  first_in_walk (is_rm_of id) (walk tmp t) = Some (rm, d) ->
  subprocess_run E (rmc_argv pdf_page_path rm) = LaunchFailed ->
  process_rmdoc_file E path w
  = (Raise OSError,
     {| extracted := None; dirs := dirs w;
        trace := trace w1 ++
          [Print (MsgConverting rm pdf_page_path);
           SubprocessRun (rmc_argv pdf_page_path rm);
           Print (MsgCleaning tmp); Rmtree tmp; Print MsgCleanupDone] |}).
Proof.
  intros tmp pdf_page_path page_ids Hzip Hfind Hjson Hpdf Hids Hbefore Hrm Hlaunch.
  destruct (page_loop_keeps _ _ _ _ _ _ Hbefore) as [Hext1 Hdirs1].
  rewrite process_rmdoc_file_run. fold tmp.
  rewrite (classify_run _ _ _ _ t) by done. cbn zeta.
  rewrite Hfind, Hjson, Hpdf.
  set (w0 := set_extracted (Some t) _).
  assert (Hw0 : log [Print (MsgPageIds page_ids)] w0 = at_page_loop E path t page_ids w).
  { unfold at_page_loop. fold tmp. subst w0. by rewrite log_log. }
  assert (Hrec : reconstruct E tmp (final_pdf_path_of path) content_data w0
            = (Raise OSError,
               log [Print (MsgConverting rm pdf_page_path);
                    SubprocessRun (rmc_argv pdf_page_path rm)] w1)).
  { unfold reconstruct.
    erewrite bind_ok by (unfold lift; by rewrite Hids).
    erewrite bind_ok by apply print_run.
    rewrite Hw0.
    erewrite bind_raise; [reflexivity|].
    subst page_ids. rewrite for_fold_app.
    erewrite bind_ok by exact Hbefore.
    cbn [for_fold]. erewrite bind_raise; [reflexivity|].
    rewrite (convert_page_run _ _ t) by (by rewrite Hext1).
    rewrite Hrm. cbn zeta. fold pdf_page_path. by rewrite Hlaunch. }
  erewrite try_except_passed; [|exact Hrec|reflexivity].
  f_equal. apply world_eq; cbn; auto. by rewrite <- !app_assoc.
Qed.

Lemma only_emits_on_plain content P {A} (c : M A) :
  only_emits P c -> only_emits_on content P c.
Proof. intros Hc w _. apply Hc. Qed.

(** Sequencing, when the first computation leaves the extraction
    directory as it is and its result satisfies [Q]. *)
Lemma only_emits_on_bind content P {A B} (Q : A -> Prop) (c : M A) (k : A -> M B) :
  only_emits_on content P c ->
  (forall w r w', extracted w = content -> c w = (r, w') ->
     extracted w' = content /\ forall a, r = Ok a -> Q a) ->
  (forall a, Q a -> only_emits_on content P (k a)) ->
  only_emits_on content P (bind c k).
Proof.
  intros Hc Hpost Hk w Hw. destruct (Hc w Hw) as (evs & Htr & Hevs).
  unfold bind. destruct (c w) as [[a|e] w1] eqn:Hrun; simpl in Htr.
  - destruct (Hpost _ _ _ Hw Hrun) as [Hw1 HQ].
    destruct (Hk a (HQ a eq_refl) w1 Hw1) as (evs' & Htr' & Hevs').
    exists (evs ++ evs'). rewrite Htr', Htr, app_assoc.
    split; [done | by apply Forall_app].
  - by exists evs.
Qed.

Lemma only_emits_on_step content P {A B} (c : M A) (k : A -> M B) :
  only_emits P c ->
  (forall w, extracted (snd (c w)) = extracted w) ->
  (forall a, only_emits_on content P (k a)) ->
  only_emits_on content P (bind c k).
Proof.
  intros Hc Hkeep Hk. apply (only_emits_on_bind _ _ (fun _ => True)).
  - by apply only_emits_on_plain.
  - intros w r w' Hw Hrun. split; [|done].
    specialize (Hkeep w). rewrite Hrun in Hkeep. simpl in Hkeep. congruence.
  - auto.
Qed.

Lemma only_emits_on_try_except content P {A} (c h : M A) caught :
  only_emits_on content P c -> only_emits P h ->
  only_emits_on content P (try_except c caught h).
Proof.
  intros Hc Hh w Hw. destruct (Hc w Hw) as (evs & Htr & Hevs).
  unfold try_except, bind, attempt.
  destruct (c w) as [[a|e] w1]; simpl in Htr |- *.
  - by exists evs.
  - destruct (caught e).
    + destruct (Hh w1) as (evs' & Htr' & Hevs').
      exists (evs ++ evs'). rewrite Htr', Htr, app_assoc.
      split; [done | by apply Forall_app].
    + by exists evs.
Qed.

Lemma only_emits_for_fold_in (P : event -> Prop) {A S} (l : list A)
      (body : S -> A -> M S) :
  (forall s x, x ∈ l -> only_emits P (body s x)) ->
  forall s, only_emits P (for_fold l body s).
Proof.
  induction l as [|x l IH]; intros Hb s; cbn [for_fold].
  - apply only_emits_ret.
  - apply only_emits_bind; [apply Hb; by left|].
    intros s'. apply IH. intros. apply Hb. by right.
Qed.

Lemma has_char_startswith c (s p : string) :
  PyStr.startswith s p = true -> has_char c s = false -> has_char c p = false.
Proof.
  revert s. induction p as [|a p IH]; intros [|b s]; try done.
  intros Hsw Hfree. rewrite startswith_cons in Hsw.
  apply andb_prop in Hsw as [Hab Hp].
  cbn [has_char] in Hfree |- *. apply orb_false_elim in Hfree as [Hb Hs].
  apply Ascii.eqb_eq in Hab as ->. by rewrite Hb, (IH s).
Qed.

(** An identifier for which a page file is found holds no [/]: it is
    the beginning of a file name. *)
Lemma found_page_slash_free content tmp id rm d :
  slash_free_names content ->
  first_in_walk (is_rm_of id)
    (match content with Some t => walk tmp t | None => [] end) = Some (rm, d) ->
  has_char "/" id = false.
Proof.
  intros Hnames Hfind. destruct content as [t|]; [|discriminate].
  destruct (first_in_walk_some _ _ _ Hfind)
    as (root & files & file & Hw & Hf & Hp & _).
  cbn [snd] in Hf. unfold is_rm_of in Hp. apply andb_prop in Hp as [Hp _].
  eapply has_char_startswith; [exact Hp|].
  eapply Hnames; [reflexivity|]. eapply walk_file_in; eauto.
Qed.

Lemma convert_page_paths content tmp pdf_pages page_id w pages' w' :
  slash_free_names content -> extracted w = content ->
  page_paths tmp pdf_pages ->
  convert_page E tmp pdf_pages page_id w = (Ok pages', w') ->
  page_paths tmp pages'.
Proof.
  intros Hnames Hw Hpages. unfold convert_page.
  erewrite bind_ok by apply os_walk_run. rewrite Hw.
  set (found := match content with Some t => walk tmp t | None => [] end).
  destruct page_id as [| | |id| |];
    try (destruct (has_file found); intros [= <- <-]; done).
  destruct (first_in_walk (is_rm_of id) found) as [[rm d]|] eqn:Hfind;
    [|intros [= <- <-]; done].
  pose proof (found_page_slash_free _ _ _ _ _ Hnames Hfind) as Hid.
  unfold try_except, attempt, subprocess_run_checked, print, emit, bind, ret, raise.
  destruct (subprocess_run E _); intros [= <- <-];
    apply Forall_app; split; try done; constructor; eauto.
Qed.

Lemma page_loop_paths content tmp page_ids :
  slash_free_names content ->
  forall pdf_pages w pages' w',
    extracted w = content -> page_paths tmp pdf_pages ->
    for_fold page_ids (convert_page E tmp) pdf_pages w = (Ok pages', w') ->
    page_paths tmp pages'.
Proof.
  intros Hnames.
  induction page_ids as [|id ids IH]; intros pdf_pages w pages' w' Hw Hpages.
  - by intros [= <- <-].
  - cbn [for_fold]. unfold bind.
    destruct (convert_page E tmp pdf_pages id w) as [[pages|e] w2] eqn:Hstep;
      [|discriminate].
    apply IH.
    + destruct (convert_page_keeps _ _ _ _ _ _ Hstep) as [He _]. congruence.
    + eapply convert_page_paths; eauto.
Qed.

Lemma convert_page_footprint content tmp final pdf_pages page_id :
  slash_free_names content ->
  only_emits_on content (footprint tmp final)
                (convert_page E tmp pdf_pages page_id).
Proof.
  intros Hnames w Hw. unfold convert_page.
  erewrite bind_ok by apply os_walk_run. rewrite Hw.
  set (found := match content with Some t => walk tmp t | None => [] end).
  assert (Hplain : forall c : M (list string),
             only_emits (footprint tmp final) c ->
             exists evs, trace (snd (c w)) = trace w ++ evs
                         /\ Forall (footprint tmp final) evs)
    by (intros c Hc; apply Hc).
  destruct page_id as [| | |id| |];
    try (match goal with |- context [has_file] => idtac end;
         apply Hplain; unfold print; destruct (has_file found); emits).
  destruct (first_in_walk (is_rm_of id) found) as [[rm d]|] eqn:Hfind;
    [|apply Hplain; unfold print; emits].
  pose proof (found_page_slash_free _ _ _ _ _ Hnames Hfind) as Hid.
  apply Hplain. unfold print. emits.
  apply only_emits_emit; cbn; eauto.
Qed.

Lemma page_loop_footprint content tmp final page_ids :
  slash_free_names content ->
  forall pdf_pages,
    only_emits_on content (footprint tmp final)
                  (for_fold page_ids (convert_page E tmp) pdf_pages).
Proof.
  intros Hnames.
  induction page_ids as [|id ids IH]; intros pdf_pages; cbn [for_fold].
  - apply only_emits_on_plain, only_emits_ret.
  - apply (only_emits_on_bind _ _ (fun _ => True)).
    + by apply convert_page_footprint.
    + intros w r w' Hw Hrun. split; [|done].
      destruct (convert_page_keeps _ _ _ _ _ _ Hrun) as [He _]. congruence.
    + intros pages _. apply IH.
Qed.

Lemma merge_pdfs_footprint tmp final pdf_pages :
  page_paths tmp pdf_pages ->
  only_emits (footprint tmp final) (merge_pdfs E pdf_pages final).
Proof.
  intros Hpages. unfold merge_pdfs, print.
  apply only_emits_try_except; [|emits].
  apply only_emits_bind; [emits | intros _].
  apply only_emits_bind.
  - apply only_emits_for_fold_in. intros merger f Hf. unfold merger_append.
    apply only_emits_bind; [|intros _; emits].
    apply only_emits_emit. unfold page_paths in Hpages.
    rewrite Forall_forall in Hpages. exact (Hpages f Hf).
  - intros merger. unfold merger_write.
    apply only_emits_bind; [|intros _; emits].
    destruct (merger_write_ok E final);
      [by apply only_emits_emit | apply only_emits_raise].
Qed.

Lemma shutil_copyfile_footprint tmp final what src :
  only_emits (footprint tmp final) (shutil_copyfile E what src final).
Proof.
  unfold shutil_copyfile.
  apply only_emits_bind; [by apply only_emits_emit | intros _]. emits.
Qed.

Lemma classify_footprint path tmp final :
  slash_free_names (fst (zip_extractall E path)) ->
  only_emits (footprint tmp final) (classify E path tmp final).
Proof.
  intros Hnames w. unfold classify.
  set (content := fst (zip_extractall E path)) in *.
  assert (Hzip : zipfile_extractall E path tmp w
                 = (match snd (zip_extractall E path) with
                    | None => Ok tt
                    | Some e => Raise e
                    end,
                    set_extracted content (log [ZipExtractall path tmp] w))).
  { unfold zipfile_extractall. erewrite bind_ok by apply emit_run. subst content.
    destruct (zip_extractall E path) as [c [e|]]; reflexivity. }
  destruct (snd (zip_extractall E path)) as [e|].
  { erewrite bind_raise by exact Hzip. exists [ZipExtractall path tmp].
    split; [reflexivity | by repeat constructor]. }
  erewrite bind_ok by exact Hzip. cbn beta.
  match goal with
  | |- exists evs, trace (snd (?c _)) = _ /\ _ =>
      assert (Hrest : only_emits_on content (footprint tmp final) c)
  end.
  { unfold print.
    apply only_emits_on_step; [emits | done | intros _].
    apply only_emits_on_step; [apply os_walk_emits | done | intros found].
    destruct (first_in_walk is_content found) as [[content_file data]|];
      [|apply only_emits_on_plain; emits].
    apply only_emits_on_step;
      [unfold json_load_file; emits
      |intros w0; unfold json_load_file; by destruct (json_load E data)
      |intros content_data].
    apply only_emits_on_step; [apply only_emits_get_world | done | intros now].
    destruct (lookup_entry _ _) as [what|].
    - apply only_emits_on_plain.
      apply only_emits_bind; [emits | intros _].
      apply only_emits_bind; [apply shutil_copyfile_footprint | intros _]. emits.
    - apply only_emits_on_try_except.
      + unfold reconstruct, print.
        apply only_emits_on_step; [apply only_emits_lift | done | intros page_ids].
        apply only_emits_on_step; [emits | done | intros _].
        apply (only_emits_on_bind _ _ (page_paths tmp)).
        * by apply page_loop_footprint.
        * intros w0 r w' Hw0 Hrun. split.
          -- destruct (page_loop_keeps _ _ _ _ _ _ Hrun) as [He _]. congruence.
          -- intros pages ->.
             eapply (page_loop_paths content tmp page_ids Hnames [] w0 pages w' Hw0);
               [constructor | exact Hrun].
        * intros [|p pages] Hpages; apply only_emits_on_plain; [emits|].
          apply only_emits_bind; [emits | intros _].
          apply only_emits_bind; [by apply merge_pdfs_footprint | intros _]. emits.
      + unfold passthrough, print.
        apply only_emits_bind; [emits | intros _].
        apply only_emits_bind; [apply os_walk_emits | intros found'].
        apply only_emits_bind; [|intros _; emits].
        destruct (first_in_walk is_original found') as [[original d]|]; [|emits].
        apply only_emits_bind; [apply shutil_copyfile_footprint | intros _]. emits. }
  destruct (Hrest (set_extracted content (log [ZipExtractall path tmp] w)) eq_refl)
    as (evs & Htr & Hevs).
  exists (ZipExtractall path tmp :: evs). rewrite Htr. cbn.
  rewrite <- app_assoc. split; [done | by constructor].
Qed.

(** X14: for an archive whose file names hold no [/] (as those of a
    file system do), whatever else it holds and however the run ends,
    the run touches nothing but its own places: it extracts into its
    own directory and removes only that directory, every conversion
    writes a page path of that directory, the Merger is handed such
    page paths only, every copy and every merged document goes to the
    output path, and no directory is created by [os.makedirs]. *)
Theorem process_rmdoc_file_footprint path w :
  slash_free_names (fst (zip_extractall E path)) ->
  exists evs,
    trace (snd (process_rmdoc_file E path w)) = trace w ++ evs
    /\ Forall (footprint (temp_extract_dir_of E path) (final_pdf_path_of path)) evs.
Proof.
  intros Hnames.
  rewrite process_rmdoc_file_run. cbn zeta.
  set (tmp := temp_extract_dir_of E path). set (final := final_pdf_path_of path).
  destruct (classify E path tmp final _) as [r w2] eqn:Hc.
  destruct (only_emits_run _ _ _ _ _ (classify_footprint path tmp final Hnames) Hc)
    as (evs & Htr & Hevs).
  cbn [trace log] in Htr.
  assert (Hend : Forall (footprint tmp final)
            (Print (MsgStart path) :: evs
             ++ [Print (MsgCleaning tmp); Rmtree tmp; Print MsgCleanupDone])).
  { constructor; [done|]. apply Forall_app. split; [done|]. by repeat constructor. }
  destruct r as [[|]|e]; cbn [snd trace log cleaned set_extracted].
  - exists ((Print (MsgStart path) :: evs
             ++ [Print (MsgCleaning tmp); Rmtree tmp; Print MsgCleanupDone])
            ++ [Print (MsgFinal final)]).
    split; [rewrite Htr; cbn; by rewrite <- !app_assoc|].
    apply Forall_app. split; [done | by repeat constructor].
  - eexists. split; [|exact Hend]. rewrite Htr. cbn. by rewrite <- !app_assoc.
  - eexists. split; [|exact Hend]. rewrite Htr. cbn. by rewrite <- !app_assoc.
Qed.

End PipelineFurther.

(** ** Further worked runs *)

Section FurtherRuns.

Lemma no_manifest_returns_witness :
  process_rmdoc_file (sample_env no_manifest_tree rmc_works) sample_path initial_world
  = (Ok tt,
     {| extracted := None; dirs := ∅;
        trace := [Print (MsgStart sample_path);
                  ZipExtractall sample_path sample_tmp;
                  Print (MsgUnzipped sample_tmp); Print MsgNoContent;
                  Print (MsgCleaning sample_tmp); Rmtree sample_tmp;
                  Print MsgCleanupDone] |}).
Proof.
  exact (no_manifest_returns (sample_env no_manifest_tree rmc_works) sample_path
           (Some no_manifest_tree) initial_world eq_refl eq_refl).
Defined.

Lemma extraction_failure_propagates_witness :
  process_rmdoc_file locked_env sample_path initial_world
  = (Raise BadZipFile,
     {| extracted := None; dirs := ∅;
        trace := [Print (MsgStart sample_path);
                  ZipExtractall sample_path sample_tmp;
                  Print (MsgCleaning sample_tmp); Rmtree sample_tmp;
                  Print MsgCleanupDone] |}).
Proof.
  exact (proj1 (extraction_failure_propagates locked_env sample_path None BadZipFile
                  initial_world eq_refl)).
Defined.

(** The example scenario of the specification: [raw.bin] is passed
    through. *)
Lemma unrecognized_payload_passthrough_witness :
  process_rmdoc_file (manifest_env payload_tree (PyDict [])) sample_path initial_world
  = (Ok tt,
     {| extracted := None; dirs := ∅;
        trace := [Print (MsgStart sample_path);
                  ZipExtractall sample_path sample_tmp;
                  Print (MsgUnzipped sample_tmp);
                  Print (MsgSkipNotNotebook sample_path);
                  Copyfile "/out/temp_extract_0001/raw.bin" "/out/q.pdf";
                  Print (MsgCopied "/out/temp_extract_0001/raw.bin" "/out/q.pdf");
                  Print (MsgCleaning sample_tmp); Rmtree sample_tmp;
                  Print MsgCleanupDone; Print (MsgFinal "/out/q.pdf")] |}).
Proof.
  exact (unrecognized_payload_passthrough (manifest_env payload_tree (PyDict []))
           sample_path payload_tree "/out/temp_extract_0001/y.content" "{}"
           (PyDict []) initial_world eq_refl eq_refl eq_refl eq_refl eq_refl).
Defined.

Lemma malformed_manifest_propagates_witness :
  process_rmdoc_file
    (manifest_env payload_tree (PyDict [("cPages", PyList [])]))
    sample_path initial_world
  = (Raise TypeError,
     {| extracted := None; dirs := ∅;
        trace := [Print (MsgStart sample_path);
                  ZipExtractall sample_path sample_tmp;
                  Print (MsgUnzipped sample_tmp);
                  Print (MsgCleaning sample_tmp); Rmtree sample_tmp;
                  Print MsgCleanupDone] |}).
Proof.
  apply (malformed_manifest_propagates
           (manifest_env payload_tree (PyDict [("cPages", PyList [])]))
           sample_path payload_tree "/out/temp_extract_0001/y.content" "{}"
           (PyDict [("cPages", PyList [])]) TypeError initial_world);
    (reflexivity || discriminate).
Defined.

Lemma converter_launch_failure_aborts_witness :
  process_rmdoc_file (sample_env notebook_tree rmc_missing) sample_path initial_world
  = (Raise OSError,
     {| extracted := None; dirs := ∅;
        trace := [Print (MsgStart sample_path);
                  ZipExtractall sample_path sample_tmp;
                  Print (MsgUnzipped sample_tmp);
                  Print (MsgPageIds [PyStr "c"; PyStr "a"; PyStr "b"]);
                  Print (MsgConverting "/out/temp_extract_0001/x/c.rm"
                                       "/out/temp_extract_0001/c.pdf");
                  SubprocessRun (rmc_argv "/out/temp_extract_0001/c.pdf"
                                          "/out/temp_extract_0001/x/c.rm");
                  Print (MsgCleaning sample_tmp); Rmtree sample_tmp;
                  Print MsgCleanupDone] |}).
Proof.
  exact (converter_launch_failure_aborts
           (sample_env notebook_tree rmc_missing) sample_path notebook_tree
           "/out/temp_extract_0001/x.content" "c,a,b"
           (notebook_manifest ["c"; "a"; "b"]) [] "c" [PyStr "a"; PyStr "b"]
           "/out/temp_extract_0001/x/c.rm" "C" [] _ initial_world
           eq_refl eq_refl eq_refl eq_refl eq_refl eq_refl eq_refl eq_refl).
Defined.

(** The run on the notebook [c], [a], [b] stays in its own places. *)
Lemma process_rmdoc_file_footprint_witness :
  exists evs,
    trace (snd (process_rmdoc_file (sample_env notebook_tree rmc_works)
                                   sample_path initial_world))
    = trace initial_world ++ evs
    /\ Forall (footprint sample_tmp "/out/q.pdf") evs.
Proof.
  apply (process_rmdoc_file_footprint (sample_env notebook_tree rmc_works)
                                      sample_path initial_world).
  intros t file [= <-] Hfile. apply file_in_names_of in Hfile.
  assert (Hall : Forall (fun f => has_char "/" f = false) (names_of notebook_tree))
    by (vm_compute; repeat constructor).
  rewrite Forall_forall in Hall. by apply Hall.
Defined.

End FurtherRuns.

(** ** Fetcher *)

Section FetcherFacts.
Import Fetcher.
Variable F : Fetcher.env.

Lemma fetcher_world_eq (w1 w2 : Fetcher.world) :
  cwd w1 = cwd w2 -> present w1 = present w2 -> Fetcher.trace w1 = Fetcher.trace w2 ->
  w1 = w2.
Proof. destruct w1, w2; simpl; congruence. Qed.

Ltac fetch_unfold :=
  unfold rmapi_download, fetch, Fetcher.try_finally, Fetcher.try_except,
    Fetcher.attempt, Fetcher.os_makedirs, os_chdir, os_getcwd,
    Fetcher.subprocess_run_checked, shutil_move, Fetcher.shutil_rmtree,
    Fetcher.print, Fetcher.emit, Fetcher.bind, Fetcher.ret, Fetcher.raise.

(** The [try] block only ever adds the destination's directory. *)
Lemma fetch_present remote full name tmp w :
  let w1 := snd (fetch F remote full name tmp w) in
  present w ⊆ present w1
  /\ present w1 ⊆ {[OsPath.dirname full]} ∪ present w.
Proof.
  fetch_unfold. cbn.
  destruct (chdir_ok F tmp); cbn; [|set_solver].
  destruct (Fetcher.subprocess_run F _); cbn; try set_solver.
  destruct (decide (OsPath.dirname full ∈ present w)); cbn.
  - destruct (move_ok F name full); cbn; set_solver.
  - destruct (mkdir_ok F (OsPath.dirname full)); cbn; [|set_solver].
    destruct (move_ok F name full); cbn; set_solver.
Qed.

(** The function in terms of its [try] block, when the working
    directory can be created and the cleanup succeeds. *)
Lemma rmapi_download_run remote output w :
  let tmp := temp_dir_of F in
  tmp ∉ present w ->
  mkdir_ok F tmp = true ->
  chdir_ok F (cwd w) = true ->
  rmtree_ok F tmp = true ->
  rmapi_download F remote output w
  = let '(r, w1) :=
      fetch F remote (full_local_path_of F remote output)
            (temp_file_name_of remote) tmp
            {| cwd := cwd w; present := {[tmp]} ∪ present w;
               Fetcher.trace := Fetcher.trace w ++ [Fetcher.Makedirs tmp false] |} in
    (r, {| cwd := cwd w; present := present w1 ∖ {[tmp]};
           Fetcher.trace := Fetcher.trace w1 ++
             [Chdir (cwd w); Fetcher.Rmtree tmp; Fetcher.Print (MsgCleanedUp tmp)] |}).
Proof.
  intros tmp Hfresh Hmk Hback Hrm.
  unfold rmapi_download. fold tmp.
  unfold Fetcher.try_finally, Fetcher.attempt, Fetcher.os_makedirs, os_chdir,
    os_getcwd, Fetcher.shutil_rmtree, Fetcher.print, Fetcher.emit, Fetcher.bind,
    Fetcher.ret, Fetcher.raise.
  cbn [cwd present Fetcher.trace].
  rewrite decide_False by done. rewrite Hmk.
  destruct (fetch F remote _ _ tmp _) as [r w1].
  cbn [cwd present Fetcher.trace]. rewrite Hback.
  cbn [cwd present Fetcher.trace]. rewrite Hrm.
  destruct r as [[]|e]; f_equal; apply fetcher_world_eq;
    cbn [cwd present Fetcher.trace]; auto; by rewrite <- !app_assoc.
Qed.

(** X15: once the working directory of a download has been created,
    and provided that going back to the original directory and removing
    the working directory succeed, the Fetcher leaves the process in the
    directory where it started and the working directory gone, whether
    the download, the creation of the destination's directory or the move
    succeeded or not; no directory that existed before is lost. *)
Theorem rmapi_download_restores remote output w :
  let tmp := temp_dir_of F in
  let w' := snd (rmapi_download F remote output w) in
  tmp ∉ present w ->
  mkdir_ok F tmp = true ->
  chdir_ok F (cwd w) = true ->
  rmtree_ok F tmp = true ->
  cwd w' = cwd w /\ (tmp ∉ present w') /\ present w ⊆ present w'.
Proof.
  intros tmp w' Hfresh Hmk Hback Hrm. subst w'.
  rewrite rmapi_download_run by done. fold tmp.
  set (w0 := {| cwd := cwd w; present := {[tmp]} ∪ present w; Fetcher.trace := _ |}).
  pose proof (fetch_present remote (full_local_path_of F remote output)
                (temp_file_name_of remote) tmp w0) as [Hsub Hsup].
  destruct (fetch F remote _ _ tmp w0) as [r w1].
  subst w0. cbn [snd cwd present Fetcher.trace] in *.
  split; [done|]. set_solver.
Qed.

(** X16: a download that exits with an error is swallowed: the Fetcher
    reports it, moves nothing, cleans up and returns normally, so that
    its caller cannot tell that no archive was put in place. *)
Theorem rmapi_download_failed_download remote output w :
  let tmp := temp_dir_of F in
  tmp ∉ present w ->
  mkdir_ok F tmp = true ->
  chdir_ok F tmp = true ->
  Fetcher.subprocess_run F ["rmapi"; "get"; remote] = NonZeroExit ->
  chdir_ok F (cwd w) = true ->
  rmtree_ok F tmp = true ->
  exists w',
    rmapi_download F remote output w = (Ok tt, w')
    /\ cwd w' = cwd w /\ present w' = present w
    /\ Fetcher.trace w'
       = Fetcher.trace w ++
         [Fetcher.Makedirs tmp false; Chdir tmp;
          Fetcher.Print (MsgDownloading remote);
          Fetcher.SubprocessRun ["rmapi"; "get"; remote];
          Fetcher.Print MsgDownloadError;
          Chdir (cwd w); Fetcher.Rmtree tmp; Fetcher.Print (MsgCleanedUp tmp)].
Proof.
  intros tmp Hfresh Hmk Hin Hget Hback Hrm.
  fetch_unfold. fold tmp. cbn.
  rewrite decide_False by done. rewrite Hmk. cbn.
  rewrite Hin. cbn. rewrite Hget. cbn. rewrite Hback. cbn. rewrite Hrm. cbn.
  eexists. split; [reflexivity|]. cbn. split; [done|]. split; [set_solver|].
  by rewrite <- !app_assoc.
Qed.

(** X17: a download that succeeds.  The archive that [rmapi] left in
    the working directory under the last segment of the remote path is
    moved to the mirrored path under the output root, whose directory is
    created first; then the working directory is left and removed. *)
Theorem rmapi_download_success remote output w :
  let tmp := temp_dir_of F in
  let full := full_local_path_of F remote output in
  let name := temp_file_name_of remote in
  let local_dir := OsPath.dirname full in
  tmp ∉ present w ->
  mkdir_ok F tmp = true ->
  chdir_ok F tmp = true ->
  Fetcher.subprocess_run F ["rmapi"; "get"; remote] = Completed ->
  mkdir_ok F local_dir = true ->
  move_ok F name full = true ->
  chdir_ok F (cwd w) = true ->
  rmtree_ok F tmp = true ->
  exists w',
    rmapi_download F remote output w = (Ok tt, w')
    /\ cwd w' = cwd w
    /\ present w' = ({[local_dir]} ∪ present w) ∖ {[tmp]}
    /\ Fetcher.trace w'
       = Fetcher.trace w ++
         [Fetcher.Makedirs tmp false; Chdir tmp;
          Fetcher.Print (MsgDownloading remote);
          Fetcher.SubprocessRun ["rmapi"; "get"; remote];
          Fetcher.Print MsgDownloadOk;
          Fetcher.Makedirs local_dir true;
          Fetcher.Print (MsgEnsured local_dir);
          Fetcher.Print (MsgMoving name full);
          Move name full;
          Fetcher.Print MsgMoveOk;
          Fetcher.Print (MsgProcessing full);
          Chdir (cwd w); Fetcher.Rmtree tmp; Fetcher.Print (MsgCleanedUp tmp)].
Proof.
  intros tmp full name local_dir Hfresh Hmk Hin Hget Hmkl Hmove Hback Hrm.
  fetch_unfold. fold tmp. fold full. fold name. fold local_dir. cbn.
  rewrite decide_False by done. rewrite Hmk. cbn.
  rewrite Hin. cbn. rewrite Hget. cbn.
  destruct (decide (local_dir ∈ {[tmp]} ∪ present w)) as [Hl|Hl]; cbn.
  - rewrite Hmove. cbn. rewrite Hback. cbn. rewrite Hrm. cbn.
    eexists. split; [reflexivity|]. cbn. split; [done|]. split; [set_solver|].
    by rewrite <- !app_assoc.
  - rewrite Hmkl. cbn. rewrite Hmove. cbn. rewrite Hback. cbn. rewrite Hrm. cbn.
    eexists. split; [reflexivity|]. cbn. split; [done|]. split; [set_solver|].
    by rewrite <- !app_assoc.
Qed.

(** X18: when [rmapi] cannot be started at all, the Fetcher does not
    swallow the error: after the same cleanup the exception leaves the
    function, and nothing was moved. *)
Theorem rmapi_download_launch_failure remote output w :
  let tmp := temp_dir_of F in
  tmp ∉ present w ->
  mkdir_ok F tmp = true ->
  chdir_ok F tmp = true ->
  Fetcher.subprocess_run F ["rmapi"; "get"; remote] = LaunchFailed ->
  chdir_ok F (cwd w) = true ->
  rmtree_ok F tmp = true ->
  exists w',
    rmapi_download F remote output w = (Raise OSError, w')
    /\ cwd w' = cwd w /\ present w' = present w
    /\ Fetcher.trace w'
       = Fetcher.trace w ++
         [Fetcher.Makedirs tmp false; Chdir tmp;
          Fetcher.Print (MsgDownloading remote);
          Fetcher.SubprocessRun ["rmapi"; "get"; remote];
          Chdir (cwd w); Fetcher.Rmtree tmp; Fetcher.Print (MsgCleanedUp tmp)].
Proof.
  intros tmp Hfresh Hmk Hin Hget Hback Hrm.
  fetch_unfold. fold tmp. cbn.
  rewrite decide_False by done. rewrite Hmk. cbn.
  rewrite Hin. cbn. rewrite Hget. cbn. rewrite Hback. cbn. rewrite Hrm. cbn.
  eexists. split; [reflexivity|]. cbn. split; [done|]. split; [set_solver|].
  by rewrite <- !app_assoc.
Qed.

End FetcherFacts.

(** ** Worked downloads *)

Section FetcherRuns.
Import Fetcher.

Example fetcher_sample_paths :
  temp_dir_of (sample Completed) = "/tmp/0002"
  /\ full_local_path_of (sample Completed) "/Notes/Quarterly" "/out"
     = "/out/Notes/Quarterly.rmdoc"
  /\ temp_file_name_of "/Notes/Quarterly" = "Quarterly.rmdoc".
Proof. repeat split; reflexivity. Qed.

Lemma rmapi_download_restores_witness :
  let w' := snd (rmapi_download (sample LaunchFailed) "/Notes/Quarterly" "/out" start) in
  cwd w' = "/home/me" /\ ("/tmp/0002" ∉ present w') /\ ∅ ⊆ present w'.
Proof.
  exact (rmapi_download_restores (sample LaunchFailed) "/Notes/Quarterly" "/out" start
           (not_elem_of_empty _) eq_refl eq_refl eq_refl).
Defined.

Lemma rmapi_download_failed_download_witness :
  exists w',
    rmapi_download (sample NonZeroExit) "/Notes/Quarterly" "/out" start = (Ok tt, w')
    /\ cwd w' = "/home/me" /\ present w' = ∅
    /\ Fetcher.trace w'
       = [Fetcher.Makedirs "/tmp/0002" false; Chdir "/tmp/0002";
          Fetcher.Print (MsgDownloading "/Notes/Quarterly");
          Fetcher.SubprocessRun ["rmapi"; "get"; "/Notes/Quarterly"];
          Fetcher.Print MsgDownloadError;
          Chdir "/home/me"; Fetcher.Rmtree "/tmp/0002";
          Fetcher.Print (MsgCleanedUp "/tmp/0002")].
Proof.
  exact (rmapi_download_failed_download (sample NonZeroExit) "/Notes/Quarterly" "/out"
           start (not_elem_of_empty _) eq_refl eq_refl eq_refl eq_refl eq_refl).
Defined.

Lemma rmapi_download_success_witness :
  exists w',
    rmapi_download (sample Completed) "/Notes/Quarterly" "/out" start = (Ok tt, w')
    /\ cwd w' = "/home/me"
    /\ present w' = ({["/out/Notes"]} ∪ ∅) ∖ {["/tmp/0002"]}
    /\ Fetcher.trace w'
       = [Fetcher.Makedirs "/tmp/0002" false; Chdir "/tmp/0002";
          Fetcher.Print (MsgDownloading "/Notes/Quarterly");
          Fetcher.SubprocessRun ["rmapi"; "get"; "/Notes/Quarterly"];
          Fetcher.Print MsgDownloadOk;
          Fetcher.Makedirs "/out/Notes" true;
          Fetcher.Print (MsgEnsured "/out/Notes");
          Fetcher.Print (MsgMoving "Quarterly.rmdoc" "/out/Notes/Quarterly.rmdoc");
          Move "Quarterly.rmdoc" "/out/Notes/Quarterly.rmdoc";
          Fetcher.Print MsgMoveOk;
          Fetcher.Print (MsgProcessing "/out/Notes/Quarterly.rmdoc");
          Chdir "/home/me"; Fetcher.Rmtree "/tmp/0002";
          Fetcher.Print (MsgCleanedUp "/tmp/0002")].
Proof.
  exact (rmapi_download_success (sample Completed) "/Notes/Quarterly" "/out" start
           (not_elem_of_empty _) eq_refl eq_refl eq_refl eq_refl eq_refl eq_refl
           eq_refl).
Defined.

Lemma rmapi_download_launch_failure_witness :
  exists w',
    rmapi_download (sample LaunchFailed) "/Notes/Quarterly" "/out" start
    = (Raise OSError, w')
    /\ cwd w' = "/home/me" /\ present w' = ∅
    /\ Fetcher.trace w'
       = [Fetcher.Makedirs "/tmp/0002" false; Chdir "/tmp/0002";
          Fetcher.Print (MsgDownloading "/Notes/Quarterly");
          Fetcher.SubprocessRun ["rmapi"; "get"; "/Notes/Quarterly"];
          Chdir "/home/me"; Fetcher.Rmtree "/tmp/0002";
          Fetcher.Print (MsgCleanedUp "/tmp/0002")].
Proof.
  exact (rmapi_download_launch_failure (sample LaunchFailed) "/Notes/Quarterly" "/out"
           start (not_elem_of_empty _) eq_refl eq_refl eq_refl eq_refl eq_refl).
Defined.

End FetcherRuns.
